(** * Feedback-System: the request handlers of [server.js]

    [server.js] is an Express application over a MySQL table [feedback].
    Every handler reads a request, binds some of its values to the [?]
    placeholders of a statement, runs the statement and answers with a
    status and a JSON body.

    The development follows that shape.
    - Part I    JavaScript values: truthiness, [||], [<], [trim],
                [split], [parseInt], [toFixed].
    - Part II   the table: rows, parameterised statements with
                positional [?] placeholders, and their evaluation.
    - Part III  the handlers, one definition per route, written in the
                order of the source.
    - Part IV   the vocabulary in which the properties are stated.
    - Part V    sample tables and requests.
    - Part VI   supporting facts about Parts I and II.
    - Part VII  the properties of the handlers, route by route, and the
                tables the server can reach.
    - Part VIII what the routes do together (a write followed by a read,
                pages of a listing, ids over a sequence of requests) and
                at their edges (members left out, wildcard queries,
                headers without a token).

    Conventions.
    - A string is its list of UTF-16 code units, so [length] is the
      JavaScript [.length].
    - A finite number is written by its exact rational value.  Where the
      program creates a number ([parseInt], [parseFloat] of the average)
      the value is rounded to the nearest double.
    - What [server.js] calls but does not define is a field of [Platform]:
      the conversion of an arbitrary string to a number, the printing of a
      fractional number, [jwt.verify] under the configured secret, the
      casts MySQL applies when a cell is compared at another type, and
      what the store answers to the three grouped statements of the
      report.
    - The table declaration is not part of [server.js].  A row keeps the
      values that were bound for it, and a statement fails only for the
      reasons written in [execute].  One request runs at a time. *)

From Stdlib Require Import List ZArith NArith QArith Qround Qabs Qpower.
From Stdlib Require Import Bool Lia Lqa.
From Stdlib Require Import String Ascii Sorted Permutation.
Import ListNotations.

Local Open Scope Z_scope.
Set Warnings "-register-all".


(* ================================================================= *)
(** * Part I: JavaScript values *)

(** ** Strings *)

Definition jsstring := list N.

(** A source literal as a JavaScript string. *)
Definition js (s : string) : jsstring :=
  map N_of_ascii (list_ascii_of_string s).

Definition jsstring_eqb (s t : jsstring) : bool :=
  if list_eq_dec N.eq_dec s t then true else false.

(** WhiteSpace and LineTerminator code points, the ones [trim] and
    [parseInt] strip. *)
Definition is_white_space (c : N) : bool :=
  existsb (N.eqb c)
    [9; 10; 11; 12; 13; 32; 160; 5760; 8232; 8233; 8239; 8287; 12288; 65279]%N
  || ((8192 <=? c) && (c <=? 8202))%N.

Fixpoint trim_start (s : jsstring) : jsstring :=
  match s with
  | c :: s' => if is_white_space c then trim_start s' else s
  | [] => []
  end.

Definition trim_end (s : jsstring) : jsstring := rev (trim_start (rev s)).

(** [String.prototype.trim]. *)
Definition trim (s : jsstring) : jsstring := trim_end (trim_start s).

(** [s.split(sep)] for a one-unit separator: the pieces between the
    occurrences of [sep]; always at least one piece. *)
Fixpoint split (sep : N) (s : jsstring) : list jsstring :=
  match s with
  | [] => [[]]
  | c :: s' =>
      if (c =? sep)%N then [] :: split sep s'
      else match split sep s' with
           | piece :: pieces => (c :: piece) :: pieces
           | [] => [[c]]
           end
  end.

(** ** Numbers *)

Inductive number : Type :=
| NaN
| Inf (negative : bool)
| Fin (q : Q).

Definition num_of_Z (z : Z) : number := Fin (inject_Z z).

(** [x < y] on numbers; [false] as soon as one side is [NaN]. *)
Definition num_lt (x y : number) : bool :=
  match x, y with
  | NaN, _ | _, NaN => false
  | Inf nx, Inf ny => nx && negb ny
  | Inf nx, Fin _ => nx
  | Fin _, Inf ny => negb ny
  | Fin a, Fin b => negb (Qle_bool b a)
  end.

(** Numeric equality, [NaN] equal to nothing. *)
Definition num_eqb (x y : number) : bool :=
  match x, y with
  | Inf nx, Inf ny => Bool.eqb nx ny
  | Fin a, Fin b => Qeq_bool a b
  | _, _ => false
  end.

(** *** Rounding to double precision

    [floor_log2 a] is the exponent [e] with [2^e <= a < 2^(e+1)], for
    [a > 0]. *)
Definition floor_log2 (a : Q) : Z :=
  let e0 := Z.log2 (Qnum a) - Z.log2 (Zpos (Qden a)) in
  if Qle_bool (Qpower 2 e0) a then e0 else e0 - 1.

(** Nearest integer, a tie going to the even one. *)
Definition round_half_even (r : Q) : Z :=
  let f := Qfloor r in
  match Qcompare (r - inject_Z f) (1 # 2) with
  | Lt => f
  | Gt => f + 1
  | Eq => if Z.even f then f else f + 1
  end.

(** The double nearest to a non-negative rational: 53 significant bits,
    exponents from -1022, infinity from [2^1024] on. *)
Definition round_double_abs (a : Q) : number :=
  if Qle_bool a 0 then Fin 0
  else
    let p := Z.max (floor_log2 a) (-1022) - 52 in
    let m := round_half_even (a * Qpower 2 (- p)) in
    let d := (inject_Z m * Qpower 2 p)%Q in
    if Qle_bool (Qpower 2 1024) d then Inf false else Fin (Qred d).

Definition num_opp (x : number) : number :=
  match x with
  | NaN => NaN
  | Inf n => Inf (negb n)
  | Fin q => Fin (- q)
  end.

Definition round_double (q : Q) : number :=
  if Qle_bool 0 q then round_double_abs q
  else num_opp (round_double_abs (- q)).

(** *** Decimal digits *)

(** The decimal digits of [n], most significant first; [fuel] bounds
    their number. *)
Fixpoint digits_of (fuel : nat) (n : N) : jsstring :=
  match fuel with
  | O => []
  | S fuel' =>
      if (n <? 10)%N then [(48 + n)%N]
      else digits_of fuel' (n / 10)%N ++ [(48 + n mod 10)%N]
  end.

(** The decimal digits of a natural number, ["0"] for zero.  A number
    has no more decimal digits than binary ones. *)
Definition decimal_N (n : N) : jsstring :=
  digits_of (S (N.to_nat (N.log2 n))) n.

(** The decimal text of an integer, as [String(n)] prints it. *)
Definition decimal_Z (z : Z) : jsstring :=
  match z with
  | Zneg p => 45%N :: decimal_N (Npos p)
  | _ => decimal_N (Z.to_N z)
  end.

(** The value of a digit in radix up to 36. *)
Definition digit_value (c : N) : option N :=
  if ((48 <=? c) && (c <=? 57))%N then Some (c - 48)%N
  else if ((97 <=? c) && (c <=? 122))%N then Some (c - 87)%N
  else if ((65 <=? c) && (c <=? 90))%N then Some (c - 55)%N
  else None.

Definition is_digit (radix : N) (c : N) : bool :=
  match digit_value c with
  | Some d => (d <? radix)%N
  | None => false
  end.

Fixpoint take_while {A} (p : A -> bool) (l : list A) : list A :=
  match l with
  | x :: l' => if p x then x :: take_while p l' else []
  | [] => []
  end.

(** The integer a digit string denotes in the given radix. *)
Definition digits_value (radix : N) (ds : jsstring) : N :=
  fold_left
    (fun acc c => (acc * radix + match digit_value c with
                                 | Some d => d
                                 | None => 0
                                 end)%N)
    ds 0%N.

(** ** Values *)

Inductive value : Type :=
| VUndefined
| VNull
| VBool (b : bool)
| VNum (n : number)
| VStr (s : jsstring)
| VArr (items : list value)
| VObj (props : list (jsstring * value)).

(** [ToBoolean]: what [!v], [v || w], [v && w] and [if (v)] test. *)
Definition truthy (v : value) : bool :=
  match v with
  | VUndefined | VNull => false
  | VBool b => b
  | VNum NaN => false
  | VNum (Inf _) => true
  | VNum (Fin q) => negb (Qeq_bool q 0)
  | VStr s => match s with [] => false | _ => true end
  | VArr _ | VObj _ => true
  end.

(** [a || b]. *)
Definition js_or (a b : value) : value := if truthy a then a else b.

(** [a && b]. *)
Definition js_and (a b : value) : value := if truthy a then b else a.

(** What the driver sends to the store for a bound value, and what a
    cell of the table holds: SQL NULL, a number or a text. *)
Inductive sqlval : Type :=
| SNull
| SNum (n : number)
| SText (s : jsstring).

(** The statements of the report that are not interpreted here.
    Grouping, the calendar functions and the SQL mode they run under
    belong to the store. *)
Inductive grouped_statement : Type :=
| FEEDBACK_BY_TYPE
    (* SELECT feedback_type, COUNT( * ) as count,
              AVG(overall_rating) as avg_rating
       FROM feedback GROUP BY feedback_type *)
| MONTHLY_STATS
    (* SELECT YEAR(submission_date) as year,
              MONTH(submission_date) as month,
              MONTHNAME(submission_date) as month_name, COUNT( * ) as count
       FROM feedback
       WHERE submission_date >= DATE_SUB(NOW(), INTERVAL 12 MONTH)
       GROUP BY YEAR(submission_date), MONTH(submission_date)
       ORDER BY year DESC, month DESC *)
| RATING_DISTRIBUTION.
    (* SELECT overall_rating, COUNT( * ) as count FROM feedback
       GROUP BY overall_rating ORDER BY overall_rating *)

(** The operations [server.js] relies on without defining them. *)
Class Platform : Type := {
  (** ECMAScript's StringToNumber. *)
  StringToNumber : jsstring -> number;
  (** [Number::toString] where the value is fractional or at least 1e21. *)
  NumberToString : Q -> jsstring;
  (** [parseFloat] on a string. *)
  StringToFloat : jsstring -> number;
  (** [jwt.verify(token, JWT_SECRET, ...)] reports no error. *)
  jwt_verify : jsstring -> bool;
  (** The text the driver sends for a bound array or object. *)
  serialize : value -> jsstring;
  (** MySQL's cast of a text to a number. *)
  cast_num : jsstring -> number;
  (** MySQL's cast of a number to a text. *)
  cast_text : number -> jsstring;
  (** What the store answers to a grouped statement at a store time, on
      the table given cell by cell: the rows of the answer, or an
      error. *)
  grouped :
    grouped_statement -> Z -> list (list sqlval) -> option (list (list sqlval))
}.

Section Conversions.
Context {platform : Platform}.

(** [Number::toString] (radix 10): integers below 1e21 print their
    decimal digits. *)
Definition number_to_string (n : number) : jsstring :=
  match n with
  | NaN => js "NaN"
  | Inf false => js "Infinity"
  | Inf true => js "-Infinity"
  | Fin q =>
      let r := Qred q in
      if (Zpos (Qden r) =? 1) && (Z.abs (Qnum r) <? 10 ^ 21)
      then decimal_Z (Qnum r)
      else NumberToString q
  end.

(** [ToString]. An array joins its elements with a comma, [null] and
    [undefined] elements printing as nothing; a plain object prints as
    [[object Object]]. *)
Fixpoint to_string (v : value) : jsstring :=
  match v with
  | VUndefined => js "undefined"
  | VNull => js "null"
  | VBool true => js "true"
  | VBool false => js "false"
  | VNum n => number_to_string n
  | VStr s => s
  | VArr items =>
      (fix join (l : list value) : jsstring :=
         match l with
         | [] => []
         | x :: rest =>
             let e := match x with
                      | VUndefined | VNull => []
                      | _ => to_string x
                      end in
             match rest with
             | [] => e
             | _ => e ++ 44%N :: join rest
             end
         end) items
  | VObj _ => js "[object Object]"
  end.

(** [ToNumber]; an array or object goes through its string. *)
Definition to_number (v : value) : number :=
  match v with
  | VUndefined => NaN
  | VNull => Fin 0
  | VBool true => Fin 1
  | VBool false => Fin 0
  | VNum n => n
  | VStr s => StringToNumber s
  | VArr _ | VObj _ => StringToNumber (to_string v)
  end.

(** [v < k] and [v > k] against a number literal [k]. *)
Definition js_lt (v : value) (k : number) : bool := num_lt (to_number v) k.
Definition js_gt (v : value) (k : number) : bool := num_lt k (to_number v).

(** [parseInt(v)] with no radix: leading white space, a sign, a [0x]
    prefix, then the longest run of digits; [NaN] when there is none. *)
Definition parseInt (v : value) : number :=
  let s := trim_start (to_string v) in
  let '(negative, s) :=
    match s with
    | 45%N :: r => (true, r)
    | 43%N :: r => (false, r)
    | _ => (false, s)
    end in
  let '(radix, s) :=
    match s with
    | 48%N :: x :: r =>
        if (x =? 120)%N || (x =? 88)%N then (16%N, r) else (10%N, s)
    | _ => (10%N, s)
    end in
  match take_while (is_digit radix) s with
  | [] => NaN
  | ds =>
      let m := Z.of_N (digits_value radix ds) in
      round_double (inject_Z (if negative then - m else m))
  end.

(** The value of a numeral [digits.digits]. *)
Definition unsigned_literal (s : jsstring) : option Q :=
  let whole := take_while (is_digit 10) s in
  match whole, skipn (List.length whole) s with
  | _ :: _, 46%N :: (_ :: _) as fraction =>
      if forallb (is_digit 10) fraction
      then
        let n := Z.of_N (digits_value 10 (whole ++ fraction)) in
        Some (inject_Z n / inject_Z (10 ^ Z.of_nat (List.length fraction)))%Q
      else None
  | _, _ => None
  end.

(** The same, a minus sign before it or not. *)
Definition decimal_literal (s : jsstring) : option Q :=
  match s with
  | 45%N :: r => option_map Qopp (unsigned_literal r)
  | _ => unsigned_literal s
  end.

(** [parseFloat(v)]: a number prints and reads back as itself; the text
    of a numeral [digits.digits] is read as the double nearest to its
    value; anything else is read from its string by the platform. *)
Definition parseFloat (v : value) : number :=
  match v with
  | VNum n => n
  | _ =>
      let s := to_string v in
      match decimal_literal s with
      | Some q => round_double q
      | None => StringToFloat s
      end
  end.

(** [x.toFixed(1)]: a sign, then the integer [n] with [n / 10] nearest to
    [|x|] (the larger one at a tie), printed with a point before its last
    digit. *)
Definition toFixed1 (x : number) : jsstring :=
  match x with
  | Fin q =>
      let a := Qabs q in
      if Qle_bool (inject_Z (10 ^ 21)) a then number_to_string x
      else
        let n := Qfloor (a * 10 + (1 # 2)) in
        let m := decimal_Z n in
        let m := match m with [_] => 48%N :: m | _ => m end in
        let k := (List.length m - 1)%nat in
        (if Qle_bool 0 q then [] else [45%N])
          ++ firstn k m ++ 46%N :: skipn k m
  | _ => number_to_string x
  end.

(** What [pool.execute] does with one bound value: [undefined] is
    refused with a [TypeError] before anything is sent. *)
Definition bind (v : value) : option sqlval :=
  match v with
  | VUndefined => None
  | VNull => Some SNull
  | VBool b => Some (SNum (Fin (if b then 1 else 0)))
  | VNum n => Some (SNum n)
  | VStr s => Some (SText s)
  | VArr _ | VObj _ => Some (SText (serialize v))
  end.

End Conversions.

(* ================================================================= *)
(** * Part II: the [feedback] table and its statements *)

(** ** Rows *)

Inductive column : Type :=
| c_id
| c_name
| c_email
| c_feedback_type
| c_subject_course
| c_overall_rating
| c_detailed_feedback
| c_submission_date
| c_updated_at.

(** Modelled from the spec: the table is declared outside [server.js].
    The spec gives the entity its columns: an [id] generated by the
    store, the six submitted columns, a [submission_date] set at creation
    and an [updated_at] set on modification.  Times are counted in
    seconds. *)
Record row : Type := {
  row_id : Z;
  row_name : sqlval;
  row_email : sqlval;
  row_feedback_type : sqlval;
  row_subject_course : sqlval;
  row_overall_rating : sqlval;
  row_detailed_feedback : sqlval;
  row_submission_date : Z;
  row_updated_at : option Z
}.

(** The table with its AUTO_INCREMENT counter. *)
Record store : Type := {
  rows : list row;
  next_id : Z
}.

Definition cell (c : column) (r : row) : sqlval :=
  match c with
  | c_id => SNum (num_of_Z (row_id r))
  | c_name => row_name r
  | c_email => row_email r
  | c_feedback_type => row_feedback_type r
  | c_subject_course => row_subject_course r
  | c_overall_rating => row_overall_rating r
  | c_detailed_feedback => row_detailed_feedback r
  | c_submission_date => SNum (num_of_Z (row_submission_date r))
  | c_updated_at =>
      match row_updated_at r with
      | Some t => SNum (num_of_Z t)
      | None => SNull
      end
  end.

(** A row cell by cell, in the order of the columns. *)
Definition cells (r : row) : list sqlval :=
  map (fun c => cell c r)
    [c_id; c_name; c_email; c_feedback_type; c_subject_course;
     c_overall_rating; c_detailed_feedback; c_submission_date; c_updated_at].

(** [SET c = v] / a column of [INSERT ... VALUES]; the columns the store
    manages itself take no bound value. *)
Definition set_cell (c : column) (v : sqlval) (r : row) : option row :=
  let '{| row_id := i; row_name := n; row_email := e;
          row_feedback_type := t; row_subject_course := s;
          row_overall_rating := o; row_detailed_feedback := d;
          row_submission_date := sd; row_updated_at := u |} := r in
  match c with
  | c_name => Some (Build_row i v e t s o d sd u)
  | c_email => Some (Build_row i n v t s o d sd u)
  | c_feedback_type => Some (Build_row i n e v s o d sd u)
  | c_subject_course => Some (Build_row i n e t v o d sd u)
  | c_overall_rating => Some (Build_row i n e t s v d sd u)
  | c_detailed_feedback => Some (Build_row i n e t s o v sd u)
  | c_id | c_submission_date | c_updated_at => None
  end.

Fixpoint set_cells (cs : list column) (vs : list sqlval) (r : row)
  : option row :=
  match cs, vs with
  | [], [] => Some r
  | c :: cs', v :: vs' =>
      match set_cell c v r with
      | Some r' => set_cells cs' vs' r'
      | None => None
      end
  | _, _ => None
  end.

(** ** Comparisons of the store *)

(** Modelled from the spec: the collation of the text columns belongs to
    the table declaration; the spec has text compared without regard to
    case.  Letters A-Z fold to a-z. *)
Definition fold_case (c : N) : N :=
  if ((65 <=? c) && (c <=? 90))%N then (c + 32)%N else c.

Definition chr_eqb (a b : N) : bool := (fold_case a =? fold_case b)%N.

Definition text_eqb (s t : jsstring) : bool :=
  jsstring_eqb (map fold_case s) (map fold_case t).

(** Some suffix of [t], [t] itself included, satisfies [f]. *)
Fixpoint any_suffix (f : jsstring -> bool) (t : jsstring) : bool :=
  f t || match t with
         | [] => false
         | _ :: t' => any_suffix f t'
         end.

Definition all_digits (s : jsstring) : bool :=
  match s with
  | [] => false
  | _ => forallb (is_digit 10) s
  end.

Section Comparisons.
Context {platform : Platform}.

(** A cell read as a number: a run of decimal digits is the integer it
    spells, any other text goes through the store's cast. *)
Definition as_num (v : sqlval) : option number :=
  match v with
  | SNull => None
  | SNum n => Some n
  | SText s =>
      Some (if all_digits s then num_of_Z (Z.of_N (digits_value 10 s))
            else cast_num s)
  end.

(** A cell read as a text. *)
Definition as_text (v : sqlval) : option jsstring :=
  match v with
  | SNull => None
  | SNum n => Some (cast_text n)
  | SText s => Some s
  end.

(** [a = b]: unknown when a side is NULL; two texts compare under the
    collation; otherwise both sides compare as numbers. *)
Definition sql_eq (a b : sqlval) : option bool :=
  match a, b with
  | SText s, SText t => Some (text_eqb s t)
  | _, _ =>
      match as_num a, as_num b with
      | Some x, Some y => Some (num_eqb x y)
      | _, _ => None
      end
  end.

(** [text LIKE pattern]: [%] stands for any run of characters, [_] for
    any one character, and a backslash makes the next pattern character
    literal. *)
Fixpoint like (p s : jsstring) {struct p} : bool :=
  match p with
  | [] => match s with [] => true | _ => false end
  | c :: p' =>
      if (c =? 37)%N then any_suffix (like p') s
      else if (c =? 95)%N then
        match s with
        | _ :: s' => like p' s'
        | [] => false
        end
      else if (c =? 92)%N then
        match p' with
        | x :: p'' =>
            match s with
            | y :: s' => chr_eqb x y && like p'' s'
            | [] => false
            end
        | [] =>
            match s with
            | [y] => chr_eqb c y
            | _ => false
            end
        end
      else
        match s with
        | y :: s' => chr_eqb c y && like p' s'
        | [] => false
        end
  end.

Definition sql_like (a pattern : sqlval) : option bool :=
  match as_text a, as_text pattern with
  | Some s, Some p => Some (like p s)
  | _, _ => None
  end.

End Comparisons.

(** Three-valued OR and AND. *)
Definition tri_or (a b : option bool) : option bool :=
  match a, b with
  | Some true, _ | _, Some true => Some true
  | Some false, Some false => Some false
  | _, _ => None
  end.

Definition tri_and (a b : option bool) : option bool :=
  match a, b with
  | Some false, _ | _, Some false => Some false
  | Some true, Some true => Some true
  | _, _ => None
  end.

(** A WHERE clause keeps the rows for which it is true. *)
Definition holds (a : option bool) : bool :=
  match a with
  | Some true => true
  | _ => false
  end.

(** ** Statements *)

(** The conditions the handlers write after WHERE.  Each [CEq] and
    [CLike] holds one [?]; placeholders are numbered left to right. *)
Inductive cond : Type :=
| CTrue                         (* 1=1, or no WHERE at all *)
| CEq (c : column)              (* c = ? *)
| CLike (c : column)            (* c LIKE ? *)
| CSince (c : column) (secs : Z) (* c >= DATE_SUB(NOW(), INTERVAL secs SECOND) *)
| COr (a b : cond)
| CAnd (a b : cond).

Inductive limit : Type :=
| NoLimit
| LimitConst (n : nat)          (* LIMIT n *)
| LimitOffset.                  (* LIMIT ? OFFSET ? *)

Inductive statement : Type :=
| SELECT (w : cond) (newest_first : bool) (l : limit)
    (* SELECT * FROM feedback WHERE w [ORDER BY submission_date DESC] [l] *)
| SELECT_COUNT (w : cond)
    (* SELECT COUNT( * ) FROM feedback WHERE w *)
| SELECT_AVG (c : column)
    (* SELECT AVG(c) FROM feedback *)
| INSERT (cs : list column)
    (* INSERT INTO feedback (cs) VALUES (?, ..., ?) *)
| UPDATE (cs : list column) (w : cond)
    (* UPDATE feedback SET cs = ?, updated_at = CURRENT_TIMESTAMP WHERE w *)
| DELETE (w : cond).
    (* DELETE FROM feedback WHERE w *)

Inductive result : Type :=
| Rows (l : list row)
| Scalar (v : value)
| Done (insertId : Z) (affectedRows : nat).

Fixpoint cond_params (w : cond) : nat :=
  match w with
  | CTrue | CSince _ _ => 0
  | CEq _ | CLike _ => 1
  | COr a b | CAnd a b => cond_params a + cond_params b
  end.

Definition placeholders (s : statement) : nat :=
  match s with
  | SELECT w _ l =>
      cond_params w + match l with LimitOffset => 2 | _ => 0 end
  | SELECT_COUNT w => cond_params w
  | SELECT_AVG _ => 0
  | INSERT cs => List.length cs
  | UPDATE cs w => List.length cs + cond_params w
  | DELETE w => cond_params w
  end.

(** Number addition and division by a count, as doubles combine
    infinities and [NaN]. *)
Definition num_add (x y : number) : number :=
  match x, y with
  | NaN, _ | _, NaN => NaN
  | Inf a, Inf b => if Bool.eqb a b then Inf a else NaN
  | Inf a, Fin _ | Fin _, Inf a => Inf a
  | Fin a, Fin b => Fin (a + b)
  end.

Definition num_div_count (x : number) (n : nat) : number :=
  match x with
  | Fin a => Fin (a / inject_Z (Z.of_nat n))
  | _ => x
  end.

Fixpoint somes {A} (l : list (option A)) : list A :=
  match l with
  | Some x :: l' => x :: somes l'
  | None :: l' => somes l'
  | [] => []
  end.

(** ORDER BY submission_date DESC, by insertion. *)
Fixpoint insert_desc (r : row) (l : list row) : list row :=
  match l with
  | [] => [r]
  | x :: l' =>
      if row_submission_date x <=? row_submission_date r
      then r :: l
      else x :: insert_desc r l'
  end.

Definition sort_desc (l : list row) : list row :=
  fold_right insert_desc [] l.

(** A LIMIT or OFFSET argument: a non-negative integer. *)
Definition as_count (v : sqlval) : option nat :=
  match v with
  | SNum (Fin q) =>
      let r := Qred q in
      if (Zpos (Qden r) =? 1) && (0 <=? Qnum r)
      then Some (Z.to_nat (Qnum r))
      else None
  | _ => None
  end.

Fixpoint bind_all {platform : Platform} (vs : list value)
  : option (list sqlval) :=
  match vs with
  | [] => Some []
  | v :: vs' =>
      match bind v, bind_all vs' with
      | Some p, Some ps => Some (p :: ps)
      | _, _ => None
      end
  end.

Section Execute.
Context {platform : Platform}.

(** The truth value of a condition on a row, and the parameters left for
    what follows it in the statement. *)
Fixpoint eval_cond (now : Z) (w : cond) (ps : list sqlval) (r : row)
  : option bool * list sqlval :=
  match w with
  | CTrue => (Some true, ps)
  | CEq c =>
      match ps with
      | p :: ps' => (sql_eq (cell c r) p, ps')
      | [] => (None, [])
      end
  | CLike c =>
      match ps with
      | p :: ps' => (sql_like (cell c r) p, ps')
      | [] => (None, [])
      end
  | CSince c secs =>
      (match as_num (cell c r) with
       | Some x => Some (negb (num_lt x (num_of_Z (now - secs))))
       | None => None
       end, ps)
  | COr a b =>
      let '(x, ps1) := eval_cond now a ps r in
      let '(y, ps2) := eval_cond now b ps1 r in
      (tri_or x y, ps2)
  | CAnd a b =>
      let '(x, ps1) := eval_cond now a ps r in
      let '(y, ps2) := eval_cond now b ps1 r in
      (tri_and x y, ps2)
  end.

Definition selected (now : Z) (w : cond) (ps : list sqlval) (r : row)
  : bool :=
  holds (fst (eval_cond now w ps r)).

(** A DECIMAL with four places after the point, as the driver hands it
    over: the text of [q] rounded to four places, a tie going away from
    zero. *)
Definition decimal4 (q : Q) : jsstring :=
  let k := Qfloor (Qabs q * 10000 + (1 # 2)) in
  let f := Z.to_N (k mod 10000) in
  (if Qle_bool 0 q || (k =? 0) then [] else [45%N])
    ++ decimal_Z (k / 10000)
    ++ 46%N :: [(48 + f / 1000)%N; (48 + f / 100 mod 10)%N;
                (48 + f / 10 mod 10)%N; (48 + f mod 10)%N].

(** AVG over the cells that are not NULL; NULL over none.  Modelled from
    the spec: [overall_rating] is an integer column.  The store computes
    the average of such a column as a DECIMAL with four places after the
    point, and the driver hands a DECIMAL over as its text. *)
Definition average (c : column) (rs : list row) : value :=
  match somes (map (fun r => as_num (cell c r)) rs) with
  | [] => VNull
  | xs =>
      match num_div_count (fold_left num_add xs (Fin 0)) (List.length xs) with
      | Fin q => VStr (decimal4 q)
      | x => VNum x
      end
  end.

Definition blank_row (i now : Z) : row :=
  {| row_id := i;
     row_name := SNull; row_email := SNull; row_feedback_type := SNull;
     row_subject_course := SNull; row_overall_rating := SNull;
     row_detailed_feedback := SNull;
     row_submission_date := now; row_updated_at := None |}.

Definition touch (now : Z) (r : row) : row :=
  {| row_id := row_id r;
     row_name := row_name r; row_email := row_email r;
     row_feedback_type := row_feedback_type r;
     row_subject_course := row_subject_course r;
     row_overall_rating := row_overall_rating r;
     row_detailed_feedback := row_detailed_feedback r;
     row_submission_date := row_submission_date r;
     row_updated_at := Some now |}.

(** The rows of [rs] with every selected one rewritten by [f]; [None]
    when [f] fails on one of them. *)
Fixpoint update_rows (sel : row -> bool) (f : row -> option row)
  (rs : list row) : option (list row) :=
  match rs with
  | [] => Some []
  | r :: rs' =>
      match (if sel r then f r else Some r), update_rows sel f rs' with
      | Some r', Some rs'' => Some (r' :: rs'')
      | _, _ => None
      end
  end.

(** [pool.execute(statement, params)] at store time [now].  [None] is a
    thrown error: a parameter is [undefined], the number of parameters is
    not the number of placeholders, a LIMIT or OFFSET argument is not a
    non-negative integer, or a column managed by the store is assigned. *)
Definition execute (s : statement) (params : list value) (now : Z)
  (st : store) : option (result * store) :=
  match bind_all params with
  | None => None
  | Some ps =>
      if negb (List.length ps =? placeholders s)%nat then None
      else
        match s with
        | SELECT w newest_first l =>
            let n := cond_params w in
            let found := filter (selected now w (firstn n ps)) (rows st) in
            let ordered := if newest_first then sort_desc found else found in
            match l with
            | NoLimit => Some (Rows ordered, st)
            | LimitConst k => Some (Rows (firstn k ordered), st)
            | LimitOffset =>
                match skipn n ps with
                | [lim; off] =>
                    match as_count lim, as_count off with
                    | Some k, Some o =>
                        Some (Rows (firstn k (skipn o ordered)), st)
                    | _, _ => None
                    end
                | _ => None
                end
            end
        | SELECT_COUNT w =>
            let found := filter (selected now w ps) (rows st) in
            Some (Scalar (VNum (num_of_Z (Z.of_nat (List.length found)))), st)
        | SELECT_AVG c => Some (Scalar (average c (rows st)), st)
        | INSERT cs =>
            match set_cells cs ps (blank_row (next_id st) now) with
            | Some r =>
                Some (Done (next_id st) 1,
                      {| rows := rows st ++ [r]; next_id := next_id st + 1 |})
            | None => None
            end
        | UPDATE cs w =>
            let n := List.length cs in
            let sel := selected now w (skipn n ps) in
            match update_rows sel
                    (fun r => option_map (touch now)
                                (set_cells cs (firstn n ps) r))
                    (rows st) with
            | Some rs =>
                Some (Done 0 (List.length (filter sel (rows st))),
                      {| rows := rs; next_id := next_id st |})
            | None => None
            end
        | DELETE w =>
            let sel := selected now w ps in
            Some (Done 0 (List.length (filter sel (rows st))),
                  {| rows := filter (fun r => negb (sel r)) (rows st);
                     next_id := next_id st |})
        end
  end.

End Execute.

(** ** The [feedback_categories] table *)

(** Modelled from the spec: the table is declared outside [server.js].
    The spec has it a lookup table of feedback categories, listed by
    name; a row is its name and its other columns, whatever they are. *)
Record category : Type := {
  category_name : jsstring;
  category_columns : list sqlval
}.

(** Modelled from the spec: the order of two texts under the collation,
    which belongs to the table declaration.  As for equality, letters
    compare without regard to case; texts compare unit by unit, a proper
    prefix first. *)
Fixpoint text_leb (s t : jsstring) : bool :=
  match s, t with
  | [], _ => true
  | _ :: _, [] => false
  | a :: s', b :: t' =>
      (fold_case a <? fold_case b)%N
      || ((fold_case a =? fold_case b)%N && text_leb s' t')
  end.

(** ORDER BY category_name, by insertion. *)
Fixpoint insert_by_name (c : category) (l : list category) : list category :=
  match l with
  | [] => [c]
  | x :: l' =>
      if text_leb (category_name c) (category_name x)
      then c :: l
      else x :: insert_by_name c l'
  end.

Definition sort_by_name (l : list category) : list category :=
  fold_right insert_by_name [] l.

(* ================================================================= *)
(** * Part III: the handlers *)

(** ** Requests and responses *)

(** [req.body] of POST and PUT; a member that was not sent is
    [VUndefined]. *)
Record feedback_body : Type := {
  b_name : value;
  b_email : value;
  b_feedback_type : value;
  b_subject_course : value;
  b_overall_rating : value;
  b_detailed_feedback : value
}.

(** [req.query] of GET /api/feedback. *)
Record list_query : Type := {
  lq_type : value;
  lq_rating : value;
  lq_limit : value;
  lq_offset : value
}.

(** [req.query] of GET /api/search. *)
Record search_query : Type := {
  sq_q : value;
  sq_type : value;
  sq_rating : value
}.

Inductive request : Type :=
| POST_feedback (b : feedback_body)
| GET_feedback (q : list_query)
| GET_feedback_id (id : jsstring)
| PUT_feedback_id (id : jsstring) (b : feedback_body)
| DELETE_feedback_id (authHeader : option jsstring) (id : jsstring)
| GET_analytics
| GET_search (sq : search_query).

Inductive body : Type :=
| BNone
    (* res.sendStatus *)
| BError (error : string)
| BCreated (message : string) (id : Z)
| BPage (feedback : list row) (total : value) (limit offset : number)
| BRow (r : row)
| BMessage (message : string)
| BResults (results : list row) (count : nat)
| BReport (total_feedback : value) (average_rating : jsstring)
    (feedback_by_type monthly_stats rating_distribution : list (list sqlval))
    (recent_feedback : value).

Record response : Type := {
  status : Z;
  payload : body
}.

Definition json (code : Z) (b : body) : response :=
  {| status := code; payload := b |}.

(** A destructuring default: [{ x = d }]. *)
Definition default (v d : value) : value :=
  match v with
  | VUndefined => d
  | _ => v
  end.

(** [try { ... } catch (error) { res.status(500)... }]: a handler whose
    body throws answers 500. No handler writes before it can throw, so
    the table is the one it started from. *)
Definition try_catch (attempt : option (response * store)) (st : store)
  : response * store :=
  match attempt with
  | Some done => done
  | None => (json 500 (BError "Internal server error"), st)
  end.

Section Handlers.
Context {platform : Platform}.

(** ** Authentication middleware *)

(** [authHeader && authHeader.split(' ')[1]]. *)
Definition bearer_token (authHeader : option jsstring) : value :=
  match authHeader with
  | None => VUndefined
  | Some h =>
      js_and (VStr h)
        (match nth_error (split 32 h) 1 with
         | Some piece => VStr piece
         | None => VUndefined
         end)
  end.

Definition authenticateToken (authHeader : option jsstring)
  (next : store -> response * store) (st : store) : response * store :=
  let token := bearer_token authHeader in
  if negb (truthy token) then (json 401 BNone, st)
  else
    if jwt_verify (to_string token) then next st
    else (json 403 BNone, st).

(** ** 1. POST /api/feedback *)

Definition insert_feedback : statement :=
  INSERT [c_name; c_email; c_feedback_type; c_subject_course;
          c_overall_rating; c_detailed_feedback].

Definition post_feedback (b : feedback_body) (now : Z) (st : store)
  : response * store :=
  let name := b_name b in
  let email := b_email b in
  let feedback_type := b_feedback_type b in
  let subject_course := b_subject_course b in
  let overall_rating := b_overall_rating b in
  let detailed_feedback := b_detailed_feedback b in
  try_catch
    (if negb (truthy name) || negb (truthy email)
        || negb (truthy feedback_type) || negb (truthy overall_rating)
     then Some (json 400 (BError "Missing required fields"), st)
     else if js_lt overall_rating (Fin 1) || js_gt overall_rating (Fin 5)
     then Some (json 400 (BError "Rating must be between 1 and 5"), st)
     else
       match execute insert_feedback
               [name; email; feedback_type; js_or subject_course VNull;
                overall_rating; js_or detailed_feedback VNull] now st with
       | Some (Done insertId _, st') =>
           Some (json 201 (BCreated "Feedback submitted successfully"
                             insertId), st')
       | _ => None
       end)
    st.

(** ** 2. GET /api/feedback *)

(** [query += ' AND c = ?'; params.push(v)] on a statement text and
    its parameter list. *)
Definition and_eq (c : column) (v : value) (query : cond * list value)
  : cond * list value :=
  (CAnd (fst query) (CEq c), snd query ++ [v]).

Definition get_feedback (q : list_query) (now : Z) (st : store)
  : response * store :=
  let type := lq_type q in
  let rating := lq_rating q in
  let limit := default (lq_limit q) (VNum (Fin 50)) in
  let offset := default (lq_offset q) (VNum (Fin 0)) in
  try_catch
    (let query := (CTrue, []) in
     let query :=
       if truthy type then and_eq c_feedback_type type query else query in
     let query :=
       if truthy rating
       then and_eq c_overall_rating (VNum (parseInt rating)) query
       else query in
     let params :=
       snd query ++ [VNum (parseInt limit); VNum (parseInt offset)] in
     match execute (SELECT (fst query) true LimitOffset) params now st with
     | Some (Rows rows, st1) =>
         (* Get total count for pagination *)
         let countQuery := (CTrue, []) in
         let countQuery :=
           if truthy type
           then and_eq c_feedback_type type countQuery
           else countQuery in
         let countQuery :=
           if truthy rating
           then and_eq c_overall_rating (VNum (parseInt rating)) countQuery
           else countQuery in
         match execute (SELECT_COUNT (fst countQuery)) (snd countQuery)
                 now st1 with
         | Some (Scalar total, st2) =>
             Some (json 200 (BPage rows total (parseInt limit)
                               (parseInt offset)), st2)
         | _ => None
         end
     | _ => None
     end)
    st.

(** ** 3. GET /api/feedback/:id *)

Definition get_feedback_by_id (id : jsstring) (now : Z) (st : store)
  : response * store :=
  try_catch
    (match execute (SELECT (CEq c_id) false NoLimit) [VStr id] now st with
     | Some (Rows rows, st') =>
         match rows with
         | [] => Some (json 404 (BError "Feedback not found"), st')
         | r :: _ => Some (json 200 (BRow r), st')
         end
     | _ => None
     end)
    st.

(** ** 4. PUT /api/feedback/:id *)

Definition update_feedback : statement :=
  UPDATE [c_name; c_email; c_feedback_type; c_subject_course;
          c_overall_rating; c_detailed_feedback] (CEq c_id).

Definition put_feedback (id : jsstring) (b : feedback_body) (now : Z)
  (st : store) : response * store :=
  let name := b_name b in
  let email := b_email b in
  let feedback_type := b_feedback_type b in
  let subject_course := b_subject_course b in
  let overall_rating := b_overall_rating b in
  let detailed_feedback := b_detailed_feedback b in
  try_catch
    (match execute update_feedback
             [name; email; feedback_type; subject_course; overall_rating;
              detailed_feedback; VStr id] now st with
     | Some (Done _ affectedRows, st') =>
         if (affectedRows =? 0)%nat
         then Some (json 404 (BError "Feedback not found"), st')
         else Some (json 200 (BMessage "Feedback updated successfully"), st')
     | _ => None
     end)
    st.

(** ** 5. DELETE /api/feedback/:id *)

Definition delete_handler (id : jsstring) (now : Z) (st : store)
  : response * store :=
  try_catch
    (match execute (DELETE (CEq c_id)) [VStr id] now st with
     | Some (Done _ affectedRows, st') =>
         if (affectedRows =? 0)%nat
         then Some (json 404 (BError "Feedback not found"), st')
         else Some (json 200 (BMessage "Feedback deleted successfully"), st')
     | _ => None
     end)
    st.

Definition delete_feedback (authHeader : option jsstring) (id : jsstring)
  (now : Z) (st : store) : response * store :=
  authenticateToken authHeader (delete_handler id now) st.

(** ** 6. GET /api/analytics

    Six statements are awaited in one [try], in this order; an error of
    any of them is answered 500. *)

Definition get_analytics (now : Z) (st : store) : response * store :=
  try_catch
    (match execute (SELECT_COUNT CTrue) [] now st with
     | Some (Scalar total, st1) =>
         match execute (SELECT_AVG c_overall_rating) [] now st1 with
         | Some (Scalar average, st2) =>
             match grouped FEEDBACK_BY_TYPE now (map cells (rows st2)) with
             | Some typeResult =>
                 match grouped MONTHLY_STATS now (map cells (rows st2)) with
                 | Some monthlyResult =>
                     match grouped RATING_DISTRIBUTION now
                             (map cells (rows st2)) with
                     | Some ratingResult =>
                         match execute
                                 (SELECT_COUNT
                                    (CSince c_submission_date (7 * 86400)))
                                 [] now st2 with
                         | Some (Scalar recent_count, st3) =>
                             Some (json 200
                                     (BReport total
                                        (toFixed1
                                           (parseFloat
                                              (js_or average (VNum (Fin 0)))))
                                        typeResult monthlyResult ratingResult
                                        recent_count), st3)
                         | _ => None
                         end
                     | None => None
                     end
                 | None => None
                 end
             | None => None
             end
         | _ => None
         end
     | _ => None
     end)
    st.

(** ** 7. GET /api/search *)

(** [q.trim()]: only a string has the method; on anything else the call
    throws. *)
Definition trim_method (q : value) : option jsstring :=
  match q with
  | VStr s => Some (trim s)
  | _ => None
  end.

Definition search_where : cond :=
  COr (COr (CLike c_detailed_feedback) (CLike c_subject_course))
    (CLike c_name).

Definition get_search (sq : search_query) (now : Z) (st : store)
  : response * store :=
  let q := sq_q sq in
  let type := sq_type sq in
  let rating := sq_rating sq in
  try_catch
    (if negb (truthy q) then
       Some (json 400
               (BError "Search query must be at least 2 characters"), st)
     else
       match trim_method q with
       | None => None
       | Some trimmed =>
           if (List.length trimmed <? 2)%nat then
             Some (json 400
                     (BError "Search query must be at least 2 characters"),
                   st)
           else
             let searchTerm := VStr (37%N :: trimmed ++ [37%N]) in
             let query :=
               (search_where, [searchTerm; searchTerm; searchTerm]) in
             let query :=
               if truthy type
               then and_eq c_feedback_type type query
               else query in
             let query :=
               if truthy rating
               then and_eq c_overall_rating (VNum (parseInt rating)) query
               else query in
             match execute (SELECT (fst query) true (LimitConst 50))
                     (snd query) now st with
             | Some (Rows rows, st') =>
                 Some (json 200 (BResults rows (List.length rows)), st')
             | _ => None
             end
       end)
    st.

(** ** Routes

    The routes over the [feedback] table.  GET /api/categories reads
    another table and follows them; GET /api/health reads none. *)

Definition route (req : request) (now : Z) (st : store)
  : response * store :=
  match req with
  | POST_feedback b => post_feedback b now st
  | GET_feedback q => get_feedback q now st
  | GET_feedback_id id => get_feedback_by_id id now st
  | PUT_feedback_id id b => put_feedback id b now st
  | DELETE_feedback_id authHeader id => delete_feedback authHeader id now st
  | GET_analytics => get_analytics now st
  | GET_search sq => get_search sq now st
  end.

End Handlers.

(** ** 8. GET /api/categories

    The statement has no parameter, so nothing of what [execute] throws
    for applies to it; the answer is the status and the rows. *)

Definition get_categories (categories : list category)
  : Z * list category :=
  (200, sort_by_name categories).

(* ================================================================= *)
(** * Part IV: the vocabulary of the properties *)

(** ** Submission *)

(** A required member counts as missing when it was not sent or holds
    one of the empty values: [null], [false], zero, [NaN] or the empty
    string. *)
Inductive missing : value -> Prop :=
| missing_absent : missing VUndefined
| missing_null : missing VNull
| missing_false : missing (VBool false)
| missing_zero q : (q == 0)%Q -> missing (VNum (Fin q))
| missing_nan : missing (VNum NaN)
| missing_empty : missing (VStr []).

(** [x < k] and [x > k] as statements about a number and a rational
    bound; [NaN] is on neither side of any bound. *)
Definition below (x : number) (k : Q) : Prop :=
  match x with
  | NaN => False
  | Inf negative => negative = true
  | Fin q => (q < k)%Q
  end.

Definition above (x : number) (k : Q) : Prop :=
  match x with
  | NaN => False
  | Inf negative => negative = false
  | Fin q => (k < q)%Q
  end.

(** The value a bound parameter has in the store ([bind] made total). *)
Definition bound {platform : Platform} (v : value) : sqlval :=
  match bind v with
  | Some p => p
  | None => SNull
  end.

(** The row INSERT builds for a request body. *)
Definition new_row {platform : Platform} (b : feedback_body) (i now : Z)
  : row :=
  {| row_id := i;
     row_name := bound (b_name b);
     row_email := bound (b_email b);
     row_feedback_type := bound (b_feedback_type b);
     row_subject_course :=
       if truthy (b_subject_course b) then bound (b_subject_course b)
       else SNull;
     row_overall_rating := bound (b_overall_rating b);
     row_detailed_feedback :=
       if truthy (b_detailed_feedback b) then bound (b_detailed_feedback b)
       else SNull;
     row_submission_date := now;
     row_updated_at := None |}.

(** ** Tables *)

(** Every id in the table was handed out by the counter. *)
Definition well_formed (st : store) : Prop :=
  0 < next_id st /\ Forall (fun r => 0 < row_id r < next_id st) (rows st).

(** The tables the server can be in: the empty one, and what a request
    makes of one of them. *)
Inductive reachable {platform : Platform} : store -> Prop :=
| reachable_empty : reachable {| rows := []; next_id := 1 |}
| reachable_step st req now :
    reachable st -> reachable (snd (route req now st)).

(** ** Validation *)

Definition outside_1_5 {platform : Platform} (v : value) : Prop :=
  below (to_number v) 1 \/ above (to_number v) 5.

(** What the specification lets a submission fail for. *)
Definition invalid {platform : Platform} (b : feedback_body) : Prop :=
  missing (b_name b) \/ missing (b_email b) \/ missing (b_feedback_type b)
  \/ missing (b_overall_rating b) \/ outside_1_5 (b_overall_rating b).

Definition some_missing (b : feedback_body) : Prop :=
  missing (b_name b) \/ missing (b_email b) \/ missing (b_feedback_type b)
  \/ missing (b_overall_rating b).

(** The handler's two tests, as one boolean. *)
Definition accepts {platform : Platform} (b : feedback_body) : bool :=
  truthy (b_name b) && truthy (b_email b) && truthy (b_feedback_type b)
  && truthy (b_overall_rating b)
  && negb (js_lt (b_overall_rating b) (Fin 1)
           || js_gt (b_overall_rating b) (Fin 5)).

(** ** Credentials *)

Fixpoint join (sep : N) (pieces : list jsstring) : jsstring :=
  match pieces with
  | [] => []
  | [p] => p
  | p :: ps => p ++ sep :: join sep ps
  end.

(** The header offers [t] as its credential: [t] is the second of the
    pieces that single spaces cut the header into, and is not empty. *)
Definition presents (authHeader : option jsstring) (t : jsstring) : Prop :=
  exists scheme rest,
    authHeader = Some (scheme ++ 32%N :: t ++ rest)
    /\ ~ In 32%N scheme /\ ~ In 32%N t /\ t <> []
    /\ (rest = [] \/ exists r, rest = 32%N :: r).

(** ** Reading a row back *)

(** The row's id equals the route parameter, as [WHERE id = ?] compares
    them. *)
Definition id_matches {platform : Platform} (id : jsstring) (r : row)
  : bool :=
  holds (sql_eq (SNum (num_of_Z (row_id r))) (SText id)).

(** ** Ordering and statement texts *)

(** Every row is at least as recent as the rows after it. *)
Definition newest_first (l : list row) : Prop :=
  StronglySorted
    (fun a b => row_submission_date b <= row_submission_date a) l.

(** A statement text with its parameter list: as many defined values as
    the text has placeholders. *)
Definition well_built (query : cond * list value) : Prop :=
  List.length (snd query) = cond_params (fst query)
  /\ Forall (fun v => v <> VUndefined) (snd query).

(** ** Search and filters *)

(** [q] occurs in [s], letter case aside. *)
Definition contains_ci (q s : jsstring) : Prop :=
  exists pre mid post,
    s = pre ++ mid ++ post /\ map fold_case mid = map fold_case q.

(** [q] holds none of the characters LIKE reads as more than
    themselves: [%], [_] and the backslash. *)
Definition plain (q : jsstring) : Prop :=
  Forall (fun c => c <> 37%N /\ c <> 95%N /\ c <> 92%N) q.

Definition plainb (q : jsstring) : bool :=
  forallb (fun c => negb (c =? 37)%N && negb (c =? 95)%N && negb (c =? 92)%N)
    q.

(** [q] is a prefix of [s], letter case aside. *)
Fixpoint prefix_ci (q s : jsstring) : bool :=
  match q, s with
  | [], _ => true
  | c :: q', y :: s' => chr_eqb c y && prefix_ci q' s'
  | _ :: _, [] => false
  end.

Definition contains_cib (q s : jsstring) : bool := any_suffix (prefix_ci q) s.

(** [feedback_type = type], asked for when [type] is truthy. *)
Definition type_filter {platform : Platform} (type : value) (r : row)
  : bool :=
  if truthy type
  then holds (sql_eq (row_feedback_type r) (bound type))
  else true.

(** [overall_rating = parseInt(rating)], asked for when [rating] is
    truthy. *)
Definition rating_filter {platform : Platform} (rating : value) (r : row)
  : bool :=
  if truthy rating
  then holds (sql_eq (row_overall_rating r) (SNum (parseInt rating)))
  else true.

(** The two conditional appends of the list and search handlers. *)
Definition filtered {platform : Platform} (type rating : value)
  (query : cond * list value) : cond * list value :=
  let query :=
    if truthy type then and_eq c_feedback_type type query else query in
  if truthy rating
  then and_eq c_overall_rating (VNum (parseInt rating)) query
  else query.

(** The cell has a text, and [q] occurs in it. *)
Definition cell_contains {platform : Platform} (q : jsstring) (v : sqlval)
  : Prop :=
  exists t, as_text v = Some t /\ contains_ci q t.

Definition cell_like {platform : Platform} (pattern : jsstring) (v : sqlval)
  : bool :=
  holds (sql_like v (SText pattern)).

(** The WHERE clause of the search, for the trimmed query [t]. *)
Definition search_selects {platform : Platform} (t : jsstring)
  (type rating : value) (r : row) : bool :=
  (cell_like (37%N :: t ++ [37%N]) (row_detailed_feedback r)
   || cell_like (37%N :: t ++ [37%N]) (row_subject_course r)
   || cell_like (37%N :: t ++ [37%N]) (row_name r))
  && type_filter type r && rating_filter rating r.

(** A value [req.query] can hold: nothing, a string, an array or an
    object. *)
Definition query_value (v : value) : Prop :=
  match v with
  | VUndefined | VStr _ | VArr _ | VObj _ => True
  | VNull | VBool _ | VNum _ => False
  end.

(** The cell has a text in which [q] occurs, decided. *)
Definition cell_containsb {platform : Platform} (q : jsstring) (v : sqlval)
  : bool :=
  match as_text v with
  | Some t => contains_cib q t
  | None => false
  end.

(** What the specification asks of a record returned for the query
    text [q]: [q] occurs in one of the three text columns, and the
    optional filters hold. *)
Definition search_matches {platform : Platform} (q : jsstring)
  (type rating : value) (r : row) : bool :=
  (cell_containsb q (row_detailed_feedback r)
   || cell_containsb q (row_subject_course r)
   || cell_containsb q (row_name r))
  && type_filter type r && rating_filter rating r.

Definition with_q (q : value) (sq : search_query) : search_query :=
  {| sq_q := q; sq_type := sq_type sq; sq_rating := sq_rating sq |}.

(** ** Listing *)

(** The conjunction of the optional filters of GET /api/feedback. *)
Definition list_matches {platform : Platform} (q : list_query) (r : row)
  : bool :=
  type_filter (lq_type q) r && rating_filter (lq_rating q) r.

(** The limit and the offset the handler asks the store for. *)
Definition asked_limit {platform : Platform} (q : list_query) : number :=
  parseInt (default (lq_limit q) (VNum (Fin 50))).

Definition asked_offset {platform : Platform} (q : list_query) : number :=
  parseInt (default (lq_offset q) (VNum (Fin 0))).

(** ** Stored and returned values *)

(** A value that is stored as it was sent: a string or a number. *)
Definition scalar (v : value) : Prop :=
  match v with
  | VStr _ | VNum _ => True
  | _ => False
  end.

Definition is_text (v : value) : Prop :=
  match v with
  | VStr _ => True
  | _ => False
  end.

Definition is_number (v : value) : Prop :=
  match v with
  | VNum _ => True
  | _ => False
  end.

(** A member that need not be there: when it is truthy, and so stored,
    it is a string. *)
Definition optional_text (v : value) : Prop :=
  truthy v = true -> is_text v.

(** The JavaScript value the driver returns for a cell. *)
Definition returned (c : sqlval) : value :=
  match c with
  | SNull => VNull
  | SNum n => VNum n
  | SText s => VStr s
  end.

(** ** Average rating *)

(** The numeral of [n / 10] with one digit after the point, for
    [0 <= n]. *)
Definition tenths (negative : bool) (n : Z) : jsstring :=
  (if negative then [45%N] else [])
    ++ decimal_Z (n / 10) ++ 46%N :: decimal_Z (n mod 10).

Definition mean (qs : list Q) : Q :=
  (fold_left Qplus qs 0 / inject_Z (Z.of_nat (List.length qs)))%Q.

(** The table's ratings are the finite numbers [qs], row by row. *)
Definition ratings {platform : Platform} (st : store) (qs : list Q) : Prop :=
  map (fun r => as_num (row_overall_rating r)) (rows st)
  = map (fun q => Some (Fin q)) qs.

(** The row's rating is a number within [1,5]. *)
Definition rating_in_range (r : row) : Prop :=
  exists q, row_overall_rating r = SNum (Fin q) /\ (1 <= q <= 5)%Q.

(** ** Updates *)

(** Every member of the body was sent. *)
Definition all_sent (b : feedback_body) : Prop :=
  b_name b <> VUndefined /\ b_email b <> VUndefined
  /\ b_feedback_type b <> VUndefined /\ b_subject_course b <> VUndefined
  /\ b_overall_rating b <> VUndefined /\ b_detailed_feedback b <> VUndefined.

(** The row UPDATE makes of [r]: the six columns take the bound values,
    [updated_at] the time of the statement; the id and the submission
    date stay. *)
Definition updated_row {platform : Platform} (b : feedback_body) (now : Z)
  (r : row) : row :=
  {| row_id := row_id r;
     row_name := bound (b_name b);
     row_email := bound (b_email b);
     row_feedback_type := bound (b_feedback_type b);
     row_subject_course := bound (b_subject_course b);
     row_overall_rating := bound (b_overall_rating b);
     row_detailed_feedback := bound (b_detailed_feedback b);
     row_submission_date := row_submission_date r;
     row_updated_at := Some now |}.


(** ** Sequences of requests *)

(** The table after the requests of [trace], each with the store time
    at which it runs. *)
Definition run {platform : Platform} (trace : list (request * Z))
  (st : store) : store :=
  fold_left (fun s step => snd (route (fst step) (snd step) s)) trace st.

(** ** Credentials offered *)

(** The header offers no credential: there is no header, or its text has
    no space, or what follows its first space is empty or starts with
    another space. *)
Definition no_token (authHeader : option jsstring) : Prop :=
  match authHeader with
  | None => True
  | Some h =>
      ~ In 32%N h
      \/ exists scheme rest,
           h = scheme ++ 32%N :: rest /\ ~ In 32%N scheme
           /\ (rest = [] \/ exists r, rest = 32%N :: r)
  end.

(** ** Windows of a listing *)

(** GET /api/feedback?type&rating&limit&offset with [limit] and [offset]
    written as decimal numerals. *)
Definition window (type rating : value) (limit offset : Z) : list_query :=
  {| lq_type := type; lq_rating := rating;
     lq_limit := VStr (decimal_Z limit);
     lq_offset := VStr (decimal_Z offset) |}.

(** The [feedback] member of a response. *)
Definition page_of (r : response) : list row :=
  match payload r with
  | BPage feedback _ _ _ => feedback
  | _ => []
  end.

(** The [total] member of a response. *)
Definition total_of (r : response) : value :=
  match payload r with
  | BPage _ total _ _ => total
  | _ => VUndefined
  end.

(** ** Wildcard queries *)

(** The cell holds a text of at least [n] characters. *)
Definition text_of_length {platform : Platform} (n : nat) (v : sqlval)
  : bool :=
  match as_text v with
  | Some s => (n <=? List.length s)%nat
  | None => false
  end.

(** GET /api/search?q with no filter. *)
Definition search_for (q : jsstring) : search_query :=
  {| sq_q := VStr q; sq_type := VUndefined; sq_rating := VUndefined |}.

(** ** Categories *)

(** The names are in the order of the collation. *)
Definition by_name (l : list category) : Prop :=
  StronglySorted
    (fun a b => text_leb (category_name a) (category_name b) = true) l.

(** The number of the ratings [qs] that equal [n]. *)
Definition rated (n : Z) (qs : list Q) : nat :=
  List.length (filter (fun q => Qeq_bool q (inject_Z n)) qs).

(** ** The report *)

(** The store answers the three grouped statements of the report. *)
Definition report_answered {platform : Platform} (now : Z) (st : store)
  : Prop :=
  grouped FEEDBACK_BY_TYPE now (map cells (rows st)) <> None
  /\ grouped MONTHLY_STATS now (map cells (rows st)) <> None
  /\ grouped RATING_DISTRIBUTION now (map cells (rows st)) <> None.

(* ================================================================= *)
(** * Part V: sample data *)

Definition empty_store : store := {| rows := []; next_id := 1 |}.

(** A platform to run examples on.  It reads a run of decimal digits as
    the integer it spells and accepts the one token ["valid-token"]; its
    grouped statements are answered with no rows; the remaining
    conversions are arbitrary. *)
Definition sample_platform : Platform :=
  {| StringToNumber :=
       fun s => if all_digits s
                then num_of_Z (Z.of_N (digits_value 10 s))
                else NaN;
     NumberToString := fun _ => js "?";
     StringToFloat := fun _ => NaN;
     jwt_verify := fun t => jsstring_eqb t (js "valid-token");
     serialize := fun _ => js "?";
     cast_num := fun _ => Fin 0;
     cast_text := fun _ => js "?";
     grouped := fun _ _ _ => Some [] |}.

Definition str (s : string) : value := VStr (js s).

Definition alice : feedback_body :=
  {| b_name := str "Alice";
     b_email := str "alice@example.org";
     b_feedback_type := str "course";
     b_subject_course := str "";
     b_overall_rating := VNum (Fin 3);
     b_detailed_feedback := VUndefined |}.

Definition alice_row : row :=
  {| row_id := 1;
     row_name := SText (js "Alice");
     row_email := SText (js "alice@example.org");
     row_feedback_type := SText (js "course");
     row_subject_course := SNull;
     row_overall_rating := SNum (Fin 3);
     row_detailed_feedback := SNull;
     row_submission_date := 100;
     row_updated_at := None |}.

Definition alice_store : store := {| rows := [alice_row]; next_id := 2 |}.

Definition zero_rating : feedback_body :=
  {| b_name := str "Alice";
     b_email := str "alice@example.org";
     b_feedback_type := str "course";
     b_subject_course := VUndefined;
     b_overall_rating := VNum (Fin 0);
     b_detailed_feedback := VUndefined |}.

Definition abc_rating : feedback_body :=
  {| b_name := str "Alice";
     b_email := str "alice@example.org";
     b_feedback_type := str "course";
     b_subject_course := VUndefined;
     b_overall_rating := str "abc";
     b_detailed_feedback := VUndefined |}.

Definition percent_query : search_query :=
  {| sq_q := str "%%"; sq_type := VUndefined; sq_rating := VUndefined |}.

Definition lic_query : search_query :=
  {| sq_q := str " LIC "; sq_type := str "Course"; sq_rating := str "3" |}.

Definition bob_row : row :=
  {| row_id := 2;
     row_name := SText (js "Bob");
     row_email := SText (js "bob@example.org");
     row_feedback_type := SText (js "course");
     row_subject_course := SText (js "Algebra");
     row_overall_rating := SNum (Fin 5);
     row_detailed_feedback := SText (js "Clear and well paced");
     row_submission_date := 160;
     row_updated_at := None |}.

Definition two_rows : store :=
  {| rows := [alice_row; bob_row]; next_id := 3 |}.

Definition course_query : list_query :=
  {| lq_type := str "course"; lq_rating := VUndefined;
     lq_limit := str "1"; lq_offset := VUndefined |}.

Definition nine : feedback_body :=
  {| b_name := str "Alice";
     b_email := str "alice@example.org";
     b_feedback_type := str "course";
     b_subject_course := str "Algebra";
     b_overall_rating := VNum (Fin 9);
     b_detailed_feedback := str "fine" |}.

Definition nine_store : store :=
  {| rows :=
       [{| row_id := 1;
           row_name := SText (js "Alice");
           row_email := SText (js "alice@example.org");
           row_feedback_type := SText (js "course");
           row_subject_course := SText (js "Algebra");
           row_overall_rating := SNum (Fin 9);
           row_detailed_feedback := SText (js "fine");
           row_submission_date := 100;
           row_updated_at := Some 200 |}];
     next_id := 2 |}.

Definition bob : feedback_body :=
  {| b_name := str "Bob";
     b_email := str "bob@example.org";
     b_feedback_type := str "course";
     b_subject_course := str "Algebra";
     b_overall_rating := VNum (Fin 5);
     b_detailed_feedback := str "Clear and well paced" |}.

Definition half_star : feedback_body :=
  {| b_name := str "Bob";
     b_email := str "bob@example.org";
     b_feedback_type := str "course";
     b_subject_course := VNull;
     b_overall_rating := VNum (Fin (9 # 2));
     b_detailed_feedback := VNull |}.

Definition underscore_query : search_query :=
  {| sq_q := str " _____ "; sq_type := VUndefined; sq_rating := VUndefined |}.

Definition sample_categories : list category :=
  [ {| category_name := js "teaching"; category_columns := [] |};
    {| category_name := js "Course"; category_columns := [] |};
    {| category_name := js "facilities"; category_columns := [] |} ].

Definition five_query : list_query :=
  {| lq_type := VUndefined; lq_rating := str "5";
     lq_limit := VUndefined; lq_offset := VUndefined |}.

Definition rated_row (rating id : Z) : row :=
  {| row_id := id;
     row_name := SText (js "Carol");
     row_email := SText (js "carol@example.org");
     row_feedback_type := SText (js "course");
     row_subject_course := SNull;
     row_overall_rating := SNum (num_of_Z rating);
     row_detailed_feedback := SNull;
     row_submission_date := 100 + id;
     row_updated_at := None |}.

(** Thirteen rows rated 4 and seven rated 5: the mean is 4.35. *)
Definition mixed_store : store :=
  {| rows := map (rated_row 4) [1; 2; 3; 4; 5; 6; 7; 8; 9; 10; 11; 12; 13]
             ++ map (rated_row 5) [14; 15; 16; 17; 18; 19; 20];
     next_id := 21 |}.

Definition mixed_ratings : list Q :=
  repeat 4%Q 13 ++ repeat 5%Q 7.

(* ================================================================= *)
(** * Part VI: supporting facts *)

(** ** Lists *)

Lemma filter_none {A} (f : A -> bool) l :
  filter f l = [] -> filter (fun x => negb (f x)) l = l.
Proof.
  induction l as [|x l IH]; simpl; [reflexivity|].
  destruct (f x); [discriminate|]. intros H. simpl. now rewrite IH.
Qed.

Lemma filter_nil_iff {A} (f : A -> bool) l :
  filter f l = [] <-> forall x, In x l -> f x = false.
Proof.
  induction l as [|x l IH]; simpl; [tauto|].
  destruct (f x) eqn:E.
  - split; [discriminate|]. intros H. specialize (H x (or_introl eq_refl)).
    congruence.
  - rewrite IH. split; intros H y; [intros [<-|I]; auto|auto].
Qed.

Lemma perm_in_iff {A} (x : A) l l' :
  Permutation l l' -> (In x l <-> In x l').
Proof.
  intros P. split; apply Permutation_in; [assumption|now symmetry].
Qed.

Lemma In_firstn {A} (x : A) n l : In x (firstn n l) -> In x l.
Proof.
  revert l. induction n as [|n IH]; intros [|y l]; simpl; try tauto.
  intros [E|I]; [now left|right; now apply IH].
Qed.

Lemma In_skipn {A} (x : A) n l : In x (skipn n l) -> In x l.
Proof.
  revert l. induction n as [|n IH]; intros [|y l]; simpl; try tauto.
  intros I. right. now apply IH.
Qed.

Lemma firstn_skipn_length {A} k o (l : list A) :
  (List.length (firstn k (skipn o l)) <= List.length l)%nat.
Proof. rewrite length_firstn, length_skipn. lia. Qed.

(** ** Truthiness and comparison *)

Lemma missing_iff_falsy v : missing v <-> truthy v = false.
Proof.
  split.
  - intros H; destruct H; simpl; try reflexivity.
    apply Qeq_bool_iff in H. now rewrite H.
  - destruct v as [| |[]|[|n|q]|[|c s]|l|l]; simpl; intros H;
      try discriminate; try constructor.
    apply negb_false_iff in H. now apply Qeq_bool_iff.
Qed.

Lemma num_lt_below x k : num_lt x (Fin k) = true <-> below x k.
Proof.
  destruct x as [|n|q]; simpl.
  - split; [discriminate|tauto].
  - tauto.
  - rewrite negb_true_iff. split; intros H.
    + apply Qnot_le_lt. intros L. apply Qle_bool_iff in L. congruence.
    + destruct (Qle_bool k q) eqn:E; [|reflexivity].
      apply Qle_bool_iff in E. exfalso. apply (Qlt_not_le _ _ H E).
Qed.

Lemma num_lt_above x k : num_lt (Fin k) x = true <-> above x k.
Proof.
  destruct x as [|n|q]; simpl.
  - split; [discriminate|tauto].
  - rewrite negb_true_iff. tauto.
  - rewrite negb_true_iff. split; intros H.
    + apply Qnot_le_lt. intros L. apply Qle_bool_iff in L. congruence.
    + destruct (Qle_bool q k) eqn:E; [|reflexivity].
      apply Qle_bool_iff in E. exfalso. apply (Qlt_not_le _ _ H E).
Qed.

Lemma Qle_bool_false a b : Qle_bool a b = false <-> (b < a)%Q.
Proof.
  split; intros H.
  - apply Qnot_le_lt. intros L. apply Qle_bool_iff in L. congruence.
  - destruct (Qle_bool a b) eqn:E; [|reflexivity].
    apply Qle_bool_iff in E. exfalso. apply (Qlt_not_le _ _ H E).
Qed.

Lemma num_eqb_Z a b : num_eqb (num_of_Z a) (num_of_Z b) = (a =? b).
Proof.
  unfold num_eqb, num_of_Z. destruct (Z.eqb_spec a b) as [->|N].
  - apply Qeq_bool_refl.
  - destruct (Qeq_bool (inject_Z a) (inject_Z b)) eqn:E; [|reflexivity].
    apply Qeq_bool_iff in E. unfold Qeq in E. simpl in E. lia.
Qed.

(** ** Splitting and trimming *)

Lemma split_not_nil sep s : split sep s <> [].
Proof.
  destruct s as [|c s]; simpl; [discriminate|].
  destruct (c =? sep)%N; [discriminate|].
  destruct (split sep s); discriminate.
Qed.

Lemma split_prefix sep pre s :
  ~ In sep pre -> split sep (pre ++ sep :: s) = pre :: split sep s.
Proof.
  induction pre as [|c pre IH]; intros H; simpl.
  - now rewrite N.eqb_refl.
  - destruct (N.eqb_spec c sep) as [->|_].
    + exfalso. apply H. now left.
    + rewrite IH; [reflexivity|]. intros I. apply H. now right.
Qed.

Lemma split_whole sep s : ~ In sep s -> split sep s = [s].
Proof.
  induction s as [|c s IH]; intros H; simpl; [reflexivity|].
  destruct (N.eqb_spec c sep) as [->|_].
  - exfalso. apply H. now left.
  - rewrite IH; [reflexivity|]. intros I. apply H. now right.
Qed.

Lemma join_split sep s : join sep (split sep s) = s.
Proof.
  induction s as [|c s IH]; simpl; [reflexivity|].
  destruct (N.eqb_spec c sep) as [->|_].
  - simpl. rewrite IH.
    destruct (split sep s) eqn:E; [now apply split_not_nil in E|reflexivity].
  - destruct (split sep s) as [|p ps] eqn:E; [now apply split_not_nil in E|].
    simpl in *. destruct ps; simpl in *; now rewrite <- IH.
Qed.

Lemma split_pieces sep s : Forall (fun p => ~ In sep p) (split sep s).
Proof.
  induction s as [|c s IH]; simpl.
  - constructor; [tauto|constructor].
  - destruct (N.eqb_spec c sep) as [->|Hc].
    + constructor; [tauto|exact IH].
    + destruct (split sep s) as [|p ps]; [repeat constructor; simpl; intuition|].
      inversion IH; subst. constructor; [|assumption].
      simpl. intuition.
Qed.

Lemma presents_token authHeader t :
  presents authHeader t -> bearer_token authHeader = VStr t.
Proof.
  intros (scheme & rest & -> & Hs & Ht & Hne & Hr).
  unfold bearer_token, js_and.
  replace (truthy (VStr (scheme ++ 32%N :: t ++ rest))) with true
    by (destruct scheme; reflexivity).
  rewrite split_prefix by assumption.
  destruct Hr as [->|[r ->]].
  - rewrite app_nil_r, split_whole by assumption. reflexivity.
  - rewrite split_prefix by assumption. reflexivity.
Qed.

Lemma token_presents authHeader v :
  bearer_token authHeader = v -> truthy v = true ->
  exists t, v = VStr t /\ presents authHeader t.
Proof.
  unfold bearer_token. destruct authHeader as [h|];
    [|intros <-; discriminate].
  unfold js_and. destruct (truthy (VStr h)) eqn:Th;
    [|intros <-; congruence].
  assert (J := join_split 32 h). assert (P := split_pieces 32 h).
  destruct (split 32 h) as [|p0 [|p1 ps]]; simpl;
    try (intros <-; discriminate).
  intros <- T. exists p1. split; [reflexivity|].
  apply Forall_cons_iff in P as [H0 P]. apply Forall_cons_iff in P as [H1 _].
  destruct p1 as [|c p1]; [discriminate|].
  destruct ps as [|p2 ps].
  - exists p0, []. rewrite app_nil_r. simpl in J. rewrite J.
    repeat split; auto; discriminate.
  - exists p0, (32%N :: join 32 (p2 :: ps)).
    change (join 32 (p0 :: (c :: p1) :: p2 :: ps))
      with (p0 ++ 32%N :: (c :: p1) ++ 32%N :: join 32 (p2 :: ps)) in J.
    rewrite J. repeat split; auto; try discriminate. right. now eexists.
Qed.

(** ** Decimal digits *)

Lemma digits_of_fuel f : forall g n,
  (n < 2 ^ N.of_nat (S f))%N -> (n < 2 ^ N.of_nat (S g))%N ->
  digits_of (S f) n = digits_of (S g) n.
Proof.
  induction f as [|f IH]; intros g n Hf Hg.
  - change (2 ^ N.of_nat 1)%N with 2%N in Hf.
    cbn [digits_of]. destruct (N.ltb_spec n 10); [reflexivity|lia].
  - cbn [digits_of]. destruct (N.ltb_spec n 10) as [|L]; [reflexivity|].
    destruct g as [|g].
    + change (2 ^ N.of_nat 1)%N with 2%N in Hg. lia.
    + f_equal. apply IH.
      * rewrite Nat2N.inj_succ, N.pow_succ_r' in Hf.
        apply N.Div0.div_lt_upper_bound. lia.
      * rewrite Nat2N.inj_succ, N.pow_succ_r' in Hg.
        apply N.Div0.div_lt_upper_bound. lia.
Qed.

Lemma log2_fuel n : (n < 2 ^ N.of_nat (S (N.to_nat (N.log2 n))))%N.
Proof.
  rewrite Nat2N.inj_succ, N2Nat.id.
  destruct n as [|p]; [reflexivity|].
  apply N.log2_spec. reflexivity.
Qed.

(** The digits of a number: one digit below ten, otherwise the digits
    of the tenth part followed by the last digit. *)
Lemma decimal_N_eqn n :
  decimal_N n
  = if (n <? 10)%N then [(48 + n)%N]
    else decimal_N (n / 10) ++ [(48 + n mod 10)%N].
Proof.
  unfold decimal_N at 1. cbn [digits_of].
  destruct (N.ltb_spec n 10) as [|L]; [reflexivity|].
  f_equal. unfold decimal_N.
  assert (H := log2_fuel n).
  destruct (N.to_nat (N.log2 n)) as [|f] eqn:E.
  - change (2 ^ N.of_nat 1)%N with 2%N in H. lia.
  - apply digits_of_fuel; [|apply log2_fuel].
    rewrite Nat2N.inj_succ, N.pow_succ_r' in H.
    apply N.Div0.div_lt_upper_bound. lia.
Qed.

Lemma digits_value_snoc l c :
  digits_value 10 (l ++ [c])
  = (digits_value 10 l * 10
     + match digit_value c with Some k => k | None => 0 end)%N.
Proof. unfold digits_value. now rewrite fold_left_app. Qed.

Lemma digit_value_decimal k :
  (k < 10)%N -> digit_value (48 + k) = Some k.
Proof.
  intros H. unfold digit_value.
  replace ((48 <=? 48 + k) && (48 + k <=? 57))%N with true.
  - f_equal. lia.
  - symmetry. apply andb_true_iff. split; apply N.leb_le; lia.
Qed.

Lemma decimal_N_value n : digits_value 10 (decimal_N n) = n.
Proof.
  induction n as [n IH] using (well_founded_induction N.lt_wf_0).
  rewrite decimal_N_eqn. destruct (N.ltb_spec n 10) as [L|L].
  - unfold digits_value. cbn [fold_left].
    rewrite digit_value_decimal by assumption. lia.
  - rewrite digits_value_snoc, IH, digit_value_decimal.
    + rewrite (N.div_mod n 10) at 3 by discriminate. lia.
    + apply N.mod_lt. discriminate.
    + apply N.div_lt; lia.
Qed.

Lemma decimal_N_all_digits n : forallb (is_digit 10) (decimal_N n) = true.
Proof.
  induction n as [n IH] using (well_founded_induction N.lt_wf_0).
  rewrite decimal_N_eqn. destruct (N.ltb_spec n 10) as [L|L].
  - cbn [forallb]. unfold is_digit. rewrite digit_value_decimal by assumption.
    rewrite andb_true_r. now apply N.ltb_lt.
  - rewrite forallb_app, IH by (apply N.div_lt; lia).
    cbn [forallb andb]. unfold is_digit.
    rewrite digit_value_decimal by (apply N.mod_lt; discriminate).
    rewrite andb_true_r. apply N.ltb_lt. apply N.mod_lt. discriminate.
Qed.

Lemma decimal_N_not_nil n : decimal_N n <> [].
Proof.
  rewrite decimal_N_eqn. destruct (n <? 10)%N; [discriminate|].
  intros H. now apply app_eq_nil in H as [_ H].
Qed.

Lemma decimal_N_digits n : all_digits (decimal_N n) = true.
Proof.
  unfold all_digits. assert (H := decimal_N_not_nil n).
  destruct (decimal_N n) eqn:E; [congruence|].
  rewrite <- E. apply decimal_N_all_digits.
Qed.

Lemma decimal_Z_N z : 0 <= z -> decimal_Z z = decimal_N (Z.to_N z).
Proof. intros H. destruct z; [reflexivity|reflexivity|lia]. Qed.

Lemma decimal_Z_digit z : 0 <= z < 10 -> decimal_Z z = [(48 + Z.to_N z)%N].
Proof.
  intros H. rewrite decimal_Z_N, decimal_N_eqn by lia.
  destruct (N.ltb_spec (Z.to_N z) 10); [reflexivity|lia].
Qed.

Lemma fixed_digits (n : Z) :
  0 <= n ->
  let m := decimal_Z n in
  let m := match m with [_] => 48%N :: m | _ => m end in
  let k := (List.length m - 1)%nat in
  firstn k m ++ 46%N :: skipn k m
  = decimal_Z (n / 10) ++ 46%N :: decimal_Z (n mod 10).
Proof.
  intros H. cbv zeta. rewrite (decimal_Z_N n H), decimal_N_eqn.
  destruct (N.ltb_spec (Z.to_N n) 10) as [L|L].
  - rewrite Z.div_small, Z.mod_small by lia.
    rewrite (decimal_Z_digit n) by lia. reflexivity.
  - assert (E1 : (Z.to_N n / 10)%N = Z.to_N (n / 10)).
    { rewrite Z2N.inj_div by lia. reflexivity. }
    assert (E2 : (Z.to_N n mod 10)%N = Z.to_N (n mod 10)).
    { rewrite Z2N.inj_mod by lia. reflexivity. }
    assert (M : 0 <= n mod 10 < 10) by (apply Z.mod_pos_bound; lia).
    rewrite (decimal_Z_digit (n mod 10) M), (decimal_Z_N (n / 10))
      by (apply Z.div_pos; lia).
    rewrite E1, E2.
    set (hd := decimal_N (Z.to_N (n / 10))).
    set (x := (48 + Z.to_N (n mod 10))%N).
    assert (Hn : hd <> []) by apply decimal_N_not_nil.
    destruct hd as [|a [|b hd']]; [congruence|reflexivity|].
    cbn [app]. cbv iota.
    change (a :: b :: hd' ++ [x]) with ((a :: b :: hd') ++ [x]).
    change (a :: b :: hd' ++ [46%N; x]) with ((a :: b :: hd') ++ [46%N; x]).
    generalize (a :: b :: hd'). intros l.
    rewrite length_app. cbn [List.length]. rewrite Nat.add_sub.
    rewrite firstn_app, firstn_all, skipn_app, skipn_all, Nat.sub_diag.
    cbn [firstn skipn app]. now rewrite app_nil_r.
Qed.

(** ** Patterns *)

Lemma plainb_plain q : plainb q = true <-> plain q.
Proof.
  unfold plainb, plain. rewrite forallb_forall, Forall_forall.
  split; intros H c I; specialize (H c I).
  - rewrite !andb_true_iff, !negb_true_iff, !N.eqb_neq in H. tauto.
  - rewrite !andb_true_iff, !negb_true_iff, !N.eqb_neq. tauto.
Qed.

Lemma any_suffix_iff f s :
  any_suffix f s = true <-> exists pre t, s = pre ++ t /\ f t = true.
Proof.
  induction s as [|c s IH]; simpl.
  - rewrite orb_false_r. split.
    + intros H. now exists [], [].
    + intros (pre & t & E & H). symmetry in E.
      apply app_eq_nil in E as [_ ->]. exact H.
  - rewrite orb_true_iff, IH. split.
    + intros [H|(pre & t & -> & H)].
      * now exists [], (c :: s).
      * now exists (c :: pre), t.
    + intros ([|x pre] & t & E & H); simpl in E.
      * left. now rewrite E.
      * right. injection E as -> ->. now exists pre, t.
Qed.

Lemma chr_eqb_iff a b : chr_eqb a b = true <-> fold_case a = fold_case b.
Proof. unfold chr_eqb. apply N.eqb_eq. Qed.

Lemma prefix_ci_iff q s :
  prefix_ci q s = true <->
  exists mid post, s = mid ++ post /\ map fold_case mid = map fold_case q.
Proof.
  revert s. induction q as [|c q IH]; intros s; simpl.
  - split; [|reflexivity]. intros _. now exists [], s.
  - destruct s as [|y s].
    + split; [discriminate|]. intros ([|x mid] & post & E & M); discriminate.
    + rewrite andb_true_iff, chr_eqb_iff, IH. split.
      * intros (C & mid & post & -> & M). exists (y :: mid), post.
        simpl. now rewrite M, C.
      * intros ([|x mid] & post & E & M); [discriminate|].
        simpl in E, M. injection E as -> ->. injection M as C M.
        split; [now symmetry|]. now exists mid, post.
Qed.

Lemma contains_cib_iff q s : contains_cib q s = true <-> contains_ci q s.
Proof.
  unfold contains_cib, contains_ci. rewrite any_suffix_iff. split.
  - intros (pre & t & -> & H). apply prefix_ci_iff in H as (mid & post & -> & M).
    now exists pre, mid, post.
  - intros (pre & mid & post & -> & M). exists pre, (mid ++ post).
    split; [reflexivity|]. apply prefix_ci_iff. now exists mid, post.
Qed.

Lemma like_percent_iff p s :
  like (37%N :: p) s = true <-> exists pre t, s = pre ++ t /\ like p t = true.
Proof. simpl. apply any_suffix_iff. Qed.

Lemma like_plain_char c p s :
  c <> 37%N -> c <> 95%N -> c <> 92%N ->
  like (c :: p) s
  = match s with
    | y :: s' => chr_eqb c y && like p s'
    | [] => false
    end.
Proof.
  intros H1 H2 H3. simpl.
  now rewrite (proj2 (N.eqb_neq _ _) H1), (proj2 (N.eqb_neq _ _) H2),
    (proj2 (N.eqb_neq _ _) H3).
Qed.

(** A plain text in a pattern matches itself, letter case aside, and
    nothing else. *)
Lemma like_plain_prefix q p : plain q -> forall s,
  like (q ++ p) s = true <->
  exists mid rest,
    s = mid ++ rest /\ map fold_case mid = map fold_case q
    /\ like p rest = true.
Proof.
  induction 1 as [|c q (H1 & H2 & H3) _ IH]; intros s.
  - simpl. split.
    + intros H. now exists [], s.
    + intros ([|x mid] & rest & -> & M & H); [exact H|discriminate].
  - change ((c :: q) ++ p) with (c :: q ++ p).
    rewrite like_plain_char by assumption.
    destruct s as [|y s].
    + split; [discriminate|].
      intros ([|x mid] & rest & E & M & _); discriminate.
    + rewrite andb_true_iff, chr_eqb_iff, IH. split.
      * intros (C & mid & rest & -> & M & H). exists (y :: mid), rest.
        simpl. now rewrite M, C.
      * intros ([|x mid] & rest & E & M & H); [discriminate|].
        simpl in E, M. injection E as -> ->. injection M as C M.
        split; [now symmetry|]. now exists mid, rest.
Qed.

Lemma like_percent_end s : like [37%N] s = true.
Proof. apply like_percent_iff. exists s, []. now rewrite app_nil_r. Qed.

(** [LIKE '%q%'] for a plain [q] is containment, letter case aside. *)
Lemma like_wrapped q s :
  plain q -> (like (37%N :: q ++ [37%N]) s = true <-> contains_ci q s).
Proof.
  intros P. rewrite like_percent_iff. unfold contains_ci. split.
  - intros (pre & t & -> & H).
    apply (like_plain_prefix q [37%N] P) in H as (mid & rest & -> & M & _).
    now exists pre, mid, rest.
  - intros (pre & mid & post & -> & M). exists pre, (mid ++ post).
    split; [reflexivity|]. apply (like_plain_prefix q [37%N] P).
    exists mid, post. repeat split; auto. apply like_percent_end.
Qed.

(** ** Rounding to double precision *)

Lemma pow2_pos z : (0 < Qpower 2 z)%Q.
Proof. now apply Qpower_0_lt. Qed.

Lemma pow2_plus x y : (Qpower 2 (x + y) == Qpower 2 x * Qpower 2 y)%Q.
Proof. now apply Qpower_plus. Qed.

Lemma pow2_opp x : (Qpower 2 (- x) == / Qpower 2 x)%Q.
Proof. apply Qpower_opp. Qed.

Lemma pow2_Z x : 0 <= x -> (Qpower 2 x == inject_Z (2 ^ x))%Q.
Proof. intros H. symmetry. now apply Zpower_Qpower. Qed.

(** A power of two with the exponent written as a difference. *)
Lemma pow2_minus x y :
  0 <= x -> 0 <= y ->
  (Qpower 2 (x - y) == 2 ^ x # Z.to_pos (2 ^ y))%Q.
Proof.
  intros Hx Hy. unfold Z.sub. rewrite pow2_plus, pow2_opp, !pow2_Z by assumption.
  assert (P : 0 < 2 ^ y) by (apply Z.pow_pos_nonneg; lia).
  rewrite (Qmake_Qdiv (2 ^ x)). unfold Qdiv.
  now rewrite Z2Pos.id.
Qed.

Lemma floor_log2_spec a :
  (0 < a)%Q ->
  (Qpower 2 (floor_log2 a) <= a)%Q /\ (a < Qpower 2 (floor_log2 a + 1))%Q.
Proof.
  destruct a as [n d]. intros H.
  assert (Hn : 0 < n) by (unfold Qlt in H; simpl in H; lia).
  unfold floor_log2. cbn [Qnum Qden].
  set (ln := Z.log2 n). set (ld := Z.log2 (Z.pos d)).
  assert (Ln := Z.log2_spec n Hn). fold ln in Ln.
  assert (Ld := Z.log2_spec (Z.pos d) eq_refl). fold ld in Ld.
  assert (Nn : 0 <= ln) by apply Z.log2_nonneg.
  assert (Nd : 0 <= ld) by apply Z.log2_nonneg.
  assert (Pn : 0 < 2 ^ ln) by (apply Z.pow_pos_nonneg; lia).
  assert (Pd : 0 < 2 ^ ld) by (apply Z.pow_pos_nonneg; lia).
  assert (A : (n # d < Qpower 2 (ln - ld + 1))%Q).
  { replace (ln - ld + 1) with (Z.succ ln - ld) by lia.
    rewrite pow2_minus by lia. unfold Qlt. cbn [Qnum Qden].
    rewrite Z2Pos.id by assumption.
    destruct Ln as [_ Ln], Ld as [Ld _].
    apply Z.le_lt_trans with (n * Z.pos d).
    - apply Z.mul_le_mono_nonneg_l; lia.
    - apply Z.mul_lt_mono_pos_r; lia. }
  assert (B : (Qpower 2 (ln - ld - 1) < n # d)%Q).
  { replace (ln - ld - 1) with (ln - Z.succ ld) by lia.
    rewrite pow2_minus by lia. unfold Qlt. cbn [Qnum Qden].
    rewrite Z2Pos.id by (apply Z.pow_pos_nonneg; lia).
    destruct Ln as [Ln _], Ld as [_ Ld].
    apply Z.le_lt_trans with (n * Z.pos d).
    - apply Z.mul_le_mono_nonneg_r; lia.
    - apply Z.mul_lt_mono_pos_l; lia. }
  destruct (Qle_bool (Qpower 2 (ln - ld)) (n # d)) eqn:E.
  - apply Qle_bool_iff in E. split; assumption.
  - split; [now apply Qlt_le_weak|].
    replace (ln - ld - 1 + 1) with (ln - ld) by lia.
    apply Qnot_le_lt. intros L. apply Qle_bool_iff in L. congruence.
Qed.

Lemma round_half_even_near r :
  (Qabs (inject_Z (round_half_even r) - r) <= 1 # 2)%Q.
Proof.
  unfold round_half_even.
  assert (L := Qfloor_le r). assert (U := Qlt_floor r).
  set (f := Qfloor r) in *. rewrite inject_Z_plus in U.
  apply Qabs_Qle_condition.
  assert (C := Qcompare_spec (r - inject_Z f) (1 # 2)).
  assert (K : forall z : Z,
             (z = f /\ (r - inject_Z f <= 1 # 2)%Q)
             \/ (z = f + 1 /\ (1 # 2 <= r - inject_Z f)%Q) ->
             (- (1 # 2) <= inject_Z z - r <= 1 # 2)%Q).
  { intros z [[-> H]|[-> H]].
    - split.
      + apply Qle_minus_iff. apply Qle_minus_iff in H.
        now setoid_replace (inject_Z f - r + - - (1 # 2))%Q
          with ((1 # 2) + - (r - inject_Z f))%Q by ring.
      + apply Qle_minus_iff. apply Qle_minus_iff in L.
        setoid_replace ((1 # 2) + - (inject_Z f - r))%Q
          with ((r + - inject_Z f) + (1 # 2))%Q by ring.
        apply (Qplus_le_compat 0 _ 0); [assumption|discriminate].
    - rewrite inject_Z_plus. split.
      + apply Qle_minus_iff. apply Qlt_le_weak in U.
        apply Qle_minus_iff in U.
        setoid_replace (inject_Z f + inject_Z 1 - r + - - (1 # 2))%Q
          with ((inject_Z f + inject_Z 1 + - r) + (1 # 2))%Q by ring.
        apply (Qplus_le_compat 0 _ 0); [assumption|discriminate].
      + apply Qle_minus_iff. apply Qle_minus_iff in H.
        now setoid_replace ((1 # 2) + - (inject_Z f + inject_Z 1 - r))%Q
          with (r - inject_Z f + - (1 # 2))%Q by ring. }
  apply K. destruct C as [E|E|E].
  - destruct (Z.even f); [left|right]; split; auto; rewrite E; apply Qle_refl.
  - left. split; [reflexivity|]. now apply Qlt_le_weak.
  - right. split; [reflexivity|]. now apply Qlt_le_weak.
Qed.

Lemma pow2_lt_inv x y : (Qpower 2 x < Qpower 2 y)%Q -> x < y.
Proof. intros H. now apply (Qpower_lt_compat_l_inv 2). Qed.

Lemma pow2_le x y : x <= y -> (Qpower 2 x <= Qpower 2 y)%Q.
Proof. intros H. now apply Qpower_le_compat_l. Qed.

Lemma pow2_half x : ((1 # 2) * Qpower 2 x == Qpower 2 (x - 1))%Q.
Proof.
  unfold Z.sub. rewrite pow2_plus. change (Qpower 2 (-1)) with (1 # 2).
  apply Qmult_comm.
Qed.

(** In the range of normal doubles the rounded value is finite and
    within half a unit in the last place. *)
Lemma round_double_abs_near a :
  (Qpower 2 (-1022) <= a)%Q -> (a < Qpower 2 1023)%Q ->
  exists d,
    round_double_abs a = Fin d
    /\ (Qabs (d - a) <= a * Qpower 2 (-53))%Q.
Proof.
  intros Lo Hi.
  assert (Pa : (0 < a)%Q) by (eapply Qlt_le_trans; [apply (pow2_pos (-1022))|exact Lo]).
  destruct (floor_log2_spec a Pa) as [E1 E2].
  set (e := floor_log2 a) in *.
  assert (He : -1022 <= e < 1023).
  { split.
    - assert (H : -1022 < e + 1)
        by (apply pow2_lt_inv; eapply Qle_lt_trans; eassumption).
      lia.
    - apply pow2_lt_inv. eapply Qle_lt_trans; eassumption. }
  unfold round_double_abs.
  replace (Qle_bool a 0) with false
    by (symmetry; destruct (Qle_bool a 0) eqn:Z; [|reflexivity];
        apply Qle_bool_iff in Z; exfalso; apply (Qlt_not_le _ _ Pa Z)).
  fold e. rewrite Z.max_l by lia.
  set (p := e - 52).
  set (r := (a * Qpower 2 (- p))%Q).
  set (m := round_half_even r).
  set (d := (inject_Z m * Qpower 2 p)%Q).
  assert (R : (r * Qpower 2 p == a)%Q).
  { unfold r. rewrite <- Qmult_assoc, <- pow2_plus.
    replace (- p + p) with 0 by lia. change (Qpower 2 0) with 1%Q. ring. }
  assert (D : (Qabs (d - a) <= Qpower 2 (e - 53))%Q).
  { setoid_replace (d - a)%Q with ((inject_Z m - r) * Qpower 2 p)%Q
      by (unfold d; rewrite <- R at 1; ring).
    rewrite Qabs_Qmult, (Qabs_pos (Qpower 2 p))
      by (apply Qlt_le_weak, pow2_pos).
    replace (e - 53) with (p - 1) by (unfold p; lia).
    rewrite <- pow2_half. apply Qmult_le_compat_r.
    - apply round_half_even_near.
    - apply Qlt_le_weak, pow2_pos. }
  assert (F : Qle_bool (Qpower 2 1024) d = false).
  { destruct (Qle_bool (Qpower 2 1024) d) eqn:Z; [|reflexivity].
    apply Qle_bool_iff in Z. exfalso.
    apply Qabs_Qle_condition in D as [_ D].
    assert (U : (d <= a + Qpower 2 (e - 53))%Q).
    { apply Qle_minus_iff in D. apply Qle_minus_iff.
      now setoid_replace (a + Qpower 2 (e - 53) + - d)%Q
        with (Qpower 2 (e - 53) + - (d - a))%Q by ring. }
    assert (V : (a + Qpower 2 (e - 53) < Qpower 2 1024)%Q).
    { replace 1024 with (1023 + 1) by lia. rewrite pow2_plus.
      change (Qpower 2 1) with 2%Q.
      setoid_replace (Qpower 2 1023 * 2)%Q
        with (Qpower 2 1023 + Qpower 2 1023)%Q by ring.
      apply Qplus_lt_le_compat; [assumption|]. apply pow2_le. lia. }
    apply (Qlt_not_le _ _ V). eapply Qle_trans; eassumption. }
  fold p. fold r. fold m. fold d. rewrite F.
  exists (Qred d). split; [reflexivity|]. rewrite Qred_correct.
  eapply Qle_trans; [exact D|].
  replace (e - 53) with (e + - 53) by lia. rewrite pow2_plus.
  apply Qmult_le_compat_r; [assumption|]. apply Qlt_le_weak, pow2_pos.
Qed.

Lemma round_double_near q :
  (Qpower 2 (-1022) <= Qabs q)%Q -> (Qabs q < Qpower 2 1023)%Q ->
  exists d,
    round_double q = Fin d
    /\ (Qabs (d - q) <= Qabs q * Qpower 2 (-53))%Q.
Proof.
  intros Lo Hi. unfold round_double.
  destruct (Qle_bool 0 q) eqn:S.
  - apply Qle_bool_iff in S. assert (A := Qabs_pos q S).
    rewrite A in Lo, Hi.
    destruct (round_double_abs_near q Lo Hi) as (d & E & B).
    exists d. split; [exact E|]. now rewrite A.
  - assert (N : (q <= 0)%Q).
    { apply Qlt_le_weak, Qnot_le_lt. intros L.
      apply Qle_bool_iff in L. congruence. }
    assert (A := Qabs_neg q N). rewrite A in Lo, Hi.
    destruct (round_double_abs_near (- q) Lo Hi) as (d & E & B).
    rewrite E. exists (- d)%Q. split; [reflexivity|].
    setoid_replace (- d - q)%Q with (- (d - - q))%Q by ring.
    now rewrite Qabs_opp, A.
Qed.

(** ** Tenths and means *)

(** The integer chosen by [toFixed1] is a nearest one. *)
Lemma nearest_tenth (x : Q) :
  (Qabs (inject_Z (Qfloor (x * 10 + (1 # 2))) / 10 - x) <= 1 # 20)%Q.
Proof.
  set (n := Qfloor (x * 10 + (1 # 2))).
  assert (L := Qfloor_le (x * 10 + (1 # 2))).
  assert (U := Qlt_floor (x * 10 + (1 # 2))). fold n in L, U.
  rewrite inject_Z_plus in U.
  apply Qabs_Qle_condition. split.
  - apply Qle_minus_iff. apply Qlt_le_weak in U.
    apply Qle_minus_iff in U.
    setoid_replace (inject_Z n / 10 - x + - - (1 # 20))%Q
      with ((inject_Z n + inject_Z 1 + - (x * 10 + (1 # 2))) * (1 # 10))%Q
      by (unfold Qdiv; ring_simplify; field).
    apply Qmult_le_0_compat; [assumption|discriminate].
  - apply Qle_minus_iff. apply Qle_minus_iff in L.
    setoid_replace ((1 # 20) + - (inject_Z n / 10 - x))%Q
      with ((x * 10 + (1 # 2) + - inject_Z n) * (1 # 10))%Q
      by (unfold Qdiv; field).
    apply Qmult_le_0_compat; [assumption|discriminate].
Qed.

Lemma sum_bounds lo hi qs :
  Forall (fun q => lo <= q <= hi)%Q qs ->
  forall a,
    (a + inject_Z (Z.of_nat (List.length qs)) * lo <= fold_left Qplus qs a
     /\ fold_left Qplus qs a <= a + inject_Z (Z.of_nat (List.length qs)) * hi)%Q.
Proof.
  induction 1 as [|q qs [L H] _ IH]; intros a.
  - simpl. split; ring_simplify; apply Qle_refl.
  - cbn [fold_left List.length]. destruct (IH (a + q)%Q) as [I1 I2].
    rewrite Nat2Z.inj_succ, <- Z.add_1_r, inject_Z_plus. split.
    + eapply Qle_trans; [|exact I1].
      apply Qle_minus_iff. apply Qle_minus_iff in L.
      now setoid_replace
        (a + q + inject_Z (Z.of_nat (List.length qs)) * lo
         + - (a + (inject_Z (Z.of_nat (List.length qs)) + inject_Z 1) * lo))%Q
        with (q + - lo)%Q by ring.
    + eapply Qle_trans; [exact I2|].
      apply Qle_minus_iff. apply Qle_minus_iff in H.
      now setoid_replace
        (a + (inject_Z (Z.of_nat (List.length qs)) + inject_Z 1) * hi
         + - (a + q + inject_Z (Z.of_nat (List.length qs)) * hi))%Q
        with (hi + - q)%Q by ring.
Qed.

Lemma mean_bounds lo hi qs :
  qs <> [] -> Forall (fun q => lo <= q <= hi)%Q qs ->
  (lo <= mean qs <= hi)%Q.
Proof.
  intros N F. destruct (sum_bounds lo hi qs F 0) as [L H].
  rewrite Qplus_0_l in L, H. unfold mean.
  assert (P : (0 < inject_Z (Z.of_nat (List.length qs)))%Q).
  { change 0%Q with (inject_Z 0). rewrite <- Zlt_Qlt.
    destruct qs; [congruence|]. simpl. lia. }
  split.
  - apply Qle_shift_div_l; [assumption|]. now rewrite Qmult_comm.
  - apply Qle_shift_div_r; [assumption|]. now rewrite Qmult_comm.
Qed.

(** ** Ordering by date *)

Lemma insert_desc_perm r l : Permutation (insert_desc r l) (r :: l).
Proof.
  induction l as [|x l IH]; simpl; [reflexivity|].
  destruct (row_submission_date x <=? row_submission_date r);
    [reflexivity|].
  rewrite IH. apply perm_swap.
Qed.

Lemma sort_desc_perm l : Permutation (sort_desc l) l.
Proof.
  induction l as [|x l IH]; simpl; [reflexivity|].
  rewrite insert_desc_perm. now constructor.
Qed.

Lemma insert_desc_sorted r l :
  newest_first l -> newest_first (insert_desc r l).
Proof.
  unfold newest_first. intros H. induction H as [|x l Hl IH Hx]; simpl.
  - repeat constructor.
  - destruct (Z.leb_spec (row_submission_date x) (row_submission_date r)).
    + constructor; [now constructor|].
      constructor; [assumption|].
      eapply Forall_impl; [|exact Hx]. simpl. lia.
    + constructor; [assumption|].
      rewrite (insert_desc_perm r l). constructor; [lia|assumption].
Qed.

Lemma sort_desc_sorted l : newest_first (sort_desc l).
Proof.
  induction l as [|x l IH]; simpl; [constructor|].
  now apply insert_desc_sorted.
Qed.

Lemma newest_first_skipn n l : newest_first l -> newest_first (skipn n l).
Proof.
  unfold newest_first. revert l.
  induction n as [|n IH]; intros l H; [assumption|].
  destruct l as [|x l]; [constructor|]. simpl. apply IH. now inversion H.
Qed.

Lemma newest_first_firstn n l : newest_first l -> newest_first (firstn n l).
Proof.
  unfold newest_first. revert l.
  induction n as [|n IH]; intros l H; [constructor|].
  destruct l as [|x l]; [constructor|]. simpl.
  inversion H as [|? ? Hl Hx]; subst. constructor; [now apply IH|].
  rewrite Forall_forall in *. intros y I. apply Hx.
  now apply In_firstn in I.
Qed.

(** ** Conditions and statements *)

Lemma holds_some b : holds (Some b) = b.
Proof. now destruct b. Qed.

Lemma holds_or a b : holds (tri_or a b) = holds a || holds b.
Proof. destruct a as [[]|], b as [[]|]; reflexivity. Qed.

Lemma holds_and a b : holds (tri_and a b) = holds a && holds b.
Proof. destruct a as [[]|], b as [[]|]; reflexivity. Qed.

Lemma store_eta st : {| rows := rows st; next_id := next_id st |} = st.
Proof. now destruct st. Qed.

Section Statements.
Context {platform : Platform}.

Lemma bind_defined v : v <> VUndefined -> bind v = Some (bound v).
Proof. unfold bound. destruct v; simpl; congruence. Qed.

Lemma truthy_defined v : truthy v = true -> v <> VUndefined.
Proof. intros H ->. discriminate. Qed.

Lemma bind_truthy v : truthy v = true -> bind v = Some (bound v).
Proof. unfold bound. destruct v; simpl; congruence. Qed.

Lemma bind_or_null v :
  bind (js_or v VNull) = Some (if truthy v then bound v else SNull).
Proof.
  unfold js_or. destruct (truthy v) eqn:E; [|reflexivity].
  now apply bind_truthy.
Qed.

Lemma bind_all_defined vs :
  Forall (fun v => v <> VUndefined) vs -> bind_all vs = Some (map bound vs).
Proof.
  induction 1 as [|v vs Hv _ IH]; simpl; [reflexivity|].
  now rewrite (bind_defined _ Hv), IH.
Qed.

Lemma returned_bound v : scalar v -> returned (bound v) = v.
Proof. destruct v; simpl; tauto. Qed.

(** A condition reads exactly its own parameters and hands on the
    rest. *)
Lemma eval_cond_app now w r : forall ps rest,
  List.length ps = cond_params w ->
  eval_cond now w (ps ++ rest) r = (fst (eval_cond now w ps r), rest).
Proof.
  induction w as [| c | c | c secs | a IHa b IHb | a IHa b IHb];
    intros ps rest L; simpl in L.
  - destruct ps; [reflexivity|discriminate].
  - destruct ps as [|p [|]]; try discriminate. reflexivity.
  - destruct ps as [|p [|]]; try discriminate. reflexivity.
  - destruct ps; [reflexivity|discriminate].
  - rewrite <- (firstn_skipn (cond_params a) ps).
    set (p1 := firstn (cond_params a) ps).
    set (p2 := skipn (cond_params a) ps).
    assert (L1 : List.length p1 = cond_params a)
      by (unfold p1; rewrite length_firstn; lia).
    assert (L2 : List.length p2 = cond_params b)
      by (unfold p2; rewrite length_skipn; lia).
    simpl. rewrite <- app_assoc, (IHa p1 (p2 ++ rest) L1), (IHa p1 p2 L1).
    rewrite (IHb p2 rest L2).
    rewrite <- (app_nil_r p2) at 2. rewrite (IHb p2 [] L2). reflexivity.
  - rewrite <- (firstn_skipn (cond_params a) ps).
    set (p1 := firstn (cond_params a) ps).
    set (p2 := skipn (cond_params a) ps).
    assert (L1 : List.length p1 = cond_params a)
      by (unfold p1; rewrite length_firstn; lia).
    assert (L2 : List.length p2 = cond_params b)
      by (unfold p2; rewrite length_skipn; lia).
    simpl. rewrite <- app_assoc, (IHa p1 (p2 ++ rest) L1), (IHa p1 p2 L1).
    rewrite (IHb p2 rest L2).
    rewrite <- (app_nil_r p2) at 2. rewrite (IHb p2 [] L2). reflexivity.
Qed.

(** [... AND c = ?] with one more parameter: the row must satisfy what
    came before, and its cell must equal the new parameter. *)
Lemma selected_and_eq now w c ps p r :
  List.length ps = cond_params w ->
  selected now (CAnd w (CEq c)) (ps ++ [p]) r
  = selected now w ps r && holds (sql_eq (cell c r) p).
Proof.
  intros L. unfold selected. simpl.
  rewrite (eval_cond_app now w r ps [p] L). simpl. apply holds_and.
Qed.

Lemma and_eq_well_built c v query :
  well_built query -> v <> VUndefined -> well_built (and_eq c v query).
Proof.
  intros [L D] Hv. split; simpl.
  - rewrite length_app, L. simpl. reflexivity.
  - apply Forall_app. split; [assumption|]. now constructor.
Qed.

Lemma selected_and_eq_query now c v query r :
  well_built query ->
  selected now (fst (and_eq c v query)) (map bound (snd (and_eq c v query))) r
  = selected now (fst query) (map bound (snd query)) r
    && holds (sql_eq (cell c r) (bound v)).
Proof.
  intros [L _]. simpl. rewrite map_app. simpl.
  apply selected_and_eq. now rewrite length_map.
Qed.

(** SELECT ... ORDER BY submission_date DESC LIMIT k. *)
Lemma execute_select_limit query k now st :
  well_built query ->
  execute (SELECT (fst query) true (LimitConst k)) (snd query) now st
  = Some (Rows (firstn k
                  (sort_desc
                     (filter (selected now (fst query)
                                (map bound (snd query))) (rows st)))),
          st).
Proof.
  intros [L D]. unfold execute. rewrite (bind_all_defined _ D).
  cbn [placeholders]. rewrite length_map, L, Nat.add_0_r, Nat.eqb_refl.
  cbn [negb]. rewrite <- L, <- (length_map bound), firstn_all. reflexivity.
Qed.

(** SELECT ... ORDER BY submission_date DESC LIMIT ? OFFSET ?. *)
Lemma execute_select_page query lim off k o now st :
  well_built query ->
  as_count (SNum lim) = Some k -> as_count (SNum off) = Some o ->
  execute (SELECT (fst query) true LimitOffset)
    (snd query ++ [VNum lim; VNum off]) now st
  = Some (Rows (firstn k
                  (skipn o
                     (sort_desc
                        (filter (selected now (fst query)
                                   (map bound (snd query))) (rows st))))),
          st).
Proof.
  intros [L D] Hk Ho. unfold execute.
  rewrite bind_all_defined
    by (apply Forall_app; split; [assumption|repeat constructor; discriminate]).
  cbn [placeholders]. rewrite length_map, length_app, L. cbn [List.length].
  rewrite Nat.eqb_refl. cbn [negb]. rewrite map_app.
  rewrite <- L, <- (length_map bound).
  rewrite firstn_app, firstn_all, Nat.sub_diag, app_nil_r.
  rewrite skipn_app, skipn_all, Nat.sub_diag. cbn [map skipn app bound bind].
  now rewrite Hk, Ho.
Qed.

(** SELECT COUNT( * ) ... *)
Lemma execute_select_count query now st :
  well_built query ->
  execute (SELECT_COUNT (fst query)) (snd query) now st
  = Some (Scalar
            (VNum (num_of_Z
                     (Z.of_nat
                        (List.length
                           (filter (selected now (fst query)
                                      (map bound (snd query))) (rows st)))))),
          st).
Proof.
  intros [L D]. unfold execute. rewrite (bind_all_defined _ D).
  cbn [placeholders]. now rewrite length_map, L, Nat.eqb_refl.
Qed.

Lemma nothing_well_built : well_built (CTrue, []).
Proof. split; [reflexivity|constructor]. Qed.

Lemma filtered_well_built type rating query :
  well_built query -> well_built (filtered type rating query).
Proof.
  intros W. unfold filtered.
  destruct (truthy type) eqn:T, (truthy rating) eqn:R;
    repeat apply and_eq_well_built; auto using truthy_defined; discriminate.
Qed.

Lemma selected_filtered now type rating query r :
  well_built query ->
  selected now (fst (filtered type rating query))
    (map bound (snd (filtered type rating query))) r
  = selected now (fst query) (map bound (snd query)) r
    && type_filter type r && rating_filter rating r.
Proof.
  intros W. unfold filtered, type_filter, rating_filter.
  destruct (truthy type) eqn:T, (truthy rating) eqn:R;
    rewrite ?selected_and_eq_query
      by (repeat apply and_eq_well_built; auto using truthy_defined);
    rewrite ?andb_true_r; reflexivity.
Qed.

(** The INSERT of the handler, once its four required members are
    truthy. *)
Lemma execute_insert_feedback b now st :
  truthy (b_name b) = true -> truthy (b_email b) = true ->
  truthy (b_feedback_type b) = true -> truthy (b_overall_rating b) = true ->
  execute insert_feedback
    [b_name b; b_email b; b_feedback_type b; js_or (b_subject_course b) VNull;
     b_overall_rating b; js_or (b_detailed_feedback b) VNull] now st
  = Some (Done (next_id st) 1,
          {| rows := rows st ++ [new_row b (next_id st) now];
             next_id := next_id st + 1 |}).
Proof.
  intros Hn He Ht Hr. unfold execute. cbn [bind_all].
  rewrite (bind_truthy _ Hn), (bind_truthy _ He), (bind_truthy _ Ht),
    (bind_truthy _ Hr), !bind_or_null.
  reflexivity.
Qed.

Lemma execute_delete_by_id id now st :
  execute (DELETE (CEq c_id)) [VStr id] now st
  = Some (Done 0 (List.length (filter (id_matches id) (rows st))),
          {| rows := filter (fun r => negb (id_matches id r)) (rows st);
             next_id := next_id st |}).
Proof. reflexivity. Qed.

(** [WHERE id = ?] with the decimal text of an id finds that id. *)
Lemma id_matches_decimal i r :
  0 <= i -> id_matches (decimal_Z i) r = (row_id r =? i).
Proof.
  intros H. unfold id_matches, sql_eq, as_num.
  assert (E : decimal_Z i = decimal_N (Z.to_N i)) by now destruct i.
  rewrite E, decimal_N_digits, decimal_N_value, Z2N.id by assumption.
  now rewrite holds_some, num_eqb_Z.
Qed.

Lemma filter_fresh_id i rs r :
  0 <= i -> Forall (fun x => 0 < row_id x < i) rs -> row_id r = i ->
  filter (id_matches (decimal_Z i)) (rs ++ [r]) = [r].
Proof.
  intros Hi F E. rewrite filter_app. simpl.
  rewrite (id_matches_decimal i r Hi), E, Z.eqb_refl.
  rewrite (proj2 (filter_nil_iff _ rs)); [reflexivity|].
  intros x I. rewrite Forall_forall in F. specialize (F x I).
  rewrite (id_matches_decimal i x Hi). apply Z.eqb_neq. lia.
Qed.

Lemma cell_like_wrapped q v :
  plain q -> (cell_like (37%N :: q ++ [37%N]) v = true <-> cell_contains q v).
Proof.
  intros P. unfold cell_like, cell_contains, sql_like.
  cbn [as_text]. destruct (as_text v) as [t|].
  - rewrite holds_some, (like_wrapped q t P). split.
    + intros C. now exists t.
    + intros (t' & E & C). now injection E as <-.
  - split; [discriminate|]. intros (t & E & _). discriminate.
Qed.

Lemma cell_containsb_iff q v :
  cell_containsb q v = true <-> cell_contains q v.
Proof.
  unfold cell_containsb, cell_contains. destruct (as_text v) as [t|].
  - rewrite contains_cib_iff. split.
    + intros C. now exists t.
    + intros (t' & E & C). now injection E as <-.
  - split; [discriminate|]. intros (t & E & _). discriminate.
Qed.

Lemma search_where_selected now t r :
  selected now search_where (map bound [VStr t; VStr t; VStr t]) r
  = cell_like t (row_detailed_feedback r)
    || cell_like t (row_subject_course r)
    || cell_like t (row_name r).
Proof.
  unfold selected, cell_like. simpl. now rewrite !holds_or.
Qed.

Lemma search_where_well_built t :
  well_built (search_where, [VStr t; VStr t; VStr t]).
Proof. split; [reflexivity|repeat constructor; discriminate]. Qed.

Lemma search_selects_matches t type rating r :
  plain t -> search_selects t type rating r = search_matches t type rating r.
Proof.
  intros P. unfold search_selects, search_matches.
  assert (E : forall v,
             cell_like (37%N :: t ++ [37%N]) v = cell_containsb t v).
  { intros v. apply eq_true_iff_eq.
    now rewrite cell_like_wrapped, cell_containsb_iff. }
  now rewrite !E.
Qed.

Lemma somes_finite qs :
  somes (map (fun q => Some (Fin q)) qs) = map Fin qs.
Proof. induction qs as [|q qs IH]; simpl; congruence. Qed.

Lemma sum_finite qs : forall a,
  fold_left num_add (map Fin qs) (Fin a) = Fin (fold_left Qplus qs a).
Proof. induction qs as [|q qs IH]; intros a; simpl; [reflexivity|apply IH]. Qed.

Lemma toFixed1_tenths q :
  (Qabs q < inject_Z (10 ^ 21))%Q ->
  toFixed1 (Fin q)
  = tenths (negb (Qle_bool 0 q)) (Qfloor (Qabs q * 10 + (1 # 2))).
Proof.
  intros H. unfold toFixed1, tenths.
  rewrite (proj2 (Qle_bool_false _ _) H).
  assert (N : 0 <= Qfloor (Qabs q * 10 + (1 # 2))).
  { change 0 with (Qfloor 0). apply Qfloor_resp_le.
    assert (A := Qabs_nonneg q).
    apply Qle_trans with (Qabs q * 10 + 0)%Q; [|apply Qplus_le_r; discriminate].
    rewrite Qplus_0_r. apply Qmult_le_0_compat; [assumption|discriminate]. }
  rewrite <- (fixed_digits _ N). cbv zeta.
  now destruct (Qle_bool 0 q).
Qed.

End Statements.

(** ** Integers as doubles *)

Lemma Qred_Z z : Qred (inject_Z z) = inject_Z z.
Proof.
  unfold Qred, inject_Z.
  pose proof (Z.ggcd_gcd z 1) as G.
  pose proof (Z.ggcd_correct_divisors z 1) as D.
  destruct (Z.ggcd z 1) as [g [aa bb]]. simpl in *.
  rewrite Z.gcd_1_r in G. subst g. destruct D as [-> D].
  rewrite Z.mul_1_l. f_equal. lia.
Qed.

Lemma round_half_even_Z r k : (r == inject_Z k)%Q -> round_half_even r = k.
Proof.
  intros E. unfold round_half_even.
  assert (F : Qfloor r = k) by (rewrite (Qfloor_comp _ _ E); apply Qfloor_Z).
  rewrite F.
  assert (C : (r - inject_Z k ?= 1 # 2)%Q = Lt).
  { apply Qlt_alt. rewrite E.
    setoid_replace (inject_Z k - inject_Z k)%Q with 0%Q by ring.
    reflexivity. }
  now rewrite C.
Qed.

Lemma round_double_abs_Z z :
  0 < z < 2 ^ 53 -> round_double_abs (inject_Z z) = Fin (inject_Z z).
Proof.
  intros [P B]. unfold round_double_abs.
  assert (A : (0 < inject_Z z)%Q) by (unfold Qlt; simpl; lia).
  replace (Qle_bool (inject_Z z) 0) with false
    by (symmetry; now apply Qle_bool_false).
  destruct (floor_log2_spec _ A) as [Lo Hi].
  set (e := floor_log2 (inject_Z z)) in *.
  assert (E0 : 0 <= e).
  { assert (Qpower 2 0 < Qpower 2 (e + 1))%Q.
    { eapply Qle_lt_trans; [|exact Hi]. unfold Qle; simpl; lia. }
    apply pow2_lt_inv in H. lia. }
  assert (E1 : e <= 52).
  { assert (Qpower 2 e < Qpower 2 53)%Q.
    { eapply Qle_lt_trans; [exact Lo|]. rewrite pow2_Z by lia.
      unfold Qlt; simpl. lia. }
    apply pow2_lt_inv in H. lia. }
  rewrite Z.max_l by lia.
  assert (M : (inject_Z z * Qpower 2 (- (e - 52))
               == inject_Z (z * 2 ^ (52 - e)))%Q).
  { replace (- (e - 52)) with (52 - e) by lia. rewrite pow2_Z by lia.
    now rewrite inject_Z_mult. }
  rewrite (round_half_even_Z _ _ M).
  assert (D : (inject_Z (z * 2 ^ (52 - e)) * Qpower 2 (e - 52)
               == inject_Z z)%Q).
  { rewrite inject_Z_mult, <- pow2_Z by lia.
    rewrite <- Qmult_assoc, <- pow2_plus.
    replace (52 - e + (e - 52)) with 0 by lia. simpl. ring. }
  replace (Qle_bool (Qpower 2 1024) _) with false.
  - f_equal. rewrite (Qred_complete _ _ D). apply Qred_Z.
  - symmetry. apply Qle_bool_false. rewrite D.
    apply Qlt_le_trans with (Qpower 2 53).
    + rewrite pow2_Z by lia. unfold Qlt; simpl. lia.
    + apply pow2_le. lia.
Qed.

(** An integer of magnitude below [2^53] is a double. *)
Lemma round_double_Z z :
  - 2 ^ 53 < z < 2 ^ 53 -> round_double (inject_Z z) = num_of_Z z.
Proof.
  intros B. unfold round_double, num_of_Z.
  destruct (Z.compare_spec z 0) as [->|N|P].
  - reflexivity.
  - replace (Qle_bool 0 (inject_Z z)) with false.
    + change (- inject_Z z)%Q with (inject_Z (- z)).
      rewrite round_double_abs_Z by lia. unfold num_opp, Qopp, inject_Z.
      cbn [Qnum Qden]. now rewrite Z.opp_involutive.
    + symmetry. apply Qle_bool_false. unfold Qlt; simpl; lia.
  - replace (Qle_bool 0 (inject_Z z)) with true.
    + apply round_double_abs_Z. lia.
    + symmetry. apply Qle_bool_iff. unfold Qle; simpl; lia.
Qed.

Lemma as_count_Z z : 0 <= z -> as_count (SNum (num_of_Z z)) = Some (Z.to_nat z).
Proof.
  intros P. unfold as_count, num_of_Z. rewrite Qred_Z. simpl.
  now apply Z.leb_le in P as ->.
Qed.

(** ** [parseInt] on decimal numerals *)

Lemma is_digit_10 c : is_digit 10 c = true <-> (48 <= c <= 57)%N.
Proof.
  unfold is_digit, digit_value.
  repeat match goal with
         | |- context [N.leb ?a ?b] => destruct (N.leb_spec a b)
         end; cbn [andb];
    try match goal with
        | |- context [N.ltb ?a ?b] => destruct (N.ltb_spec a b)
        end;
    split; intros; try discriminate; try lia; reflexivity.
Qed.

Lemma take_while_all {A} (p : A -> bool) l :
  forallb p l = true -> take_while p l = l.
Proof.
  induction l as [|x l IH]; [reflexivity|]. simpl. intros H.
  apply andb_true_iff in H as [-> H]. now rewrite IH.
Qed.

Lemma digit_cases c :
  is_digit 10 c = true ->
  (c = 48 \/ c = 49 \/ c = 50 \/ c = 51 \/ c = 52 \/ c = 53 \/ c = 54
   \/ c = 55 \/ c = 56 \/ c = 57)%N.
Proof. intros H. apply is_digit_10 in H. lia. Qed.

Section ParseInt.
Context {platform : Platform}.

Lemma parseInt_digits s :
  s <> [] -> forallb (is_digit 10) s = true ->
  parseInt (VStr s)
  = round_double (inject_Z (Z.of_N (digits_value 10 s))).
Proof.
  destruct s as [|c rest]; [congruence|]. intros _ A.
  assert (T := take_while_all _ _ A).
  cbn [forallb] in A. apply andb_true_iff in A as [C A].
  unfold parseInt. cbn [to_string].
  apply digit_cases in C.
  destruct C as [->|[->|[->|[->|[->|[->|[->|[->|[->| ->]]]]]]]]];
    match goal with
    | |- context [trim_start (?k :: rest)] =>
        change (trim_start (k :: rest)) with (k :: rest)
    end; cbv beta iota zeta;
    try (rewrite T; reflexivity).
  destruct rest as [|x r]; [reflexivity|].
  cbn [forallb] in A. apply andb_true_iff in A as [X _].
  apply is_digit_10 in X.
  replace (x =? 120)%N with false by (symmetry; apply N.eqb_neq; lia).
  replace (x =? 88)%N with false by (symmetry; apply N.eqb_neq; lia).
  cbn [orb]. rewrite T. reflexivity.
Qed.

(** [parseInt] reads the decimal numeral of an integer of magnitude
    below [2^53] as that integer. *)
Lemma parseInt_decimal z :
  - 2 ^ 53 < z < 2 ^ 53 -> parseInt (VStr (decimal_Z z)) = num_of_Z z.
Proof.
  intros B. destruct z as [|p|p].
  - reflexivity.
  - rewrite decimal_Z_N by lia.
    rewrite parseInt_digits
      by (apply decimal_N_not_nil || apply decimal_N_all_digits).
    rewrite decimal_N_value, Z2N.id by lia. now apply round_double_Z.
  - unfold decimal_Z, parseInt. cbn [to_string].
    change (trim_start (45%N :: decimal_N (N.pos p)))
      with (45%N :: decimal_N (N.pos p)).
    cbv beta iota zeta.
    pose proof (decimal_N_all_digits (N.pos p)) as A.
    pose proof (decimal_N_not_nil (N.pos p)) as NN.
    pose proof (decimal_N_value (N.pos p)) as V.
    assert (T := take_while_all _ _ A).
    destruct (decimal_N (N.pos p)) as [|c rest] eqn:D; [congruence|].
    cbn [forallb] in A. apply andb_true_iff in A as [C A].
    apply digit_cases in C.
    destruct C as [->|[->|[->|[->|[->|[->|[->|[->|[->| ->]]]]]]]]];
      cbv beta iota zeta;
      try (rewrite T, V; cbv beta iota zeta; now apply round_double_Z).
    destruct rest as [|x r].
    + rewrite T, V. now apply round_double_Z.
    + cbn [forallb] in A. apply andb_true_iff in A as [X _].
      apply is_digit_10 in X.
      replace (x =? 120)%N with false by (symmetry; apply N.eqb_neq; lia).
      replace (x =? 88)%N with false by (symmetry; apply N.eqb_neq; lia).
      cbn [orb]. rewrite T, V. now apply round_double_Z.
Qed.

End ParseInt.

(** ** The store's average *)

Lemma pow2_m53 : (Qpower 2 (-53) == 1 # 9007199254740992)%Q.
Proof. reflexivity. Qed.

Lemma Qfloor_unique (x : Q) (m : Z) :
  (inject_Z m <= x)%Q -> (x < inject_Z m + 1)%Q -> Qfloor x = m.
Proof.
  intros L H. apply Z.le_antisymm.
  - assert (A : (inject_Z (Qfloor x) < inject_Z (m + 1))%Q).
    { eapply Qle_lt_trans; [apply Qfloor_le|]. now rewrite inject_Z_plus. }
    rewrite <- Zlt_Qlt in A. lia.
  - rewrite <- (Qfloor_Z m). now apply Qfloor_resp_le.
Qed.

Lemma take_while_stop {A} (p : A -> bool) l x r :
  forallb p l = true -> p x = false -> take_while p (l ++ x :: r) = l.
Proof.
  intros H X. induction l as [|a l IH]; simpl; [now rewrite X|].
  simpl in H. apply andb_true_iff in H as [-> H]. now rewrite IH.
Qed.

Lemma digits_value_app l : forall r,
  forallb (is_digit 10) r = true ->
  digits_value 10 (l ++ r)
  = (digits_value 10 l * 10 ^ N.of_nat (List.length r) + digits_value 10 r)%N.
Proof.
  intros r. induction r as [|c r IH] using rev_ind; intros H.
  - rewrite app_nil_r. simpl. unfold digits_value at 3. simpl. lia.
  - rewrite forallb_app in H. apply andb_true_iff in H as [H _].
    rewrite app_assoc, !digits_value_snoc, (IH H), length_app.
    cbn [List.length]. rewrite Nat.add_1_r, Nat2N.inj_succ, N.pow_succ_r'.
    lia.
Qed.

Lemma fraction_digits f :
  (f < 10000)%N ->
  let fraction := [(48 + f / 1000)%N; (48 + f / 100 mod 10)%N;
                   (48 + f / 10 mod 10)%N; (48 + f mod 10)%N] in
  forallb (is_digit 10) fraction = true
  /\ digits_value 10 fraction = f.
Proof.
  intros B fraction.
  assert (D : forall k, (k < 10)%N -> is_digit 10 (48 + k) = true).
  { intros k K. apply is_digit_10. lia. }
  assert (A : (f / 1000 < 10)%N) by (apply N.Div0.div_lt_upper_bound; lia).
  split.
  - unfold fraction. cbn [forallb].
    rewrite !D; try reflexivity; try assumption;
      apply N.mod_lt; discriminate.
  - unfold fraction, digits_value. cbn [fold_left].
    rewrite !digit_value_decimal; try assumption;
      try (apply N.mod_lt; discriminate).
    pose proof (N.Div0.div_mod f 10). pose proof (N.Div0.div_mod (f / 10) 10).
    pose proof (N.Div0.div_mod (f / 10 / 10) 10).
    rewrite !N.Div0.div_div in *. change (10 * 10)%N with 100%N in *.
    change (100 * 10)%N with 1000%N in *.
    assert ((f / 1000) mod 10 = f / 1000)%N by (now apply N.mod_small).
    lia.
Qed.

Lemma decimal_literal_decimal4 q :
  (0 <= q)%Q ->
  decimal_literal (decimal4 q)
  = Some (inject_Z (Qfloor (q * 10000 + (1 # 2))) / 10000)%Q.
Proof.
  intros P. unfold decimal4. rewrite (Qabs_pos q P).
  replace (Qle_bool 0 q) with true by (symmetry; now apply Qle_bool_iff).
  cbn [orb app].
  set (k := Qfloor (q * 10000 + (1 # 2))).
  assert (K : 0 <= k).
  { unfold k. change 0 with (Qfloor 0). apply Qfloor_resp_le. lra. }
  assert (Hd : 0 <= k / 10000) by (apply Z.div_pos; lia).
  assert (Hm : 0 <= k mod 10000 < 10000) by (apply Z.mod_pos_bound; lia).
  set (f := Z.to_N (k mod 10000)).
  assert (F : (f < 10000)%N) by (unfold f; lia).
  destruct (fraction_digits f F) as [FD FV]. cbv zeta in FD, FV.
  set (fraction := [(48 + f / 1000)%N; _; _; _]) in *.
  rewrite decimal_Z_N by exact Hd.
  set (whole := decimal_N (Z.to_N (k / 10000))).
  assert (WD : forallb (is_digit 10) whole = true)
    by apply decimal_N_all_digits.
  assert (WN : whole <> []) by apply decimal_N_not_nil.
  assert (WV : digits_value 10 whole = Z.to_N (k / 10000))
    by apply decimal_N_value.
  assert (H45 : decimal_literal (whole ++ 46%N :: fraction)
                = unsigned_literal (whole ++ 46%N :: fraction)).
  { destruct whole as [|c w]; [congruence|].
    cbn [forallb] in WD. apply andb_true_iff in WD as [C _].
    apply digit_cases in C.
    destruct C as [->|[->|[->|[->|[->|[->|[->|[->|[->| ->]]]]]]]]];
      reflexivity. }
  rewrite H45. unfold unsigned_literal. cbv zeta.
  rewrite (take_while_stop _ whole 46%N fraction WD eq_refl).
  destruct whole as [|c w] eqn:W; [congruence|]. rewrite <- W in *.
  rewrite skipn_app, skipn_all, Nat.sub_diag. cbn [app skipn].
  unfold fraction at 1. cbv iota. fold fraction. rewrite FD.
  rewrite digits_value_app by exact FD. rewrite WV, FV.
  f_equal. unfold fraction. cbn [List.length].
  change (N.of_nat 4) with 4%N. change (Z.of_nat 4) with 4.
  change (10 ^ 4)%N with 10000%N. change (10 ^ 4) with 10000.
  replace (Z.of_N (Z.to_N (k / 10000) * 10000 + f)) with k; [reflexivity|].
  unfold f. rewrite N2Z.inj_add, N2Z.inj_mul, !Z2N.id by lia.
  pose proof (Z.div_mod k 10000). lia.
Qed.

Lemma decimal4_not_nil q : decimal4 q <> [].
Proof.
  unfold decimal4. cbv zeta.
  destruct (Qle_bool 0 q || _); [|discriminate]. cbn [app].
  now destruct (decimal_Z _).
Qed.

(** The mean rounded to four places, and the double read from it. *)
Lemma mean_decimal qs :
  qs <> [] -> Forall (fun q => 1 <= q <= 5)%Q qs ->
  let k := Qfloor (mean qs * 10000 + (1 # 2)) in
  10000 <= k <= 50000
  /\ (Qabs (inject_Z k / 10000 - mean qs) <= 1 # 20000)%Q
  /\ exists d,
       round_double (inject_Z k / 10000) = Fin d
       /\ (0 < d)%Q
       /\ (Qabs d < inject_Z (10 ^ 21))%Q
       /\ (Qabs (d - inject_Z k / 10000)
           <= inject_Z k / 10000 * Qpower 2 (-53))%Q.
Proof.
  intros N F k. destruct (mean_bounds 1 5 qs N F) as [L H].
  assert (Lo := Qfloor_le (mean qs * 10000 + (1 # 2))).
  assert (Hi := Qlt_floor (mean qs * 10000 + (1 # 2))).
  fold k in Lo, Hi. rewrite inject_Z_plus in Hi.
  change (inject_Z 1) with 1%Q in Hi.
  assert (K1 : 10000 <= k).
  { assert (A : (inject_Z 10000 <= mean qs * 10000 + (1 # 2))%Q).
    { change (inject_Z 10000) with 10000%Q. lra. }
    apply Qfloor_resp_le in A. now rewrite Qfloor_Z in A. }
  assert (K2 : k <= 50000).
  { assert (A : (inject_Z k < inject_Z 50001)%Q).
    { change (inject_Z 50001) with 50001%Q. lra. }
    rewrite <- Zlt_Qlt in A. lia. }
  assert (Q1 : (1 <= inject_Z k / 10000)%Q).
  { rewrite Zle_Qle in K1. change (inject_Z 10000) with 10000%Q in K1.
    apply Qle_shift_div_l; [reflexivity|]. lra. }
  assert (Q2 : (inject_Z k / 10000 <= 5)%Q).
  { rewrite Zle_Qle in K2. change (inject_Z 50000) with 50000%Q in K2.
    apply Qle_shift_div_r; [reflexivity|]. lra. }
  split; [split; assumption|]. split.
  - apply Qabs_Qle_condition.
    setoid_replace (inject_Z k / 10000 - mean qs)%Q
      with ((inject_Z k - mean qs * 10000) / 10000)%Q by field.
    split.
    + apply Qle_shift_div_l; [reflexivity|]. lra.
    + apply Qle_shift_div_r; [reflexivity|]. lra.
  - set (r := (inject_Z k / 10000)%Q) in *.
    assert (A := Qabs_pos r ltac:(lra)).
    destruct (round_double_near r) as (d & E & B).
    + rewrite A. eapply Qle_trans; [|exact Q1]. discriminate.
    + rewrite A. eapply Qle_lt_trans; [exact Q2|]. reflexivity.
    + rewrite A in B. exists d. split; [exact E|].
      assert (B' := B). rewrite pow2_m53 in B'.
      apply Qabs_Qle_condition in B' as [B1 B2].
      assert (Pd : (0 < d)%Q) by lra.
      split; [exact Pd|]. split; [|exact B].
      rewrite (Qabs_pos d) by lra.
      apply Qle_lt_trans with 6%Q; [lra|reflexivity].
Qed.

Section Average.
Context {platform : Platform}.

Lemma average_finite st qs :
  ratings st qs -> qs <> [] ->
  average c_overall_rating (rows st) = VStr (decimal4 (mean qs)).
Proof.
  intros R N. unfold average.
  change (map (fun r => as_num (cell c_overall_rating r)) (rows st))
    with (map (fun r => as_num (row_overall_rating r)) (rows st)).
  rewrite R, somes_finite.
  destruct qs as [|q qs]; [congruence|].
  cbn [map]. change (Fin q :: map Fin qs) with (map Fin (q :: qs)).
  rewrite sum_finite, length_map. reflexivity.
Qed.

(** What [parseFloat(average || 0)] reads from the text of a DECIMAL. *)
Lemma parseFloat_decimal4 q :
  (0 <= q)%Q ->
  parseFloat (js_or (VStr (decimal4 q)) (VNum (Fin 0)))
  = round_double (inject_Z (Qfloor (q * 10000 + (1 # 2))) / 10000).
Proof.
  intros P. unfold js_or.
  replace (truthy (VStr (decimal4 q))) with true
    by (pose proof (decimal4_not_nil q); simpl; now destruct (decimal4 q)).
  unfold parseFloat. cbn [to_string].
  now rewrite (decimal_literal_decimal4 q P).
Qed.

(** The displayed average of ratings within [1,5]. *)
Lemma average_rating_tenths st qs :
  ratings st qs -> qs <> [] -> Forall (fun q => 1 <= q <= 5)%Q qs ->
  let k := Qfloor (mean qs * 10000 + (1 # 2)) in
  exists d,
    round_double (inject_Z k / 10000) = Fin d
    /\ (Qabs (d - inject_Z k / 10000)
        <= inject_Z k / 10000 * Qpower 2 (-53))%Q
    /\ toFixed1
         (parseFloat
            (js_or (average c_overall_rating (rows st)) (VNum (Fin 0))))
       = tenths false (Qfloor (d * 10 + (1 # 2))).
Proof.
  intros R N F k.
  destruct (mean_decimal qs N F) as (_ & _ & d & D & Pd & B & Nr).
  fold k in D, Nr. exists d. split; [exact D|]. split; [exact Nr|].
  destruct (mean_bounds 1 5 qs N F) as [L _].
  rewrite (average_finite st qs R N), parseFloat_decimal4 by lra.
  fold k. rewrite D, (toFixed1_tenths d B).
  assert (Le : Qle_bool 0 d = true)
    by (apply Qle_bool_iff; now apply Qlt_le_weak).
  rewrite Le, (Qabs_pos d) by now apply Qlt_le_weak. reflexivity.
Qed.

End Average.

(* ================================================================= *)
(** * Part VII: the handlers' properties *)

(** ** POST /api/feedback *)

Section Submission.
Context {platform : Platform}.

(** The handler's three outcomes. *)
Lemma post_feedback_missing b now st :
  truthy (b_name b) && truthy (b_email b) && truthy (b_feedback_type b)
    && truthy (b_overall_rating b) = false ->
  post_feedback b now st = (json 400 (BError "Missing required fields"), st).
Proof.
  intros H. unfold post_feedback.
  destruct (truthy (b_name b)), (truthy (b_email b)),
    (truthy (b_feedback_type b)), (truthy (b_overall_rating b));
    simpl in *; try reflexivity; discriminate.
Qed.

Lemma post_feedback_range b now st :
  truthy (b_name b) = true -> truthy (b_email b) = true ->
  truthy (b_feedback_type b) = true -> truthy (b_overall_rating b) = true ->
  js_lt (b_overall_rating b) (Fin 1) || js_gt (b_overall_rating b) (Fin 5)
    = true ->
  post_feedback b now st
  = (json 400 (BError "Rating must be between 1 and 5"), st).
Proof.
  intros Hn He Ht Hr H. unfold post_feedback.
  rewrite Hn, He, Ht, Hr. cbn [negb orb]. now rewrite H.
Qed.

Lemma post_feedback_created b now st :
  truthy (b_name b) = true -> truthy (b_email b) = true ->
  truthy (b_feedback_type b) = true -> truthy (b_overall_rating b) = true ->
  js_lt (b_overall_rating b) (Fin 1) || js_gt (b_overall_rating b) (Fin 5)
    = false ->
  post_feedback b now st
  = (json 201 (BCreated "Feedback submitted successfully" (next_id st)),
     {| rows := rows st ++ [new_row b (next_id st) now];
        next_id := next_id st + 1 |}).
Proof.
  intros Hn He Ht Hr H. unfold post_feedback.
  rewrite Hn, He, Ht, Hr. cbn [negb orb]. rewrite H.
  now rewrite execute_insert_feedback.
Qed.

Lemma some_missing_iff b :
  some_missing b <->
  truthy (b_name b) && truthy (b_email b) && truthy (b_feedback_type b)
    && truthy (b_overall_rating b) = false.
Proof.
  unfold some_missing. rewrite !missing_iff_falsy.
  destruct (truthy (b_name b)), (truthy (b_email b)),
    (truthy (b_feedback_type b)), (truthy (b_overall_rating b));
    simpl; intuition congruence.
Qed.

Lemma outside_iff v :
  outside_1_5 v <-> js_lt v (Fin 1) || js_gt v (Fin 5) = true.
Proof.
  unfold outside_1_5, js_lt, js_gt.
  rewrite orb_true_iff, num_lt_below, num_lt_above. tauto.
Qed.

Lemma invalid_iff b : invalid b <-> accepts b = false.
Proof.
  unfold invalid, accepts.
  assert (M := some_missing_iff b). unfold some_missing in M.
  assert (O := outside_iff (b_overall_rating b)).
  destruct (js_lt (b_overall_rating b) (Fin 1)
            || js_gt (b_overall_rating b) (Fin 5));
    destruct (truthy (b_name b) && truthy (b_email b)
              && truthy (b_feedback_type b) && truthy (b_overall_rating b));
    simpl; intuition congruence.
Qed.

Lemma accepts_inv b :
  accepts b = true ->
  truthy (b_name b) = true /\ truthy (b_email b) = true /\
  truthy (b_feedback_type b) = true /\ truthy (b_overall_rating b) = true /\
  js_lt (b_overall_rating b) (Fin 1) || js_gt (b_overall_rating b) (Fin 5)
    = false.
Proof.
  unfold accepts. rewrite !andb_true_iff, negb_true_iff. tauto.
Qed.

Lemma post_feedback_accepted b now st :
  accepts b = true ->
  post_feedback b now st
  = (json 201 (BCreated "Feedback submitted successfully" (next_id st)),
     {| rows := rows st ++ [new_row b (next_id st) now];
        next_id := next_id st + 1 |}).
Proof.
  intros H. apply accepts_inv in H as (Hn & He & Ht & Hr & Hk).
  now apply post_feedback_created.
Qed.

Lemma post_feedback_refused b now st :
  accepts b = false ->
  exists msg, post_feedback b now st = (json 400 (BError msg), st).
Proof.
  intros H.
  destruct (truthy (b_name b) && truthy (b_email b)
            && truthy (b_feedback_type b) && truthy (b_overall_rating b))
    eqn:M.
  - unfold accepts in H. rewrite M in H. simpl in H.
    apply negb_false_iff in H.
    rewrite !andb_true_iff in M. destruct M as [[[Hn He] Ht] Hr].
    eexists. now apply post_feedback_range.
  - eexists. now apply post_feedback_missing.
Qed.

Lemma valid_accepts b : ~ invalid b -> accepts b = true.
Proof.
  intros H. destruct (accepts b) eqn:E; [reflexivity|].
  exfalso. apply H. now apply invalid_iff.
Qed.

Lemma accepts_valid b : accepts b = true -> ~ invalid b.
Proof. intros H I. apply invalid_iff in I. congruence. Qed.

(** C2, where the program departs from it.  POST /api/feedback tests
    the rating with [overall_rating < 1 || overall_rating > 5].  A
    rating that is present and converts to no number, the text [abc] for
    one, is on neither side of either bound: the submission is answered
    201 and the rating is stored as it was sent, a value outside
    [1,5]. *)
Theorem post_feedback_accepts_unreadable_rating (b : feedback_body)
  (now : Z) (st : store) :
  truthy (b_name b) = true -> truthy (b_email b) = true ->
  truthy (b_feedback_type b) = true ->
  truthy (b_overall_rating b) = true ->
  to_number (b_overall_rating b) = NaN ->
  post_feedback b now st
  = (json 201 (BCreated "Feedback submitted successfully" (next_id st)),
     {| rows := rows st ++ [new_row b (next_id st) now];
        next_id := next_id st + 1 |})
  /\ row_overall_rating (new_row b (next_id st) now)
     = bound (b_overall_rating b)
  /\ ~ rating_in_range (new_row b (next_id st) now).
Proof.
  intros N E T R U. split; [|split].
  - apply post_feedback_created; try assumption.
    unfold js_lt, js_gt. now rewrite U.
  - reflexivity.
  - intros (q & Q & _). cbn [new_row row_overall_rating] in Q.
    destruct (b_overall_rating b) as [| |[]|n|s|items|props];
      try discriminate.
    cbn [to_number] in U. subst n. discriminate.
Qed.

(** C9. A required member that is missing in the sense of [missing] --
    not sent, [null], [false], zero, [NaN] or the empty string -- makes the
    handler answer "Missing required fields"; the range test is not
    reached, also when the rating is 0. *)
Theorem post_feedback_falsy_is_missing (b : feedback_body) (now : Z)
  (st : store) :
  some_missing b ->
  post_feedback b now st = (json 400 (BError "Missing required fields"), st).
Proof.
  intros H. apply post_feedback_missing. now apply some_missing_iff.
Qed.

(** C10. In the row a successful submission adds, [subject_course] and
    [detailed_feedback] are NULL whenever the submitted member is
    missing in the sense of [missing]; the empty string is one such
    value. *)
Theorem post_feedback_optional_null (b : feedback_body) (now : Z)
  (st : store) :
  ~ invalid b ->
  exists r,
    snd (post_feedback b now st)
    = {| rows := rows st ++ [r]; next_id := next_id st + 1 |}
    /\ (missing (b_subject_course b) -> row_subject_course r = SNull)
    /\ (missing (b_detailed_feedback b) -> row_detailed_feedback r = SNull)
    /\ (b_subject_course b = VStr [] -> row_subject_course r = SNull)
    /\ (b_detailed_feedback b = VStr [] -> row_detailed_feedback r = SNull).
Proof.
  intros H. rewrite (post_feedback_accepted _ _ _ (valid_accepts _ H)).
  exists (new_row b (next_id st) now). cbn [snd].
  split; [reflexivity|].
  assert (S : forall v, missing v ->
            (if truthy v then bound v else SNull) = SNull).
  { intros v M. apply missing_iff_falsy in M. now rewrite M. }
  repeat split; intros M; cbn [new_row row_subject_course
    row_detailed_feedback]; apply S; try assumption;
    rewrite M; constructor.
Qed.

End Submission.

Lemma post_feedback_accepts_unreadable_rating_witness :
  @post_feedback sample_platform abc_rating 100 empty_store
  = (json 201 (BCreated "Feedback submitted successfully" 1),
     {| rows := [@new_row sample_platform abc_rating 1 100]; next_id := 2 |})
  /\ row_overall_rating (@new_row sample_platform abc_rating 1 100)
     = SText (js "abc").
Proof.
  destruct (@post_feedback_accepts_unreadable_rating sample_platform
              abc_rating 100 empty_store eq_refl eq_refl eq_refl eq_refl
              eq_refl) as (P & R & _).
  split; [exact P|exact R].
Defined.

Lemma post_feedback_falsy_is_missing_witness :
  @post_feedback sample_platform zero_rating 100 empty_store
  = (json 400 (BError "Missing required fields"), empty_store).
Proof.
  apply (@post_feedback_falsy_is_missing sample_platform zero_rating 100
           empty_store).
  right; right; right. now constructor.
Defined.

Lemma post_feedback_optional_null_witness :
  exists r,
    snd (@post_feedback sample_platform alice 100 empty_store)
    = {| rows := [r]; next_id := 2 |}
    /\ row_subject_course r = SNull.
Proof.
  destruct (@post_feedback_optional_null sample_platform alice 100
              empty_store) as (r & E & _ & _ & S & _).
  - apply accepts_valid. reflexivity.
  - exists r. split; [exact E | now apply S].
Defined.

(** ** GET /api/feedback/:id *)

Section ReadBack.
Context {platform : Platform}.

Lemma get_feedback_by_id_found id now st :
  get_feedback_by_id id now st
  = match filter (id_matches id) (rows st) with
    | [] => (json 404 (BError "Feedback not found"), st)
    | r :: _ => (json 200 (BRow r), st)
    end.
Proof.
  unfold get_feedback_by_id.
  change (execute (SELECT (CEq c_id) false NoLimit) [VStr id] now st)
    with (Some (Rows (filter (id_matches id) (rows st)), st)).
  now destruct (filter (id_matches id) (rows st)).
Qed.

Lemma get_feedback_by_id_absent id now st :
  (forall r, In r (rows st) -> id_matches id r = false) ->
  get_feedback_by_id id now st
  = (json 404 (BError "Feedback not found"), st).
Proof.
  intros H. rewrite get_feedback_by_id_found.
  now rewrite (proj2 (filter_nil_iff _ _) H).
Qed.

(** C8, as amended.  Take a valid submission whose name, email and
    feedback_type are strings, whose overall_rating is a number, and
    whose subject_course and detailed_feedback are strings when they are
    truthy.  Into a well-formed table it is answered 201 with a fresh id,
    and reading that id back answers 200 with a row that carries the id,
    the time of submission, and the name, email, feedback_type and
    overall_rating that were submitted; subject_course and
    detailed_feedback come back as submitted when they were truthy and as
    [null] otherwise.  Reading an id that matches no row answers 404. *)
Theorem submit_then_read :
  (forall (b : feedback_body) (now now' : Z) (st : store),
     well_formed st -> ~ invalid b ->
     is_text (b_name b) -> is_text (b_email b) ->
     is_text (b_feedback_type b) -> is_number (b_overall_rating b) ->
     optional_text (b_subject_course b) ->
     optional_text (b_detailed_feedback b) ->
     exists st' r,
       post_feedback b now st
       = (json 201 (BCreated "Feedback submitted successfully" (next_id st)),
          st')
       /\ get_feedback_by_id (decimal_Z (next_id st)) now' st'
          = (json 200 (BRow r), st')
       /\ row_id r = next_id st
       /\ row_submission_date r = now
       /\ returned (row_name r) = b_name b
       /\ returned (row_email r) = b_email b
       /\ returned (row_feedback_type r) = b_feedback_type b
       /\ returned (row_overall_rating r) = b_overall_rating b
       /\ returned (row_subject_course r)
          = (if truthy (b_subject_course b) then b_subject_course b
             else VNull)
       /\ returned (row_detailed_feedback r)
          = (if truthy (b_detailed_feedback b) then b_detailed_feedback b
             else VNull))
  /\ (forall (id : jsstring) (now : Z) (st : store),
        (forall r, In r (rows st) -> id_matches id r = false) ->
        get_feedback_by_id id now st
        = (json 404 (BError "Feedback not found"), st)).
Proof.
  split.
  - intros b now now' st [Hn Hr] V Sn Se St So Ss Sd.
    exists {| rows := rows st ++ [new_row b (next_id st) now];
              next_id := next_id st + 1 |}, (new_row b (next_id st) now).
    split; [now apply post_feedback_accepted, valid_accepts|].
    split; [|split; [reflexivity|split; [reflexivity|]]].
    + rewrite get_feedback_by_id_found. cbn [rows].
      rewrite filter_fresh_id; auto; lia.
    + cbn [new_row row_name row_email row_feedback_type row_overall_rating
           row_subject_course row_detailed_feedback].
      assert (X : forall v, is_text v -> scalar v) by (now intros []).
      assert (Y : forall v, is_number v -> scalar v) by (now intros []).
      rewrite !returned_bound by auto.
      repeat split.
      * destruct (truthy (b_subject_course b)) eqn:T; [|reflexivity].
        now apply returned_bound, X, Ss.
      * destruct (truthy (b_detailed_feedback b)) eqn:T; [|reflexivity].
        now apply returned_bound, X, Sd.
  - apply get_feedback_by_id_absent.
Qed.

(** On every platform the sample submission, whose subject_course is
    the empty string, is stored and read back with a NULL
    subject_course. *)
Lemma empty_subject_any_platform :
  post_feedback alice 100 empty_store
  = (json 201 (BCreated "Feedback submitted successfully" 1), alice_store)
  /\ get_feedback_by_id (js "1") 200 alice_store
     = (json 200 (BRow alice_row), alice_store)
  /\ b_subject_course alice = VStr []
  /\ returned (row_subject_course alice_row) = VNull.
Proof. repeat split. Qed.

End ReadBack.

(** C8 as stated fails: the empty subject_course that was submitted
    reads back as NULL. *)
Lemma empty_subject_reads_back_null :
  @post_feedback sample_platform alice 100 empty_store
  = (json 201 (BCreated "Feedback submitted successfully" 1), alice_store)
  /\ @get_feedback_by_id sample_platform (js "1") 200 alice_store
     = (json 200 (BRow alice_row), alice_store)
  /\ b_subject_course alice = VStr []
  /\ returned (row_subject_course alice_row) = VNull.
Proof. exact (@empty_subject_any_platform sample_platform). Qed.

Lemma submit_then_read_witness :
  exists st' r,
    @post_feedback sample_platform alice 100 empty_store
    = (json 201 (BCreated "Feedback submitted successfully" 1), st')
    /\ @get_feedback_by_id sample_platform (js "1") 200 st'
       = (json 200 (BRow r), st')
    /\ returned (row_name r) = str "Alice"
    /\ returned (row_overall_rating r) = VNum (Fin 3)
    /\ returned (row_subject_course r) = VNull.
Proof.
  destruct (proj1 (@submit_then_read sample_platform) alice 100 200
              empty_store)
    as (st' & r & P & G & _ & _ & N & _ & _ & O & S & _);
    try exact I; try discriminate.
  - split; [reflexivity|constructor].
  - apply accepts_valid. reflexivity.
  - exists st', r. repeat split; assumption.
Defined.

(** ** GET /api/feedback *)

Section Listing.
Context {platform : Platform}.

Lemma get_feedback_unfold q now st :
  get_feedback q now st
  = try_catch
      (match execute
               (SELECT (fst (filtered (lq_type q) (lq_rating q) (CTrue, [])))
                  true LimitOffset)
               (snd (filtered (lq_type q) (lq_rating q) (CTrue, []))
                  ++ [VNum (asked_limit q); VNum (asked_offset q)])
               now st with
       | Some (Rows rows, st1) =>
           match execute
                   (SELECT_COUNT
                      (fst (filtered (lq_type q) (lq_rating q) (CTrue, []))))
                   (snd (filtered (lq_type q) (lq_rating q) (CTrue, [])))
                   now st1 with
           | Some (Scalar total, st2) =>
               Some (json 200 (BPage rows total (asked_limit q)
                                 (asked_offset q)), st2)
           | _ => None
           end
       | _ => None
       end)
      st.
Proof. reflexivity. Qed.

Lemma list_selected now q r :
  selected now (fst (filtered (lq_type q) (lq_rating q) (CTrue, [])))
    (map bound (snd (filtered (lq_type q) (lq_rating q) (CTrue, [])))) r
  = list_matches q r.
Proof. now rewrite selected_filtered by apply nothing_well_built. Qed.

Lemma get_feedback_ok q now st k o :
  as_count (SNum (asked_limit q)) = Some k ->
  as_count (SNum (asked_offset q)) = Some o ->
  get_feedback q now st
  = (json 200
       (BPage
          (firstn k (skipn o (sort_desc (filter (list_matches q) (rows st)))))
          (VNum (num_of_Z
                   (Z.of_nat
                      (List.length (filter (list_matches q) (rows st))))))
          (asked_limit q) (asked_offset q)),
     st).
Proof.
  intros Hk Ho. rewrite get_feedback_unfold.
  rewrite (execute_select_page _ _ _ k o now st
             (filtered_well_built _ _ _ nothing_well_built) Hk Ho).
  rewrite (execute_select_count _ now st
             (filtered_well_built _ _ _ nothing_well_built)).
  cbn [try_catch].
  now rewrite (filter_ext _ (list_matches q) (list_selected now q)).
Qed.

(** C3. With a limit and an offset that are non-negative integers, the
    listing answers 200 with a page and a total such that: the page is
    the window of [limit] rows starting at [offset] in a newest-first
    arrangement of exactly the rows that satisfy every filter that was
    asked for; the total is the number of those rows, whatever the
    window; the page is no longer than the limit nor than the total; an
    omitted limit is 50 and an omitted offset is 0. *)
Theorem get_feedback_page (q : list_query) (now : Z) (st : store)
  (k o : nat) :
  as_count (SNum (asked_limit q)) = Some k ->
  as_count (SNum (asked_offset q)) = Some o ->
  let matching := filter (list_matches q) (rows st) in
  exists found page,
    Permutation found matching
    /\ newest_first found
    /\ page = firstn k (skipn o found)
    /\ get_feedback q now st
       = (json 200
            (BPage page (VNum (num_of_Z (Z.of_nat (List.length matching))))
               (asked_limit q) (asked_offset q)),
          st)
    /\ newest_first page
    /\ (List.length page <= k)%nat
    /\ (List.length page <= List.length matching)%nat
    /\ (forall r, In r page -> In r (rows st) /\ list_matches q r = true)
    /\ (o = 0%nat -> (List.length matching <= k)%nat -> page = found)
    /\ (lq_limit q = VUndefined -> k = 50%nat)
    /\ (lq_offset q = VUndefined -> o = 0%nat).
Proof.
  intros Hk Ho matching.
  exists (sort_desc matching), (firstn k (skipn o (sort_desc matching))).
  assert (P := sort_desc_perm matching).
  split; [exact P|]. split; [apply sort_desc_sorted|].
  split; [reflexivity|]. split; [now apply get_feedback_ok|].
  split; [apply newest_first_firstn, newest_first_skipn, sort_desc_sorted|].
  split; [apply firstn_le_length|].
  split; [rewrite <- (Permutation_length P); apply firstn_skipn_length|].
  split; [|split; [|split]].
  - intros r I. apply In_firstn, In_skipn in I.
    apply (Permutation_in _ P) in I. now apply filter_In in I.
  - intros -> L. simpl. apply firstn_all2.
    now rewrite (Permutation_length P).
  - intros E. unfold asked_limit in Hk. rewrite E in Hk.
    vm_compute in Hk. now injection Hk as <-.
  - intros E. unfold asked_offset in Ho. rewrite E in Ho.
    vm_compute in Ho. now injection Ho as <-.
Qed.

End Listing.

Lemma get_feedback_page_witness :
  exists page,
    @get_feedback sample_platform course_query 200 two_rows
    = (json 200 (BPage page (VNum (Fin 2)) (Fin 1) (Fin 0)), two_rows)
    /\ (List.length page <= 1)%nat.
Proof.
  destruct (@get_feedback_page sample_platform course_query 200 two_rows
              1%nat 0%nat eq_refl eq_refl)
    as (found & page & _ & _ & _ & E & _ & L & _).
  exists page. split; [exact E|exact L].
Defined.

(** ** DELETE /api/feedback/:id *)

Section Deletion.
Context {platform : Platform}.

Lemma delete_handler_absent id now st :
  filter (id_matches id) (rows st) = [] ->
  delete_handler id now st = (json 404 (BError "Feedback not found"), st).
Proof.
  intros H. unfold delete_handler. rewrite execute_delete_by_id, H.
  cbn [List.length Nat.eqb try_catch]. rewrite filter_none by assumption.
  now rewrite store_eta.
Qed.

Lemma delete_handler_present id now st :
  filter (id_matches id) (rows st) <> [] ->
  delete_handler id now st
  = (json 200 (BMessage "Feedback deleted successfully"),
     {| rows := filter (fun r => negb (id_matches id r)) (rows st);
        next_id := next_id st |}).
Proof.
  intros H. unfold delete_handler. rewrite execute_delete_by_id.
  destruct (filter (id_matches id) (rows st)); [congruence|reflexivity].
Qed.

Lemma authenticate_none authHeader next st :
  truthy (bearer_token authHeader) = false ->
  authenticateToken authHeader next st = (json 401 BNone, st).
Proof. intros H. unfold authenticateToken. now rewrite H. Qed.

Lemma authenticate_some authHeader t next st :
  presents authHeader t ->
  authenticateToken authHeader next st
  = if jwt_verify t then next st else (json 403 BNone, st).
Proof.
  intros P. unfold authenticateToken.
  destruct P as (scheme & rest & E & Hs & Ht & Hne & Hr).
  assert (P : presents authHeader t) by (exists scheme, rest; auto).
  rewrite (presents_token _ _ P).
  destruct t; [congruence|reflexivity].
Qed.

(** C6. DELETE /api/feedback/:id answers 401 when the Authorization
    header offers no token, 403 when it offers one that does not verify,
    404 when the token verifies and no row has the id, and otherwise 200
    after removing the rows with that id.  The table changes only in the
    last case. *)
Theorem delete_feedback_outcomes (authHeader : option jsstring)
  (id : jsstring) (now : Z) (st : store) :
  let outcome := delete_feedback authHeader id now st in
  ((forall t, ~ presents authHeader t) -> outcome = (json 401 BNone, st))
  /\
  (forall t, presents authHeader t -> jwt_verify t = false ->
             outcome = (json 403 BNone, st))
  /\
  (forall t, presents authHeader t -> jwt_verify t = true ->
             (forall r, In r (rows st) -> id_matches id r = false) ->
             outcome = (json 404 (BError "Feedback not found"), st))
  /\
  (forall t, presents authHeader t -> jwt_verify t = true ->
             (exists r, In r (rows st) /\ id_matches id r = true) ->
             outcome
             = (json 200 (BMessage "Feedback deleted successfully"),
                {| rows := filter (fun r => negb (id_matches id r)) (rows st);
                   next_id := next_id st |}))
  /\
  (snd outcome <> st ->
   exists t, presents authHeader t /\ jwt_verify t = true).
Proof.
  intros outcome. subst outcome. unfold delete_feedback.
  repeat split.
  - intros H. apply authenticate_none.
    destruct (truthy (bearer_token authHeader)) eqn:T; [|reflexivity].
    destruct (token_presents authHeader _ eq_refl T) as (t & _ & P).
    now apply H in P.
  - intros t P V. now rewrite (authenticate_some _ _ _ _ P), V.
  - intros t P V H. rewrite (authenticate_some _ _ _ _ P), V.
    apply delete_handler_absent. now apply filter_nil_iff.
  - intros t P V (r & I & M). rewrite (authenticate_some _ _ _ _ P), V.
    apply delete_handler_present. intros E.
    rewrite filter_nil_iff in E. specialize (E r I). congruence.
  - intros H.
    destruct (truthy (bearer_token authHeader)) eqn:T.
    + destruct (token_presents authHeader _ eq_refl T) as (t & _ & P).
      exists t. split; [assumption|].
      rewrite (authenticate_some _ _ _ _ P) in H.
      destruct (jwt_verify t); [reflexivity|]. now elim H.
    + rewrite authenticate_none in H by assumption. now elim H.
Qed.

End Deletion.

Lemma delete_feedback_outcomes_witness :
  @delete_feedback sample_platform None (js "1") 200 alice_store
  = (json 401 BNone, alice_store)
  /\ @delete_feedback sample_platform (Some (js "Bearer valid-token"))
       (js "1") 200 alice_store
     = (json 200 (BMessage "Feedback deleted successfully"),
        {| rows := []; next_id := 2 |}).
Proof.
  split.
  - apply (@delete_feedback_outcomes sample_platform None (js "1") 200
             alice_store).
    intros t (scheme & rest & E & _). discriminate.
  - apply (proj1 (proj2 (proj2 (proj2
             (@delete_feedback_outcomes sample_platform
                (Some (js "Bearer valid-token")) (js "1") 200 alice_store))))
             (js "valid-token")).
    + exists (js "Bearer"), []. repeat split; try discriminate; auto.
      * intros I. repeat (destruct I as [I|I]; [discriminate|]). exact I.
      * intros I. repeat (destruct I as [I|I]; [discriminate|]). exact I.
    + reflexivity.
    + exists alice_row. split; [now left|reflexivity].
Defined.

(** ** PUT /api/feedback/:id and the rating range *)

Section RatingRange.
Context {platform : Platform}.

Lemma accepted_number_in_range b n :
  accepts b = true -> b_overall_rating b = VNum n ->
  exists q, n = Fin q /\ (1 <= q <= 5)%Q.
Proof.
  intros A E. apply accepts_inv in A as (_ & _ & _ & T & R).
  rewrite E in T, R. unfold js_lt, js_gt in R. cbn [to_number] in R.
  apply orb_false_iff in R as [R1 R2].
  destruct n as [|[]|q]; try discriminate.
  exists q. split; [reflexivity|]. simpl in R1, R2.
  apply negb_false_iff in R1, R2. now rewrite !Qle_bool_iff in *.
Qed.

(** A submission whose rating is a number keeps every rating within
    [1,5]. *)
Lemma post_feedback_keeps_range b now st n :
  b_overall_rating b = VNum n ->
  Forall rating_in_range (rows st) ->
  Forall rating_in_range (rows (snd (post_feedback b now st))).
Proof.
  intros E F. destruct (accepts b) eqn:A.
  - rewrite (post_feedback_accepted b now st A). cbn [snd rows].
    apply Forall_app. split; [assumption|]. constructor; [|constructor].
    destruct (accepted_number_in_range b n A E) as (q & -> & R).
    exists q. split; [|assumption].
    cbn [new_row row_overall_rating]. now rewrite E.
  - destruct (post_feedback_refused b now st A) as (msg & ->). assumption.
Qed.

(** A deletion keeps every rating within [1,5]. *)
Lemma delete_feedback_keeps_range authHeader id now st :
  Forall rating_in_range (rows st) ->
  Forall rating_in_range (rows (snd (delete_feedback authHeader id now st))).
Proof.
  intros F. unfold delete_feedback, authenticateToken.
  destruct (negb (truthy (bearer_token authHeader))); [assumption|].
  destruct (jwt_verify _); [|assumption].
  unfold delete_handler. rewrite execute_delete_by_id.
  destruct (List.length (filter (id_matches id) (rows st)) =? 0)%nat;
    cbn [try_catch snd rows];
    rewrite Forall_forall in *; intros r I; apply filter_In in I as [I _];
    now apply F.
Qed.

(** C1, where the program departs from it.  PUT /api/feedback/:id binds
    the rating it is given without any test: on a table whose one row is
    rated 3, an update carrying the rating 9 is answered 200 and leaves
    the row rated 9. *)
Theorem put_feedback_stores_rating_nine :
  Forall rating_in_range (rows alice_store)
  /\ put_feedback (js "1") nine 200 alice_store
     = (json 200 (BMessage "Feedback updated successfully"), nine_store)
  /\ ~ Forall rating_in_range (rows nine_store).
Proof.
  split; [|split].
  - repeat constructor. exists 3%Q. repeat split; discriminate.
  - reflexivity.
  - intros F. inversion F as [|r l (q & E & _ & H) _]; subst.
    injection E as <-. now apply H.
Qed.

End RatingRange.

(** ** GET /api/analytics *)

Lemma filter_all {A} (f : A -> bool) l :
  (forall x, f x = true) -> filter f l = l.
Proof.
  intros H. induction l as [|x l IH]; [reflexivity|]. simpl.
  now rewrite H, IH.
Qed.

Lemma Qle_bool_Z a b : Qle_bool (inject_Z a) (inject_Z b) = (a <=? b).
Proof. unfold Qle_bool. simpl. now rewrite !Z.mul_1_r. Qed.

Section Analytics.
Context {platform : Platform}.

Lemma get_analytics_report now st :
  get_analytics now st
  = match grouped FEEDBACK_BY_TYPE now (map cells (rows st)),
          grouped MONTHLY_STATS now (map cells (rows st)),
          grouped RATING_DISTRIBUTION now (map cells (rows st)) with
    | Some by_type, Some monthly, Some by_rating =>
        (json 200
           (BReport (VNum (num_of_Z (Z.of_nat (List.length (rows st)))))
              (toFixed1
                 (parseFloat
                    (js_or (average c_overall_rating (rows st))
                       (VNum (Fin 0)))))
              by_type monthly by_rating
              (VNum (num_of_Z
                       (Z.of_nat
                          (List.length
                             (filter
                                (fun r =>
                                   now - 604800 <=? row_submission_date r)
                                (rows st))))))),
         st)
    | _, _, _ => (json 500 (BError "Internal server error"), st)
    end.
Proof.
  unfold get_analytics, execute. cbn [bind_all placeholders cond_params
    List.length Nat.eqb negb].
  rewrite (filter_all (selected now CTrue [])) by reflexivity.
  rewrite (filter_ext (selected now (CSince c_submission_date (7 * 86400)) [])
             (fun r => now - 604800 <=? row_submission_date r)).
  - destruct (grouped FEEDBACK_BY_TYPE _ _); [|reflexivity].
    destruct (grouped MONTHLY_STATS _ _); [|reflexivity].
    destruct (grouped RATING_DISTRIBUTION _ _); reflexivity.
  - intros r. unfold selected. cbn [eval_cond fst cell as_num].
    rewrite holds_some. unfold num_lt, num_of_Z. rewrite negb_involutive.
    apply Qle_bool_Z.
Qed.

Lemma get_analytics_refused now st :
  ~ report_answered now st ->
  get_analytics now st = (json 500 (BError "Internal server error"), st).
Proof.
  intros H. rewrite get_analytics_report. unfold report_answered in H.
  destruct (grouped FEEDBACK_BY_TYPE _ _); [|reflexivity].
  destruct (grouped MONTHLY_STATS _ _); [|reflexivity].
  destruct (grouped RATING_DISTRIBUTION _ _); [|reflexivity].
  elim H. repeat split; discriminate.
Qed.

Lemma get_analytics_answered now st :
  report_answered now st ->
  exists by_type monthly by_rating,
    get_analytics now st
    = (json 200
         (BReport (VNum (num_of_Z (Z.of_nat (List.length (rows st)))))
            (toFixed1
               (parseFloat
                  (js_or (average c_overall_rating (rows st))
                     (VNum (Fin 0)))))
            by_type monthly by_rating
            (VNum (num_of_Z
                     (Z.of_nat
                        (List.length
                           (filter
                              (fun r =>
                                 now - 604800 <=? row_submission_date r)
                              (rows st))))))),
       st).
Proof.
  intros (A & B & C). rewrite get_analytics_report.
  destruct (grouped FEEDBACK_BY_TYPE _ _) as [t|]; [|congruence].
  destruct (grouped MONTHLY_STATS _ _) as [m|]; [|congruence].
  destruct (grouped RATING_DISTRIBUTION _ _) as [d|]; [|congruence].
  now exists t, m, d.
Qed.

(** C7, amended.  GET /api/analytics is answered 500 when the store
    refuses one of the grouped statements of the report.  Otherwise it is
    answered 200, and [average_rating] is ["0.0"] on an empty table.  On
    a table whose ratings [qs] lie within [1,5], the store's average is
    the mean rounded to four places, [k / 10000]; [parseFloat] reads it
    as the double [d] nearest to that; and [average_rating] is the
    numeral of [n / 10], the tenth nearest to [d].  So [average_rating]
    is within 0.0501 of the mean, without always being the tenth nearest
    to the mean. *)
Theorem analytics_average_rating (now : Z) (st : store) :
  (~ report_answered now st ->
   get_analytics now st = (json 500 (BError "Internal server error"), st))
  /\
  (report_answered now st ->
   exists total avg by_type monthly by_rating recent,
     get_analytics now st
     = (json 200 (BReport total avg by_type monthly by_rating recent), st)
     /\ (rows st = [] -> avg = js "0.0")
     /\ (forall qs,
           ratings st qs -> qs <> [] ->
           Forall (fun q => 1 <= q <= 5)%Q qs ->
           exists k d n,
             k = Qfloor (mean qs * 10000 + (1 # 2))
             /\ (Qabs (inject_Z k / 10000 - mean qs) <= 1 # 20000)%Q
             /\ round_double (inject_Z k / 10000) = Fin d
             /\ (Qabs (d - inject_Z k / 10000)
                 <= inject_Z k / 10000 * Qpower 2 (-53))%Q
             /\ avg = tenths false n
             /\ 0 <= n
             /\ (Qabs (inject_Z n / 10 - d) <= 1 # 20)%Q
             /\ (Qabs (inject_Z n / 10 - mean qs) <= 501 # 10000)%Q)).
Proof.
  split; [apply get_analytics_refused|].
  intros A. destruct (get_analytics_answered now st A) as (t & m & d & E).
  eexists _, _, t, m, d, _. split; [exact E|]. split.
  - intros R. rewrite R. reflexivity.
  - intros qs R N F.
    destruct (average_rating_tenths st qs R N F) as (x & D & B & T).
    destruct (mean_decimal qs N F) as ((K1 & K2) & M & _).
    set (k := Qfloor (mean qs * 10000 + (1 # 2))) in *.
    exists k, x, (Qfloor (x * 10 + (1 # 2))).
    assert (Q1 : (1 <= inject_Z k / 10000)%Q).
    { rewrite Zle_Qle in K1. change (inject_Z 10000) with 10000%Q in K1.
      apply Qle_shift_div_l; [reflexivity|]. lra. }
    assert (Q2 : (inject_Z k / 10000 <= 5)%Q).
    { rewrite Zle_Qle in K2. change (inject_Z 50000) with 50000%Q in K2.
      apply Qle_shift_div_r; [reflexivity|]. lra. }
    assert (B' := B). rewrite pow2_m53 in B'.
    apply Qabs_Qle_condition in B' as [B1 B2].
    assert (P : (0 <= x)%Q) by lra.
    assert (Nt := nearest_tenth x).
    assert (N0 : 0 <= Qfloor (x * 10 + (1 # 2))).
    { change 0 with (Qfloor 0). apply Qfloor_resp_le. lra. }
    repeat split; try assumption.
    assert (M' := M). apply Qabs_Qle_condition in M' as [M1 M2].
    assert (Nt' := Nt). apply Qabs_Qle_condition in Nt' as [N1 N2].
    apply Qabs_Qle_condition. split; lra.
Qed.

End Analytics.

Lemma sample_answered now st : @report_answered sample_platform now st.
Proof. repeat split; discriminate. Qed.

(** C7 as stated fails.  Thirteen rows rated 4 and seven rated 5 have
    the mean 4.35, which rounds to 4.4, half up and half to even alike;
    the report says 4.3, the double nearest to 4.35 lying below it. *)
Lemma mean_435_displays_43 :
  (exists total recent,
     @get_analytics sample_platform 300 mixed_store
     = (json 200 (BReport total (js "4.3") [] [] [] recent), mixed_store))
  /\ @ratings sample_platform mixed_store mixed_ratings
  /\ (mean mixed_ratings == 435 # 100)%Q
  /\ tenths false (Qfloor (mean mixed_ratings * 10 + (1 # 2))) = js "4.4"
  /\ tenths false (round_half_even (mean mixed_ratings * 10)) = js "4.4".
Proof.
  split; [|repeat split].
  eexists. eexists. vm_compute. reflexivity.
Qed.

Lemma analytics_average_rating_witness :
  exists total avg by_type monthly by_rating recent n,
    @get_analytics sample_platform 200 two_rows
    = (json 200 (BReport total avg by_type monthly by_rating recent),
       two_rows)
    /\ avg = tenths false n
    /\ (Qabs (inject_Z n / 10 - mean [3; 5]) <= 501 # 10000)%Q.
Proof.
  destruct (proj2 (@analytics_average_rating sample_platform 200 two_rows)
              (sample_answered 200 two_rows))
    as (total & avg & t & m & d & recent & E & _ & A).
  destruct (A [3%Q; 5%Q]) as (k & x & n & _ & _ & _ & _ & T & _ & _ & B).
  - reflexivity.
  - discriminate.
  - repeat constructor; discriminate.
  - exists total, avg, t, m, d, recent, n.
    split; [exact E|]. split; [exact T|exact B].
Defined.

(** ** GET /api/search *)

Section Search.
Context {platform : Platform}.

(** The search handler, case by case. *)
Lemma get_search_falsy sq now st :
  truthy (sq_q sq) = false ->
  get_search sq now st
  = (json 400 (BError "Search query must be at least 2 characters"), st).
Proof. intros H. unfold get_search. now rewrite H. Qed.

Lemma get_search_short sq now st s :
  sq_q sq = VStr s -> (List.length (trim s) < 2)%nat ->
  get_search sq now st
  = (json 400 (BError "Search query must be at least 2 characters"), st).
Proof.
  intros E L. unfold get_search. rewrite E.
  destruct (truthy (VStr s)); [|reflexivity]. cbn [negb trim_method].
  apply Nat.ltb_lt in L. now rewrite L.
Qed.

Lemma get_search_not_string sq now st :
  truthy (sq_q sq) = true -> trim_method (sq_q sq) = None ->
  get_search sq now st = (json 500 (BError "Internal server error"), st).
Proof. intros T M. unfold get_search. now rewrite T, M. Qed.

Lemma get_search_long sq now st s :
  sq_q sq = VStr s -> (2 <= List.length (trim s))%nat ->
  let found :=
    sort_desc
      (filter (search_selects (trim s) (sq_type sq) (sq_rating sq))
         (rows st)) in
  get_search sq now st
  = (json 200 (BResults (firstn 50 found) (List.length (firstn 50 found))),
     st).
Proof.
  intros E L found. unfold get_search. rewrite E.
  assert (T : truthy (VStr s) = true).
  { destruct s; [simpl in L; lia|reflexivity]. }
  rewrite T. cbn [negb trim_method].
  replace (List.length (trim s) <? 2)%nat with false
    by (symmetry; apply Nat.ltb_ge; exact L).
  set (term := 37%N :: trim s ++ [37%N]).
  change (try_catch
            match execute
                    (SELECT
                       (fst (filtered (sq_type sq) (sq_rating sq)
                               (search_where,
                                [VStr term; VStr term; VStr term])))
                       true (LimitConst 50))
                    (snd (filtered (sq_type sq) (sq_rating sq)
                            (search_where,
                             [VStr term; VStr term; VStr term])))
                    now st with
            | Some (Rows rows, st') =>
                Some (json 200 (BResults rows (List.length rows)), st')
            | _ => None
            end st = (json 200 (BResults (firstn 50 found)
                                  (List.length (firstn 50 found))), st)).
  rewrite execute_select_limit
    by (apply filtered_well_built, search_where_well_built).
  cbn [try_catch]. unfold found.
  rewrite (filter_ext _ (search_selects (trim s) (sq_type sq) (sq_rating sq)));
    [reflexivity|].
  intros r. rewrite selected_filtered by apply search_where_well_built.
  cbn [fst snd]. now rewrite search_where_selected.
Qed.

(** C4. The search answers 400 exactly when [q] was not sent or is a
    string whose trimmed text has fewer than two characters.  The queries
    [""] and ["a"] are answered 400; the query ["ab"] is not. *)
Theorem get_search_rejects_iff (now : Z) (st : store) :
  (forall sq,
     query_value (sq_q sq) ->
     (status (fst (get_search sq now st)) = 400 <->
      sq_q sq = VUndefined
      \/ exists s, sq_q sq = VStr s /\ (List.length (trim s) < 2)%nat))
  /\ (forall sq, status (fst (get_search (with_q (str "") sq) now st)) = 400)
  /\ (forall sq, status (fst (get_search (with_q (str "a") sq) now st)) = 400)
  /\ (forall sq,
        status (fst (get_search (with_q (str "ab") sq) now st)) <> 400).
Proof.
  split; [|split; [|split]].
  - intros sq Q. destruct (sq_q sq) as [| | | |s|l|l] eqn:E;
      try contradiction.
    + rewrite get_search_falsy by now rewrite E. simpl. tauto.
    + destruct (Nat.lt_ge_cases (List.length (trim s)) 2) as [L|L].
      * rewrite (get_search_short sq now st s E L). simpl.
        split; [|reflexivity]. intros _. right. now exists s.
      * rewrite (get_search_long sq now st s E L). simpl.
        split; [discriminate|].
        intros [H|(s' & H & L')]; [discriminate|].
        injection H as <-. lia.
    + rewrite get_search_not_string by now rewrite E. simpl.
      split; [discriminate|]. intros [H|(s & H & _)]; discriminate.
    + rewrite get_search_not_string by now rewrite E. simpl.
      split; [discriminate|]. intros [H|(s & H & _)]; discriminate.
  - intros sq. now rewrite get_search_falsy.
  - intros sq.
    assert (L : (List.length (trim (js "a")) < 2)%nat) by (simpl; lia).
    now rewrite (get_search_short (with_q (str "a") sq) now st (js "a")
                   eq_refl L).
  - intros sq.
    assert (L : (2 <= List.length (trim (js "ab")))%nat) by (simpl; lia).
    rewrite (get_search_long (with_q (str "ab") sq) now st (js "ab")
               eq_refl L).
    simpl. discriminate.
Qed.

(** C5, as amended. For a query whose trimmed text [t] has at least two
    characters, none of them [%], [_] or a backslash, the search answers
    200 with the first 50 of the matching rows in newest-first order,
    and their number.  A row matches when [t] occurs, letter case aside,
    in its detailed_feedback, its subject_course or its name, and the
    optional type and rating filters hold. *)
Theorem get_search_results (sq : search_query) (now : Z) (st : store)
  (s : jsstring) :
  sq_q sq = VStr s -> (2 <= List.length (trim s))%nat -> plain (trim s) ->
  exists found,
    Permutation found
      (filter (search_matches (trim s) (sq_type sq) (sq_rating sq))
         (rows st))
    /\ newest_first found
    /\ get_search sq now st
       = (json 200
            (BResults (firstn 50 found) (List.length (firstn 50 found))),
          st)
    /\ newest_first (firstn 50 found)
    /\ (List.length (firstn 50 found) <= 50)%nat
    /\ (forall r,
          In r found <->
          In r (rows st)
          /\ (cell_contains (trim s) (row_detailed_feedback r)
              \/ cell_contains (trim s) (row_subject_course r)
              \/ cell_contains (trim s) (row_name r))
          /\ type_filter (sq_type sq) r = true
          /\ rating_filter (sq_rating sq) r = true).
Proof.
  intros E L P.
  exists (sort_desc
            (filter (search_matches (trim s) (sq_type sq) (sq_rating sq))
               (rows st))).
  split; [apply sort_desc_perm|]. split; [apply sort_desc_sorted|].
  split; [|split; [|split]].
  - rewrite (get_search_long sq now st s E L). cbv zeta.
    rewrite (filter_ext _ (search_matches (trim s) (sq_type sq)
                             (sq_rating sq))); [reflexivity|].
    intros r. now apply search_selects_matches.
  - apply newest_first_firstn, sort_desc_sorted.
  - apply firstn_le_length.
  - intros r. rewrite (perm_in_iff r _ _ (sort_desc_perm _)).
    rewrite filter_In. unfold search_matches.
    rewrite !andb_true_iff, !orb_true_iff, !cell_containsb_iff. tauto.
Qed.

(** The text [%%] occurs in no column of the sample row, and on every
    platform the search for it returns that row. *)
Lemma search_percent_any_platform :
  fst (get_search percent_query 200 alice_store)
  = json 200 (BResults [alice_row] 1)
  /\ ~ (cell_contains (js "%%") (row_detailed_feedback alice_row)
        \/ cell_contains (js "%%") (row_subject_course alice_row)
        \/ cell_contains (js "%%") (row_name alice_row)).
Proof.
  split; [reflexivity|].
  rewrite <- !cell_containsb_iff.
  intros [H|[H|H]]; discriminate H.
Qed.

End Search.

(** C5 as stated fails: [%%] occurs in no column of the one stored row,
    and the search for it returns that row. *)
Lemma search_percent_returns_all :
  fst (@get_search sample_platform percent_query 200 alice_store)
  = json 200 (BResults [alice_row] 1)
  /\ ~ (@cell_contains sample_platform (js "%%")
          (row_detailed_feedback alice_row)
        \/ @cell_contains sample_platform (js "%%")
             (row_subject_course alice_row)
        \/ @cell_contains sample_platform (js "%%") (row_name alice_row)).
Proof. exact (@search_percent_any_platform sample_platform). Qed.

Lemma get_search_results_witness :
  exists found,
    @get_search sample_platform lic_query 200 alice_store
    = (json 200 (BResults (firstn 50 found) (List.length (firstn 50 found))),
       alice_store)
    /\ (forall r, In r found <-> r = alice_row).
Proof.
  destruct (@get_search_results sample_platform lic_query 200 alice_store
              (js " LIC ") eq_refl)
    as (found & Pm & _ & E & _ & _ & _).
  - simpl. lia.
  - apply plainb_plain. reflexivity.
  - exists found. split; [exact E|].
    intros r. rewrite (perm_in_iff r _ _ Pm).
    change (In r [alice_row] <-> r = alice_row). simpl. intuition.
Defined.

(** ** Reachable tables *)

Section Invariants.
Context {platform : Platform}.

(** A SELECT leaves the table as it is. *)
Lemma execute_select_store w o l ps now st r st' :
  execute (SELECT w o l) ps now st = Some (r, st') -> st' = st.
Proof.
  unfold execute. destruct (bind_all ps) as [qs|]; [|discriminate].
  destruct (negb _); [discriminate|].
  destruct l as [|k|]; try (intros H; now injection H).
  destruct (skipn (cond_params w) qs) as [|a [|b [|c t]]]; try discriminate.
  destruct (as_count a), (as_count b); try discriminate.
  intros H; now injection H.
Qed.

Lemma execute_count_store w ps now st r st' :
  execute (SELECT_COUNT w) ps now st = Some (r, st') -> st' = st.
Proof.
  unfold execute. destruct (bind_all ps) as [qs|]; [|discriminate].
  destruct (negb _); [discriminate|]. intros H; now injection H.
Qed.

Lemma get_feedback_store q now st : snd (get_feedback q now st) = st.
Proof.
  unfold get_feedback.
  destruct (execute (SELECT _ _ _) _ now st) as [[[rs| |] st1]|] eqn:E1;
    try reflexivity.
  apply execute_select_store in E1 as ->.
  destruct (execute (SELECT_COUNT _) _ now st) as [[[| t |] st2]|] eqn:E2;
    try reflexivity.
  now apply execute_count_store in E2 as ->.
Qed.

Lemma get_feedback_by_id_store id now st :
  snd (get_feedback_by_id id now st) = st.
Proof.
  rewrite get_feedback_by_id_found.
  now destruct (filter (id_matches id) (rows st)).
Qed.

Lemma get_analytics_store now st : snd (get_analytics now st) = st.
Proof.
  rewrite get_analytics_report.
  destruct (grouped FEEDBACK_BY_TYPE _ _); [|reflexivity].
  destruct (grouped MONTHLY_STATS _ _); [|reflexivity].
  now destruct (grouped RATING_DISTRIBUTION _ _).
Qed.

Lemma get_search_store sq now st : snd (get_search sq now st) = st.
Proof.
  unfold get_search. destruct (negb (truthy (sq_q sq))); [reflexivity|].
  destruct (trim_method (sq_q sq)) as [t|]; [|reflexivity].
  destruct (List.length t <? 2)%nat; [reflexivity|].
  destruct (execute (SELECT _ _ _) _ now st) as [[[rs| |] st1]|] eqn:E1;
    try reflexivity.
  now apply execute_select_store in E1 as ->.
Qed.

Lemma set_cell_id c v r r' : set_cell c v r = Some r' -> row_id r' = row_id r.
Proof. destruct r, c; simpl; intros H; now inversion H. Qed.

Lemma set_cells_id cs : forall vs r r',
  set_cells cs vs r = Some r' -> row_id r' = row_id r.
Proof.
  induction cs as [|c cs IH]; intros [|v vs] r r'; simpl; try discriminate.
  - intros H; now injection H as <-.
  - destruct (set_cell c v r) as [r1|] eqn:E; [|discriminate].
    intros H. rewrite (IH _ _ _ H). now apply set_cell_id in E.
Qed.

Lemma update_rows_ids sel f :
  (forall r r', f r = Some r' -> row_id r' = row_id r) ->
  forall rs rs', update_rows sel f rs = Some rs' ->
  map row_id rs' = map row_id rs.
Proof.
  intros Hf. induction rs as [|r rs IH]; intros rs'; simpl.
  - intros H; now injection H as <-.
  - destruct (sel r).
    + destruct (f r) as [r1|] eqn:E; [|discriminate].
      destruct (update_rows sel f rs) as [rs1|]; [|discriminate].
      intros H; injection H as <-. simpl.
      now rewrite (Hf _ _ E), (IH rs1 eq_refl).
    + destruct (update_rows sel f rs) as [rs1|]; [|discriminate].
      intros H; injection H as <-. simpl. now rewrite (IH rs1 eq_refl).
Qed.

Lemma well_formed_ids st st' :
  next_id st' = next_id st -> map row_id (rows st') = map row_id (rows st) ->
  well_formed st -> well_formed st'.
Proof.
  intros N M [P F]. split; [now rewrite N|]. rewrite N.
  apply Forall_map with (f := row_id) (P := fun i => 0 < i < next_id st).
  rewrite M. now apply Forall_map.
Qed.

Lemma put_feedback_well_formed id b now st :
  well_formed st -> well_formed (snd (put_feedback id b now st)).
Proof.
  intros W. unfold put_feedback.
  destruct (execute update_feedback _ now st) as [[[| |i n] st1]|] eqn:E;
    try exact W.
  assert (W1 : well_formed st1).
  { unfold execute, update_feedback in E.
    destruct (bind_all _) as [ps|]; [|discriminate].
    destruct (negb _); [discriminate|].
    destruct (update_rows _ _ (rows st)) as [rs|] eqn:U; [|discriminate].
    injection E as _ _ <-. apply (well_formed_ids st); [reflexivity| |exact W].
    cbn [rows]. apply (update_rows_ids _ _) with (2 := U).
    intros r r' H. destruct (set_cells _ _ r) as [r1|] eqn:S; [|discriminate].
    simpl in H. injection H as <-. now apply set_cells_id in S. }
  now destruct (n =? 0)%nat.
Qed.

Lemma post_feedback_well_formed b now st :
  well_formed st -> well_formed (snd (post_feedback b now st)).
Proof.
  intros [P F]. destruct (accepts b) eqn:A.
  - rewrite (post_feedback_accepted b now st A). split; cbn [snd rows next_id].
    + lia.
    + apply Forall_app. split.
      * eapply Forall_impl; [|exact F]. simpl. lia.
      * constructor; [|constructor]. simpl. lia.
  - destruct (post_feedback_refused b now st A) as (msg & ->). now split.
Qed.

Lemma delete_feedback_well_formed authHeader id now st :
  well_formed st -> well_formed (snd (delete_feedback authHeader id now st)).
Proof.
  intros [P F]. unfold delete_feedback, authenticateToken.
  destruct (negb (truthy (bearer_token authHeader))); [now split|].
  destruct (jwt_verify _); [|now split].
  unfold delete_handler. rewrite execute_delete_by_id.
  destruct (List.length (filter (id_matches id) (rows st)) =? 0)%nat;
    cbn [try_catch snd rows]; (split; [exact P|]); cbn [rows next_id];
    rewrite Forall_forall in *; intros r I; apply filter_In in I as [I _];
    now apply F.
Qed.

(** Every request keeps the table well formed. *)
Lemma route_well_formed req now st :
  well_formed st -> well_formed (snd (route req now st)).
Proof.
  destruct req; cbn [route].
  - apply post_feedback_well_formed.
  - now rewrite get_feedback_store.
  - now rewrite get_feedback_by_id_store.
  - apply put_feedback_well_formed.
  - apply delete_feedback_well_formed.
  - now rewrite get_analytics_store.
  - now rewrite get_search_store.
Qed.

Lemma reachable_well_formed st : reachable st -> well_formed st.
Proof.
  induction 1 as [|st req now _ IH].
  - split; [reflexivity|constructor].
  - now apply route_well_formed.
Qed.

(** The table of the departure from C1 is one the server can be in: a
    submission to the empty table, then an update. *)
Lemma nine_store_reachable : reachable nine_store.
Proof.
  change nine_store
    with (snd (route (PUT_feedback_id (js "1") nine) 200 alice_store)).
  apply reachable_step.
  change alice_store with (snd (route (POST_feedback alice) 100 empty_store)).
  apply reachable_step. exact reachable_empty.
Qed.

End Invariants.

(* ================================================================= *)
(** * Part VIII: the routes together, and their edges *)

(** ** Updates *)

Lemma filter_length_zero {A} (f : A -> bool) l :
  (List.length (filter f l) =? 0)%nat = negb (existsb f l).
Proof.
  induction l as [|x l IH]; [reflexivity|]. simpl.
  destruct (f x); [reflexivity|exact IH].
Qed.

Lemma map_unselected {A} (f : A -> bool) (g : A -> A) l :
  existsb f l = false -> map (fun x => if f x then g x else x) l = l.
Proof.
  induction l as [|x l IH]; [reflexivity|]. simpl. intros H.
  apply orb_false_iff in H as [-> H]. now rewrite IH.
Qed.

Lemma update_rows_map sel f g :
  (forall r, f r = Some (g r)) ->
  forall rs,
    update_rows sel f rs = Some (map (fun r => if sel r then g r else r) rs).
Proof.
  intros Hf. induction rs as [|r rs IH]; [reflexivity|].
  simpl. rewrite IH, Hf. now destruct (sel r).
Qed.

Lemma undefined_dec v : {VUndefined = v} + {v <> VUndefined}.
Proof. destruct v; (now left) || (right; discriminate). Qed.

Section Update.
Context {platform : Platform}.

Lemma bind_all_undefined vs : In VUndefined vs -> bind_all vs = None.
Proof.
  induction vs as [|v vs IH]; [contradiction|]. intros [->|I]; [reflexivity|].
  simpl. rewrite (IH I). now destruct (bind v).
Qed.

Lemma put_feedback_sent id b now st :
  all_sent b ->
  put_feedback id b now st
  = if existsb (id_matches id) (rows st)
    then (json 200 (BMessage "Feedback updated successfully"),
          {| rows := map (fun r => if id_matches id r
                                   then updated_row b now r else r) (rows st);
             next_id := next_id st |})
    else (json 404 (BError "Feedback not found"), st).
Proof.
  intros (N & E & T & S & O & D).
  unfold put_feedback, execute.
  rewrite bind_all_defined by (repeat constructor; (assumption || discriminate)).
  cbn [map List.length placeholders update_feedback cond_params Nat.add
       Nat.eqb negb firstn skipn].
  rewrite (update_rows_map _ _ (updated_row b now))
    by (intros []; reflexivity).
  change (selected now (CEq c_id) [bound (VStr id)]) with (id_matches id).
  rewrite filter_length_zero.
  destruct (existsb (id_matches id) (rows st)) eqn:X; cbn [negb try_catch].
  - reflexivity.
  - rewrite map_unselected by exact X. now rewrite store_eta.
Qed.

(** X1.  PUT /api/feedback/:id with every member sent.  When no row has the
    id the answer is 404 and the table is as it was.  Otherwise the
    answer is 200, and every row with the id has its six columns
    replaced by the bound values and its [updated_at] set, keeping its
    id and submission date; the other rows, the order of the rows and the
    counter are as they were. *)
Theorem put_feedback_outcomes (id : jsstring) (b : feedback_body) (now : Z)
  (st : store) :
  all_sent b ->
  ((forall r, In r (rows st) -> id_matches id r = false) ->
   put_feedback id b now st = (json 404 (BError "Feedback not found"), st))
  /\
  ((exists r, In r (rows st) /\ id_matches id r = true) ->
   put_feedback id b now st
   = (json 200 (BMessage "Feedback updated successfully"),
      {| rows := map (fun r => if id_matches id r
                               then updated_row b now r else r) (rows st);
         next_id := next_id st |})).
Proof.
  intros A. rewrite (put_feedback_sent id b now st A). split.
  - intros H. destruct (existsb _ _) eqn:X; [|reflexivity].
    apply existsb_exists in X as (r & I & M). rewrite (H r I) in M.
    discriminate.
  - intros H. apply existsb_exists in H. now rewrite H.
Qed.

(** X2.  PUT /api/feedback/:id with a member of the body left out: the
    statement is refused before it reaches the store, whatever the id;
    the answer is 500 and the table is as it was. *)
Theorem put_feedback_member_not_sent (id : jsstring) (b : feedback_body)
  (now : Z) (st : store) :
  ~ all_sent b ->
  put_feedback id b now st
  = (json 500 (BError "Internal server error"), st).
Proof.
  intros H. unfold put_feedback, execute.
  rewrite bind_all_undefined; [reflexivity|].
  destruct (undefined_dec (b_name b)) as [<-|N]; [now left|].
  destruct (undefined_dec (b_email b)) as [<-|E]; [now right; left|].
  destruct (undefined_dec (b_feedback_type b)) as [<-|T];
    [now right; right; left|].
  destruct (undefined_dec (b_subject_course b)) as [<-|S];
    [now right; right; right; left|].
  destruct (undefined_dec (b_overall_rating b)) as [<-|O];
    [now right; right; right; right; left|].
  destruct (undefined_dec (b_detailed_feedback b)) as [<-|D];
    [now right; right; right; right; right; left|].
  exfalso. apply H. repeat split; assumption.
Qed.

End Update.

Lemma put_feedback_outcomes_witness :
  @put_feedback sample_platform (js "1") nine 200 alice_store
  = (json 200 (BMessage "Feedback updated successfully"), nine_store).
Proof.
  apply (proj2 (@put_feedback_outcomes sample_platform (js "1") nine 200
                  alice_store
                  ltac:(repeat split; discriminate))).
  exists alice_row. split; [now left|reflexivity].
Defined.

Lemma put_feedback_member_not_sent_witness :
  @put_feedback sample_platform (js "1") alice 200 alice_store
  = (json 500 (BError "Internal server error"), alice_store).
Proof.
  apply (@put_feedback_member_not_sent sample_platform).
  intros (_ & _ & _ & _ & _ & D). now apply D.
Defined.

(** ** Reachable tables: ids *)

Lemma sorted_snoc l x :
  StronglySorted Z.lt l -> Forall (fun y => y < x) l ->
  StronglySorted Z.lt (l ++ [x]).
Proof.
  induction 1 as [|a l S IH F]; intros B.
  - repeat constructor.
  - apply Forall_cons_iff in B as [Ba B]. simpl. constructor; [now apply IH|].
    apply Forall_app. split; [exact F|]. now constructor.
Qed.

Lemma sorted_filter_map (f : row -> bool) l :
  StronglySorted Z.lt (map row_id l) ->
  StronglySorted Z.lt (map row_id (filter f l)).
Proof.
  induction l as [|a l IH]; [trivial|]. simpl. intros S.
  apply StronglySorted_inv in S as [S F].
  destruct (f a); [|now apply IH]. simpl. constructor; [now apply IH|].
  rewrite Forall_map in *. rewrite Forall_forall in *.
  intros x I. apply filter_In in I as [I _]. now apply F.
Qed.

Lemma sorted_NoDup l : StronglySorted Z.lt l -> NoDup l.
Proof.
  induction 1 as [|a l S IH F]; constructor; [|exact IH].
  intros I. rewrite Forall_forall in F. specialize (F a I). lia.
Qed.

Lemma filter_one_id (rs : list row) r :
  NoDup (map row_id rs) -> In r rs ->
  filter (fun x => row_id x =? row_id r) rs = [r].
Proof.
  induction rs as [|a rs IH]; [contradiction|]. simpl.
  intros N I. apply NoDup_cons_iff in N as [Na N].
  destruct I as [->|I].
  - rewrite Z.eqb_refl. f_equal. apply filter_nil_iff.
    intros x Ix. apply Z.eqb_neq. intros E. apply Na. rewrite <- E.
    now apply in_map.
  - destruct (Z.eqb_spec (row_id a) (row_id r)) as [E|_]; [|now apply IH].
    exfalso. apply Na. rewrite E. now apply in_map.
Qed.

Section Ids.
Context {platform : Platform}.

Lemma put_feedback_ids id b now st :
  map row_id (rows (snd (put_feedback id b now st))) = map row_id (rows st)
  /\ next_id (snd (put_feedback id b now st)) = next_id st.
Proof.
  unfold put_feedback.
  destruct (execute update_feedback _ now st) as [[[| |i n] st1]|] eqn:E;
    try (split; reflexivity).
  assert (W1 : map row_id (rows st1) = map row_id (rows st)
               /\ next_id st1 = next_id st).
  { unfold execute, update_feedback in E.
    destruct (bind_all _) as [ps|]; [|discriminate].
    destruct (negb _); [discriminate|].
    destruct (update_rows _ _ (rows st)) as [rs|] eqn:U; [|discriminate].
    injection E as _ _ <-. split; [|reflexivity].
    cbn [rows]. apply (update_rows_ids _ _) with (2 := U).
    intros r r' H. destruct (set_cells _ _ r) as [r1|] eqn:S; [|discriminate].
    simpl in H. injection H as <-. now apply set_cells_id in S. }
  now destruct (n =? 0)%nat.
Qed.

Lemma delete_feedback_rows authHeader id now st :
  snd (delete_feedback authHeader id now st) = st
  \/ snd (delete_feedback authHeader id now st)
     = {| rows := filter (fun r => negb (id_matches id r)) (rows st);
          next_id := next_id st |}.
Proof.
  unfold delete_feedback, authenticateToken.
  destruct (negb (truthy (bearer_token authHeader))); [now left|].
  destruct (jwt_verify _); [|now left].
  unfold delete_handler. rewrite execute_delete_by_id.
  now destruct (List.length (filter (id_matches id) (rows st)) =? 0)%nat;
    right.
Qed.

Lemma post_feedback_rows b now st :
  snd (post_feedback b now st) = st
  \/ snd (post_feedback b now st)
     = {| rows := rows st ++ [new_row b (next_id st) now];
          next_id := next_id st + 1 |}.
Proof.
  destruct (accepts b) eqn:A.
  - right. now rewrite (post_feedback_accepted b now st A).
  - left. now destruct (post_feedback_refused b now st A) as (msg & ->).
Qed.

Lemma route_ids_increasing req now st :
  well_formed st -> StronglySorted Z.lt (map row_id (rows st)) ->
  StronglySorted Z.lt (map row_id (rows (snd (route req now st)))).
Proof.
  intros [P F] S. destruct req; cbn [route].
  - destruct (post_feedback_rows b now st) as [->| ->]; [exact S|].
    cbn [rows]. rewrite map_app. apply sorted_snoc; [exact S|].
    rewrite Forall_map. eapply Forall_impl; [|exact F]. simpl. lia.
  - now rewrite get_feedback_store.
  - now rewrite get_feedback_by_id_store.
  - now rewrite (proj1 (put_feedback_ids id b now st)).
  - destruct (delete_feedback_rows authHeader id now st) as [->| ->];
      [exact S|]. now apply sorted_filter_map.
  - now rewrite get_analytics_store.
  - now rewrite get_search_store.
Qed.

Lemma reachable_ids_increasing st :
  reachable st -> StronglySorted Z.lt (map row_id (rows st)).
Proof.
  induction 1 as [|st req now R IH]; [constructor|].
  apply route_ids_increasing; [now apply reachable_well_formed|exact IH].
Qed.

(** X4.  In every table the server can reach, the ids are positive, below
    the AUTO_INCREMENT counter and increasing in table order; no two rows
    share an id. *)
Theorem reachable_ids (st : store) :
  reachable st ->
  0 < next_id st
  /\ Forall (fun r => 0 < row_id r < next_id st) (rows st)
  /\ StronglySorted Z.lt (map row_id (rows st))
  /\ NoDup (map row_id (rows st)).
Proof.
  intros R. destruct (reachable_well_formed st R) as [P F].
  repeat split; try assumption.
  - now apply reachable_ids_increasing.
  - now apply sorted_NoDup, reachable_ids_increasing.
Qed.

End Ids.

Lemma reachable_ids_witness :
  NoDup (map row_id (rows nine_store)).
Proof.
  apply (@reachable_ids sample_platform nine_store).
  apply nine_store_reachable.
Defined.

(** ** Reading a reachable table by id *)

Section Lookup.
Context {platform : Platform}.

Lemma filter_id_decimal i rs :
  0 <= i ->
  filter (id_matches (decimal_Z i)) rs = filter (fun r => row_id r =? i) rs.
Proof.
  intros H. apply filter_ext. intros r. now apply id_matches_decimal.
Qed.

Lemma get_feedback_by_id_one now st r :
  well_formed st -> NoDup (map row_id (rows st)) -> In r (rows st) ->
  get_feedback_by_id (decimal_Z (row_id r)) now st = (json 200 (BRow r), st).
Proof.
  intros [_ F] N I. rewrite get_feedback_by_id_found.
  rewrite Forall_forall in F. specialize (F r I).
  rewrite filter_id_decimal by lia. now rewrite filter_one_id.
Qed.

(** X6.  GET /api/feedback/:id on a table the server can reach, the id
    written as a decimal numeral: a row of the table is returned for its
    own id, and an id no row has is answered 404. *)
Theorem get_feedback_by_id_lookup (now : Z) (st : store) :
  reachable st ->
  (forall r, In r (rows st) ->
     get_feedback_by_id (decimal_Z (row_id r)) now st
     = (json 200 (BRow r), st))
  /\ (forall i, 0 <= i -> ~ In i (map row_id (rows st)) ->
        get_feedback_by_id (decimal_Z i) now st
        = (json 404 (BError "Feedback not found"), st)).
Proof.
  intros R. split.
  - intros r I. apply get_feedback_by_id_one; [| |exact I].
    + now apply reachable_well_formed.
    + now apply sorted_NoDup, reachable_ids_increasing.
  - intros i P A. apply get_feedback_by_id_absent. intros r I.
    rewrite id_matches_decimal by exact P. apply Z.eqb_neq. intros E.
    apply A. rewrite <- E. now apply in_map.
Qed.

(** X3.  PUT then GET, the id written as a decimal numeral.  On a table the
    server can reach, an update with every member sent of a row that
    exists is read back as that row with the six columns replaced, the
    time of the update in [updated_at], and its id and submission date
    kept. *)
Theorem update_then_read (b : feedback_body) (now now' : Z) (st : store)
  (r : row) :
  reachable st -> In r (rows st) -> all_sent b ->
  let id := decimal_Z (row_id r) in
  exists st',
    put_feedback id b now st
    = (json 200 (BMessage "Feedback updated successfully"), st')
    /\ get_feedback_by_id id now' st'
       = (json 200 (BRow (updated_row b now r)), st').
Proof.
  intros R I A id.
  assert (W := reachable_well_formed st R).
  assert (P : 0 <= row_id r).
  { destruct W as [_ F]. rewrite Forall_forall in F. specialize (F r I). lia. }
  assert (M : id_matches id r = true).
  { unfold id. rewrite id_matches_decimal by exact P. apply Z.eqb_refl. }
  assert (X : existsb (id_matches id) (rows st) = true).
  { apply existsb_exists. now exists r. }
  assert (U := put_feedback_sent id b now st A). rewrite X in U.
  eexists. split; [exact U|].
  set (st' := {| rows := _ |}) in *.
  assert (R' : reachable st').
  { replace st' with (snd (route (PUT_feedback_id id b) now st)).
    - now apply reachable_step.
    - cbn [route]. now rewrite U. }
  change id with (decimal_Z (row_id (updated_row b now r))).
  apply get_feedback_by_id_one.
  - now apply reachable_well_formed.
  - now apply sorted_NoDup, reachable_ids_increasing.
  - unfold st'. cbn [rows]. apply in_map_iff. exists r. now rewrite M.
Qed.

End Lookup.

Lemma alice_store_reachable {platform : Platform} : reachable alice_store.
Proof.
  change alice_store with (snd (route (POST_feedback alice) 100 empty_store)).
  apply reachable_step. exact reachable_empty.
Qed.

Lemma two_rows_reachable {platform : Platform} : reachable two_rows.
Proof.
  change two_rows with (snd (route (POST_feedback bob) 160 alice_store)).
  apply reachable_step. exact alice_store_reachable.
Qed.

Lemma get_feedback_by_id_lookup_witness :
  @get_feedback_by_id sample_platform (js "2") 300 two_rows
  = (json 200 (BRow bob_row), two_rows).
Proof.
  apply (proj1 (@get_feedback_by_id_lookup sample_platform 300 two_rows
                  two_rows_reachable) bob_row).
  right. now left.
Defined.

Lemma update_then_read_witness :
  exists st',
    @put_feedback sample_platform (js "1") nine 200 alice_store
    = (json 200 (BMessage "Feedback updated successfully"), st')
    /\ @get_feedback_by_id sample_platform (js "1") 300 st'
       = (json 200 (BRow (@updated_row sample_platform nine 200 alice_row)),
          st').
Proof.
  apply (@update_then_read sample_platform nine 200 300 alice_store alice_row).
  - exact alice_store_reachable.
  - now left.
  - repeat split; discriminate.
Defined.

(** ** What changes the table *)

Lemma update_rows_unselected sel f : forall rs rs',
  update_rows sel f rs = Some rs' -> filter sel rs = [] -> rs' = rs.
Proof.
  induction rs as [|r rs IH]; intros rs'; simpl.
  - intros H _. now injection H.
  - destruct (sel r); [discriminate 2|].
    destruct (update_rows sel f rs) as [rs1|]; [|discriminate].
    intros H N. injection H as <-. now rewrite (IH rs1 eq_refl N).
Qed.

Section Changes.
Context {platform : Platform}.

Lemma put_feedback_changes id b now st :
  snd (put_feedback id b now st) <> st ->
  status (fst (put_feedback id b now st)) = 200.
Proof.
  unfold put_feedback.
  destruct (execute update_feedback _ now st) as [[[| |i n] st1]|] eqn:E;
    try (intros H; now elim H).
  destruct (n =? 0)%nat eqn:Z; [|reflexivity]. cbn [try_catch snd].
  intros H. elim H. clear H. apply Nat.eqb_eq in Z.
  unfold execute, update_feedback in E.
  destruct (bind_all _) as [ps|]; [|discriminate].
  destruct (negb _); [discriminate|].
  destruct (update_rows _ _ (rows st)) as [rs|] eqn:U; [|discriminate].
  injection E as _ <- <-. apply length_zero_iff_nil in Z.
  rewrite (update_rows_unselected _ _ _ _ U Z). apply store_eta.
Qed.

Lemma delete_feedback_changes authHeader id now st :
  snd (delete_feedback authHeader id now st) <> st ->
  status (fst (delete_feedback authHeader id now st)) = 200.
Proof.
  unfold delete_feedback, authenticateToken.
  destruct (negb (truthy (bearer_token authHeader)));
    [intros H; now elim H|].
  destruct (jwt_verify _); [|intros H; now elim H].
  destruct (filter (id_matches id) (rows st)) eqn:F.
  - rewrite (delete_handler_absent id now st F). intros H. now elim H.
  - rewrite delete_handler_present by (rewrite F; discriminate). reflexivity.
Qed.

Lemma post_feedback_changes b now st :
  snd (post_feedback b now st) <> st ->
  status (fst (post_feedback b now st)) = 201.
Proof.
  destruct (accepts b) eqn:A.
  - now rewrite (post_feedback_accepted b now st A).
  - destruct (post_feedback_refused b now st A) as (msg & ->).
    intros H. now elim H.
Qed.

(** X7.  The table changes only by a POST answered 201, a PUT answered 200 or
    a DELETE answered 200.  The four GET routes leave it as it is, and so
    does every request answered 400, 401, 403, 404 or 500. *)
Theorem table_changes_only_on_success (req : request) (now : Z)
  (st : store) :
  snd (route req now st) <> st ->
  (exists b, req = POST_feedback b)
  /\ status (fst (route req now st)) = 201
  \/ (exists id b, req = PUT_feedback_id id b)
     /\ status (fst (route req now st)) = 200
  \/ (exists authHeader id, req = DELETE_feedback_id authHeader id)
     /\ status (fst (route req now st)) = 200.
Proof.
  destruct req; cbn [route]; intros H.
  - left. split; [now exists b|now apply post_feedback_changes].
  - now rewrite get_feedback_store in H.
  - now rewrite get_feedback_by_id_store in H.
  - right. left. split; [now exists id, b|now apply put_feedback_changes].
  - right. right. split; [now exists authHeader, id|].
    now apply delete_feedback_changes.
  - now rewrite get_analytics_store in H.
  - now rewrite get_search_store in H.
Qed.

End Changes.

Lemma table_changes_only_on_success_witness :
  status (fst (@route sample_platform (PUT_feedback_id (js "1") nine) 200
                 alice_store)) = 200.
Proof.
  destruct (@table_changes_only_on_success sample_platform
              (PUT_feedback_id (js "1") nine) 200 alice_store)
    as [[[b E] _]|[[_ S]|[(h & i & E) _]]].
  - discriminate.
  - discriminate E.
  - exact S.
  - discriminate E.
Defined.

(** ** After a deletion *)

Lemma filter_negb_none {A} (f : A -> bool) l :
  filter f (filter (fun x => negb (f x)) l) = [].
Proof.
  apply filter_nil_iff. intros x I. apply filter_In in I as [_ N].
  now apply negb_true_iff in N.
Qed.

Section AfterDelete.
Context {platform : Platform}.

Lemma delete_feedback_done authHeader id now st :
  status (fst (delete_feedback authHeader id now st)) = 200 ->
  truthy (bearer_token authHeader) = true
  /\ jwt_verify (to_string (bearer_token authHeader)) = true
  /\ snd (delete_feedback authHeader id now st)
     = {| rows := filter (fun r => negb (id_matches id r)) (rows st);
          next_id := next_id st |}.
Proof.
  unfold delete_feedback, authenticateToken.
  destruct (truthy (bearer_token authHeader)); [|discriminate].
  destruct (jwt_verify _); [|discriminate]. cbn [negb].
  destruct (filter (id_matches id) (rows st)) eqn:F.
  - rewrite (delete_handler_absent id now st F). discriminate.
  - rewrite delete_handler_present by (rewrite F; discriminate). now intros _.
Qed.

(** X8.  After a DELETE answered 200 no row has the id any more.  A GET of
    the same id and a PUT of the same id with every member sent are
    answered 404, and so is the handler of a later DELETE once the
    middleware lets the request through.  A later DELETE of the id is
    answered 401, 403 or 404, whatever its header and whatever becomes
    of its token, never 200.  All of them leave the table as the deletion
    left it. *)
Theorem delete_then_absent (authHeader : option jsstring) (id : jsstring)
  (b : feedback_body) (now now' : Z) (st : store) :
  status (fst (delete_feedback authHeader id now st)) = 200 ->
  all_sent b ->
  let st' := snd (delete_feedback authHeader id now st) in
  get_feedback_by_id id now' st'
  = (json 404 (BError "Feedback not found"), st')
  /\ put_feedback id b now' st'
     = (json 404 (BError "Feedback not found"), st')
  /\ delete_handler id now' st'
     = (json 404 (BError "Feedback not found"), st')
  /\ (forall later : option jsstring,
        snd (delete_feedback later id now' st') = st'
        /\ (status (fst (delete_feedback later id now' st')) = 401
            \/ status (fst (delete_feedback later id now' st')) = 403
            \/ status (fst (delete_feedback later id now' st')) = 404)).
Proof.
  intros S A st'. destruct (delete_feedback_done _ _ _ _ S) as (_ & _ & E).
  assert (N : filter (id_matches id) (rows st') = []).
  { unfold st'. rewrite E. apply filter_negb_none. }
  assert (D := delete_handler_absent id now' st' N).
  split; [|split; [|split]].
  - rewrite get_feedback_by_id_found. now rewrite N.
  - rewrite (put_feedback_sent id b now' st' A).
    destruct (existsb _ _) eqn:X; [|reflexivity].
    apply existsb_exists in X as (r & I & M).
    rewrite (proj1 (filter_nil_iff _ _) N r I) in M. discriminate.
  - exact D.
  - intros later. unfold delete_feedback, authenticateToken.
    destruct (negb (truthy (bearer_token later))); [now split; [|left]|].
    destruct (jwt_verify _); [|now split; [|right; left]].
    rewrite D. now split; [|right; right].
Qed.

End AfterDelete.

Lemma delete_then_absent_witness :
  @get_feedback_by_id sample_platform (js "1") 300
    {| rows := []; next_id := 2 |}
  = (json 404 (BError "Feedback not found"), {| rows := []; next_id := 2 |}).
Proof.
  apply (@delete_then_absent sample_platform (Some (js "Bearer valid-token"))
           (js "1") nine 200 300 alice_store).
  - reflexivity.
  - repeat split; discriminate.
Defined.

(** ** Ids over a sequence of requests *)

Section Traces.
Context {platform : Platform}.

Lemma route_next_id req now st :
  next_id st <= next_id (snd (route req now st)).
Proof.
  destruct req; cbn [route].
  - destruct (post_feedback_rows b now st) as [->| ->]; cbn [next_id]; lia.
  - rewrite get_feedback_store. lia.
  - rewrite get_feedback_by_id_store. lia.
  - rewrite (proj2 (put_feedback_ids id b now st)). lia.
  - destruct (delete_feedback_rows authHeader id now st) as [->| ->];
      cbn [next_id]; lia.
  - rewrite get_analytics_store. lia.
  - rewrite get_search_store. lia.
Qed.

Lemma run_next_id trace : forall st, next_id st <= next_id (run trace st).
Proof.
  induction trace as [|[req now] trace IH]; intros st; [cbn; lia|].
  cbn [run fold_left fst snd]. etransitivity; [apply route_next_id|apply IH].
Qed.

Lemma run_reachable trace : forall st, reachable st -> reachable (run trace st).
Proof.
  induction trace as [|[req now] trace IH]; intros st R; [exact R|].
  cbn [run fold_left fst snd]. apply IH. now apply reachable_step.
Qed.

(** X5.  An id is never handed out twice.  Let a table the server can
    reach hold a row.  Whatever requests follow, deletions included, a
    submission that is accepted afterwards gets an id above the id of
    that row, and above the id of every row the table then holds. *)
Theorem ids_never_reused (st : store) (r : row)
  (trace : list (request * Z)) (b : feedback_body) (now : Z) :
  reachable st -> In r (rows st) -> ~ invalid b ->
  exists i,
    fst (post_feedback b now (run trace st))
    = json 201 (BCreated "Feedback submitted successfully" i)
    /\ row_id r < i
    /\ Forall (fun x => row_id x < i) (rows (run trace st)).
Proof.
  intros R I V. exists (next_id (run trace st)).
  rewrite (post_feedback_accepted b now _ (valid_accepts b V)).
  split; [reflexivity|]. split.
  - destruct (reachable_well_formed st R) as [_ F].
    rewrite Forall_forall in F. specialize (F r I).
    pose proof (run_next_id trace st). lia.
  - destruct (reachable_well_formed _ (run_reachable trace st R)) as [_ F].
    eapply Forall_impl; [|exact F]. simpl. lia.
Qed.

End Traces.

Lemma ids_never_reused_witness :
  exists i,
    fst (@post_feedback sample_platform bob 400
           (@run sample_platform
              [(DELETE_feedback_id (Some (js "Bearer valid-token")) (js "1"),
                300)]
              alice_store))
    = json 201 (BCreated "Feedback submitted successfully" i)
    /\ 1 < i.
Proof.
  destruct (@ids_never_reused sample_platform alice_store alice_row
              [(DELETE_feedback_id (Some (js "Bearer valid-token")) (js "1"),
                300)] bob 400)
    as (i & E & L & _).
  - exact alice_store_reachable.
  - now left.
  - apply accepts_valid. reflexivity.
  - exists i. split; [exact E|exact L].
Defined.

(** ** The Authorization header *)

Lemma first_sep (sep : N) s :
  ~ In sep s
  \/ exists pre rest, s = pre ++ sep :: rest /\ ~ In sep pre.
Proof.
  induction s as [|c s IH]; [now left|].
  destruct (N.eq_dec c sep) as [->|Ne].
  - right. exists [], s. split; [reflexivity|intros []].
  - destruct IH as [H|(pre & rest & -> & H)].
    + left. intros [E|I]; [now apply Ne|now apply H].
    + right. exists (c :: pre), rest. split; [reflexivity|].
      intros [E|I]; [now apply Ne|now apply H].
Qed.

Lemma first_sep_unique (sep : N) pre rest pre' rest' :
  ~ In sep pre -> ~ In sep pre' ->
  pre ++ sep :: rest = pre' ++ sep :: rest' -> pre = pre' /\ rest = rest'.
Proof.
  revert pre'. induction pre as [|c pre IH]; intros [|c' pre'] H H' E;
    simpl in E.
  - injection E as <-. now split.
  - injection E as <- _. elim H'. now left.
  - injection E as -> _. elim H. now left.
  - injection E as <- E. destruct (IH pre') as [-> ->]; auto.
    + intros I. apply H. now right.
    + intros I. apply H'. now right.
Qed.

Lemma split_head_nil sep s :
  (exists ps, split sep s = [] :: ps) <-> s = [] \/ exists r, s = sep :: r.
Proof.
  destruct s as [|c s]; simpl.
  - split; [now left|]. intros _. now exists [].
  - destruct (N.eqb_spec c sep) as [->|Ne].
    + split; [right; now exists s|]. intros _. now eexists.
    + split.
      * intros [ps E]. destruct (split sep s); discriminate.
      * intros [E|[r E]]; [discriminate|]. injection E as E _. now elim Ne.
Qed.

Section Header.
Context {platform : Platform}.

Lemma bearer_token_second scheme rest :
  ~ In 32%N scheme ->
  bearer_token (Some (scheme ++ 32%N :: rest))
  = VStr (hd [] (split 32 rest)).
Proof.
  intros H. unfold bearer_token, js_and.
  replace (truthy (VStr (scheme ++ 32%N :: rest))) with true
    by (destruct scheme; reflexivity).
  rewrite split_prefix by assumption. simpl.
  pose proof (split_not_nil 32 rest). now destruct (split 32 rest).
Qed.

Lemma bearer_token_none h : ~ In 32%N h -> truthy (bearer_token (Some h)) = false.
Proof.
  intros H. unfold bearer_token, js_and. rewrite split_whole by assumption.
  simpl. now destruct h.
Qed.

Lemma bearer_token_falsy authHeader :
  truthy (bearer_token authHeader) = false <-> no_token authHeader.
Proof.
  destruct authHeader as [h|]; [|now split].
  destruct (first_sep 32%N h) as [H|(pre & rest & -> & H)].
  - split; [now left|]. intros _. now apply bearer_token_none.
  - rewrite bearer_token_second by exact H. split.
    + intros T. right. exists pre, rest. split; [reflexivity|].
      split; [exact H|]. apply (split_head_nil 32%N).
      pose proof (split_not_nil 32 rest).
      destruct (split 32 rest) as [|[|c p] ps]; [congruence| |discriminate].
      now exists ps.
    + intros [I|(scheme & rest' & E & Hs & R)].
      * elim I. apply in_or_app. right. now left.
      * apply first_sep_unique in E as [<- <-]; try assumption.
        apply (split_head_nil 32%N) in R as [ps ->]. reflexivity.
Qed.

Lemma delete_handler_status id now st :
  status (fst (delete_handler id now st)) = 200
  \/ status (fst (delete_handler id now st)) = 404.
Proof.
  unfold delete_handler. rewrite execute_delete_by_id.
  destruct (_ =? 0)%nat; [now right|now left].
Qed.

(** X9.  DELETE /api/feedback/:id is answered 401 exactly when the header
    offers no credential: it is absent, or has no space, or its first
    space is followed by nothing or by another space.  The table is then
    as it was. *)
Theorem delete_feedback_401_iff (authHeader : option jsstring)
  (id : jsstring) (now : Z) (st : store) :
  (status (fst (delete_feedback authHeader id now st)) = 401
   <-> no_token authHeader)
  /\ (no_token authHeader ->
      delete_feedback authHeader id now st = (json 401 BNone, st)).
Proof.
  split; [split|].
  - intros S. apply bearer_token_falsy.
    unfold delete_feedback, authenticateToken in S.
    destruct (truthy (bearer_token authHeader)); [|reflexivity].
    cbn [negb] in S. destruct (jwt_verify _); [|discriminate].
    destruct (delete_handler_status id now st) as [E|E]; rewrite E in S;
      discriminate.
  - intros N. apply bearer_token_falsy in N.
    unfold delete_feedback. now rewrite authenticate_none.
  - intros N. apply bearer_token_falsy in N.
    unfold delete_feedback. now rewrite authenticate_none.
Qed.

(** X10.  The middleware looks at nothing but the second piece of the header:
    the word before the first space is not compared with [Bearer], and
    what follows a second space is dropped. *)
Theorem authenticateToken_second_piece (scheme scheme' t rest : jsstring)
  (next : store -> response * store) (st : store) :
  ~ In 32%N scheme -> ~ In 32%N scheme' -> ~ In 32%N t ->
  authenticateToken (Some (scheme ++ 32%N :: t ++ 32%N :: rest)) next st
  = authenticateToken (Some (scheme' ++ 32%N :: t)) next st
  /\ authenticateToken (Some (scheme' ++ 32%N :: t)) next st
     = match t with
       | [] => (json 401 BNone, st)
       | _ => if jwt_verify t then next st else (json 403 BNone, st)
       end.
Proof.
  intros Hs Hs' Ht. unfold authenticateToken.
  rewrite (bearer_token_second scheme _ Hs), (bearer_token_second scheme' _ Hs').
  rewrite (split_prefix _ _ _ Ht), (split_whole _ _ Ht). cbn [hd].
  split; [reflexivity|]. now destruct t.
Qed.

End Header.

Lemma delete_feedback_401_iff_witness :
  @delete_feedback sample_platform (Some (js "Bearer")) (js "1") 200
    alice_store
  = (json 401 BNone, alice_store).
Proof.
  apply (proj2 (@delete_feedback_401_iff sample_platform (Some (js "Bearer"))
                  (js "1") 200 alice_store)).
  left. vm_compute. intuition discriminate.
Defined.

Lemma authenticateToken_second_piece_witness :
  @delete_feedback sample_platform (Some (js "Basic valid-token and more"))
    (js "1") 200 alice_store
  = @delete_feedback sample_platform (Some (js "Bearer valid-token"))
      (js "1") 200 alice_store.
Proof.
  apply (@authenticateToken_second_piece sample_platform
           (js "Basic") (js "Bearer") (js "valid-token") (js "and more")).
  - vm_compute. intuition discriminate.
  - vm_compute. intuition discriminate.
  - vm_compute. intuition discriminate.
Defined.

(** ** POST /api/feedback: ratings that are numbers *)

Section NumericRating.
Context {platform : Platform}.

(** X11.  POST /api/feedback with the three required texts present and a
    rating that is a JSON number or boolean.  Zero and [NaN] are reported
    as a missing field, since the presence test comes first; any other
    number below 1 or above 5 is reported as out of range; every number
    from 1 to 5, whole or not, is accepted and stored as it was sent;
    [true] passes as 1. *)
Theorem post_feedback_numeric_rating (b : feedback_body) (now : Z)
  (st : store) :
  truthy (b_name b) = true -> truthy (b_email b) = true ->
  truthy (b_feedback_type b) = true ->
  (forall q, b_overall_rating b = VNum (Fin q) -> (q == 0)%Q ->
     post_feedback b now st
     = (json 400 (BError "Missing required fields"), st))
  /\ (b_overall_rating b = VNum NaN ->
      post_feedback b now st
      = (json 400 (BError "Missing required fields"), st))
  /\ (forall q, b_overall_rating b = VNum (Fin q) -> ~ (q == 0)%Q ->
        (q < 1)%Q \/ (5 < q)%Q ->
        post_feedback b now st
        = (json 400 (BError "Rating must be between 1 and 5"), st))
  /\ (forall negative, b_overall_rating b = VNum (Inf negative) ->
        post_feedback b now st
        = (json 400 (BError "Rating must be between 1 and 5"), st))
  /\ (forall q, b_overall_rating b = VNum (Fin q) -> (1 <= q <= 5)%Q ->
        post_feedback b now st
        = (json 201 (BCreated "Feedback submitted successfully" (next_id st)),
           {| rows := rows st ++ [new_row b (next_id st) now];
              next_id := next_id st + 1 |})
        /\ row_overall_rating (new_row b (next_id st) now) = SNum (Fin q))
  /\ (b_overall_rating b = VBool true ->
      post_feedback b now st
      = (json 201 (BCreated "Feedback submitted successfully" (next_id st)),
         {| rows := rows st ++ [new_row b (next_id st) now];
            next_id := next_id st + 1 |})
      /\ row_overall_rating (new_row b (next_id st) now) = SNum (Fin 1)).
Proof.
  intros N E T.
  assert (C : forall v,
             b_overall_rating b = v -> truthy v = true ->
             js_lt v (Fin 1) || js_gt v (Fin 5) = false ->
             post_feedback b now st
             = (json 201
                  (BCreated "Feedback submitted successfully" (next_id st)),
                {| rows := rows st ++ [new_row b (next_id st) now];
                   next_id := next_id st + 1 |})
             /\ row_overall_rating (new_row b (next_id st) now) = bound v).
  { intros v R Tv Rv. split.
    - apply post_feedback_created; try assumption; now rewrite R.
    - cbn [new_row row_overall_rating]. now rewrite R. }
  split; [|split; [|split; [|split; [|split]]]].
  - intros q R Z. apply post_feedback_missing. rewrite N, E, T, R. simpl.
    apply Qeq_bool_iff in Z. now rewrite Z.
  - intros R. apply post_feedback_missing. now rewrite N, E, T, R.
  - intros q R Z O. apply post_feedback_range; try assumption.
    + rewrite R. simpl. apply negb_true_iff.
      destruct (Qeq_bool q 0) eqn:Q; [|reflexivity].
      now apply Qeq_bool_iff in Q.
    + rewrite R. unfold js_lt, js_gt. cbn [to_number num_lt].
      apply orb_true_iff. destruct O as [O|O]; [left|right];
        apply negb_true_iff; now apply Qle_bool_false.
  - intros negative R. apply post_feedback_range; try assumption.
    + now rewrite R.
    + rewrite R. now destruct negative.
  - intros q R [L U]. apply (C _ R).
    + simpl. apply negb_true_iff.
      destruct (Qeq_bool q 0) eqn:Q; [|reflexivity].
      apply Qeq_bool_iff in Q. rewrite Q in L. now elim L.
    + unfold js_lt, js_gt. cbn [to_number num_lt]. apply orb_false_iff.
      split; apply negb_false_iff; now apply Qle_bool_iff.
  - intros R. now apply (C _ R).
Qed.

End NumericRating.

Lemma post_feedback_numeric_rating_witness :
  fst (@post_feedback sample_platform half_star 400 alice_store)
  = json 201 (BCreated "Feedback submitted successfully" 2).
Proof.
  destruct (@post_feedback_numeric_rating sample_platform half_star 400
              alice_store eq_refl eq_refl eq_refl)
    as (_ & _ & _ & _ & A & _).
  destruct (A (9 # 2)%Q eq_refl) as [E _].
  - split; discriminate.
  - now rewrite E.
Defined.

(** ** GET /api/feedback: the window *)

Lemma firstn_add_skipn {A} a b (l : list A) :
  firstn (a + b) l = firstn a l ++ firstn b (skipn a l).
Proof.
  revert l. induction a as [|a IH]; intros l; [reflexivity|].
  destruct l as [|x l]; [now rewrite !firstn_nil|].
  simpl. now rewrite IH.
Qed.

(** Rows with pairwise distinct submission dates have one arrangement
    that is newest first. *)
Lemma newest_first_unique (l1 : list row) : forall l2,
  Permutation l1 l2 -> newest_first l1 -> newest_first l2 ->
  NoDup (map row_submission_date l1) -> l1 = l2.
Proof.
  induction l1 as [|a l1 IH]; intros l2 P S1 S2 D.
  - now apply Permutation_nil in P.
  - destruct l2 as [|b l2].
    { symmetry in P. now apply Permutation_nil in P. }
    apply StronglySorted_inv in S1 as [S1 F1].
    apply StronglySorted_inv in S2 as [S2 F2].
    cbn [map] in D. apply NoDup_cons_iff in D as [Da D].
    assert (E : a = b).
    { assert (Ia : In a (b :: l2)) by (apply (Permutation_in _ P); now left).
      assert (Ib : In b (a :: l1))
        by (apply (Permutation_in _ (Permutation_sym P)); now left).
      destruct Ia as [Ia|Ia]; [now symmetry|].
      destruct Ib as [Ib|Ib]; [exact Ib|].
      rewrite Forall_forall in F1, F2.
      specialize (F1 b Ib). specialize (F2 a Ia). simpl in F1, F2.
      exfalso. apply Da.
      replace (row_submission_date a) with (row_submission_date b) by lia.
      now apply in_map. }
    subst b. f_equal. apply IH; try assumption.
    now apply Permutation_cons_inv in P.
Qed.

Section Window.
Context {platform : Platform}.

Lemma asked_limit_decimal q z :
  - 2 ^ 53 < z < 2 ^ 53 -> lq_limit q = VStr (decimal_Z z) ->
  asked_limit q = num_of_Z z.
Proof.
  intros B E. unfold asked_limit. rewrite E. now apply parseInt_decimal.
Qed.

Lemma asked_offset_decimal q z :
  - 2 ^ 53 < z < 2 ^ 53 -> lq_offset q = VStr (decimal_Z z) ->
  asked_offset q = num_of_Z z.
Proof.
  intros B E. unfold asked_offset. rewrite E. now apply parseInt_decimal.
Qed.

Lemma window_counts type rating k o :
  0 <= k < 2 ^ 53 -> 0 <= o < 2 ^ 53 ->
  asked_limit (window type rating k o) = num_of_Z k
  /\ asked_offset (window type rating k o) = num_of_Z o
  /\ as_count (SNum (asked_limit (window type rating k o)))
     = Some (Z.to_nat k)
  /\ as_count (SNum (asked_offset (window type rating k o)))
     = Some (Z.to_nat o).
Proof.
  intros K O.
  assert (L : asked_limit (window type rating k o) = num_of_Z k)
    by (apply asked_limit_decimal; [lia|reflexivity]).
  assert (F : asked_offset (window type rating k o) = num_of_Z o)
    by (apply asked_offset_decimal; [lia|reflexivity]).
  rewrite L, F. repeat split; apply as_count_Z; lia.
Qed.

(** X12.  GET /api/feedback with [limit] and [offset] given as the decimal
    numerals of integers from 0 to below [2^53]: the answer is 200, its
    page is the rows from position [offset] on, at most [limit] of them,
    of the matching rows taken newest first, [total] counts the matching
    rows, and [limit] and [offset] are echoed as numbers. *)
Theorem get_feedback_numerals (type rating : value) (k o now : Z)
  (st : store) :
  0 <= k < 2 ^ 53 -> 0 <= o < 2 ^ 53 ->
  let matching :=
    filter (fun r => type_filter type r && rating_filter rating r) (rows st) in
  get_feedback (window type rating k o) now st
  = (json 200
       (BPage
          (firstn (Z.to_nat k) (skipn (Z.to_nat o) (sort_desc matching)))
          (VNum (num_of_Z (Z.of_nat (List.length matching))))
          (num_of_Z k) (num_of_Z o)),
     st).
Proof.
  intros K O matching.
  destruct (window_counts type rating k o K O) as (L & F & CL & CO).
  rewrite (get_feedback_ok _ now st _ _ CL CO), L, F. reflexivity.
Qed.

(** X14.  Pages of GET /api/feedback tile the matching rows, when no two of
    these were submitted at the same time.  ORDER BY submission_date
    then leaves the store one order only: the page of [k] rows at offset
    [o] is that window of any arrangement of the matching rows that is
    newest first.  With the same filters on the same table, the page of
    [k1 + k2] rows at offset [o] is the page of [k1] rows at [o] followed
    by the page of [k2] rows at [o + k1], and the three answers carry the
    same total. *)
Theorem get_feedback_pages_join (type rating : value) (k1 k2 o now : Z)
  (st : store) :
  0 <= k1 -> 0 <= k2 -> 0 <= o -> k1 + k2 < 2 ^ 53 -> o + k1 < 2 ^ 53 ->
  let matching :=
    filter (fun r => type_filter type r && rating_filter rating r) (rows st) in
  NoDup (map row_submission_date matching) ->
  let answer k o := fst (get_feedback (window type rating k o) now st) in
  (forall found k o,
     Permutation found matching -> newest_first found ->
     0 <= k < 2 ^ 53 -> 0 <= o < 2 ^ 53 ->
     page_of (answer k o) = firstn (Z.to_nat k) (skipn (Z.to_nat o) found))
  /\ page_of (answer (k1 + k2) o)
     = page_of (answer k1 o) ++ page_of (answer k2 (o + k1))
  /\ total_of (answer k1 o) = total_of (answer (k1 + k2) o)
  /\ total_of (answer k2 (o + k1)) = total_of (answer (k1 + k2) o).
Proof.
  intros K1 K2 O B1 B2 matching D answer.
  assert (W : forall found k o,
             Permutation found matching -> newest_first found ->
             0 <= k < 2 ^ 53 -> 0 <= o < 2 ^ 53 ->
             page_of (answer k o)
             = firstn (Z.to_nat k) (skipn (Z.to_nat o) found)
             /\ total_of (answer k o)
                = VNum (num_of_Z (Z.of_nat (List.length matching)))).
  { intros found k o' P S K O'. unfold answer.
    destruct (window_counts type rating k o' K O') as (_ & _ & C & C').
    rewrite (get_feedback_ok _ now st _ _ C C').
    cbn [fst page_of total_of payload json]. split; [|reflexivity].
    f_equal. f_equal.
    apply (newest_first_unique _ found);
      [|apply sort_desc_sorted|exact S|].
    - etransitivity; [apply sort_desc_perm|]. symmetry. exact P.
    - apply (Permutation_NoDup
               (Permutation_map _ (Permutation_sym (sort_desc_perm _)))).
      exact D. }
  assert (P := sort_desc_perm matching).
  assert (S := sort_desc_sorted matching).
  split; [|split; [|split]].
  - intros found k o' Pf Sf K O'. now apply W.
  - rewrite (proj1 (W _ (k1 + k2) o P S ltac:(lia) ltac:(lia))),
      (proj1 (W _ k1 o P S ltac:(lia) ltac:(lia))),
      (proj1 (W _ k2 (o + k1) P S ltac:(lia) ltac:(lia))).
    rewrite !Z2Nat.inj_add by lia.
    rewrite firstn_add_skipn. f_equal.
    now rewrite skipn_skipn, (Nat.add_comm (Z.to_nat k1)).
  - now rewrite (proj2 (W _ (k1 + k2) o P S ltac:(lia) ltac:(lia))),
      (proj2 (W _ k1 o P S ltac:(lia) ltac:(lia))).
  - now rewrite (proj2 (W _ (k1 + k2) o P S ltac:(lia) ltac:(lia))),
      (proj2 (W _ k2 (o + k1) P S ltac:(lia) ltac:(lia))).
Qed.

End Window.

Lemma get_feedback_numerals_witness :
  @get_feedback sample_platform (window (str "course") VUndefined 1 1) 300
    two_rows
  = (json 200 (BPage [alice_row] (VNum (Fin 2)) (Fin 1) (Fin 1)), two_rows).
Proof.
  apply (@get_feedback_numerals sample_platform (str "course") VUndefined
           1 1 300 two_rows); lia.
Defined.

Lemma get_feedback_pages_join_witness :
  page_of (fst (@get_feedback sample_platform
                  (window VUndefined VUndefined 2 0) 300 two_rows))
  = page_of (fst (@get_feedback sample_platform
                    (window VUndefined VUndefined 1 0) 300 two_rows))
    ++ page_of (fst (@get_feedback sample_platform
                       (window VUndefined VUndefined 1 1) 300 two_rows)).
Proof.
  apply (@get_feedback_pages_join sample_platform VUndefined VUndefined
           1 1 0 300 two_rows); try lia.
  repeat constructor; simpl; intuition discriminate.
Defined.

(** ** GET /api/search: patterns *)

Lemma any_suffix_ext f g s :
  (forall t, f t = g t) -> any_suffix f s = any_suffix g s.
Proof.
  intros E. induction s as [|c s IH]; simpl; rewrite E; [reflexivity|].
  now rewrite IH.
Qed.

Lemma any_suffix_length n s :
  any_suffix (fun t => (n <=? List.length t)%nat) s
  = (n <=? List.length s)%nat.
Proof.
  induction s as [|c s IH]; simpl; [now rewrite orb_false_r|].
  rewrite IH. destruct (Nat.leb_spec n (S (List.length s))) as [H|H].
  - reflexivity.
  - simpl. apply Nat.leb_gt. lia.
Qed.

(** A pattern of percent signs matches every text. *)
Lemma like_percents p s :
  p <> [] -> Forall (eq 37%N) p -> like p s = true.
Proof.
  intros N F. revert s. induction F as [|c p <- F IH]; [congruence|].
  intros s. destruct p as [|d p]; [apply like_percent_end|].
  apply like_percent_iff. exists [], s. split; [reflexivity|].
  apply IH. discriminate.
Qed.

(** [n] underscores between percent signs match the texts of at least
    [n] characters. *)
Lemma like_underscores n s :
  like (37%N :: repeat 95%N n ++ [37%N]) s = (n <=? List.length s)%nat.
Proof.
  assert (U : forall n t,
             like (repeat 95%N n ++ [37%N]) t = (n <=? List.length t)%nat).
  { clear. induction n as [|n IH]; intros t.
    - apply like_percent_end.
    - destruct t as [|c t]; [reflexivity|]. simpl. apply IH. }
  change (like (37%N :: repeat 95%N n ++ [37%N]) s)
    with (any_suffix (like (repeat 95%N n ++ [37%N])) s).
  rewrite (any_suffix_ext _ _ s (U n)). apply any_suffix_length.
Qed.

Section Patterns.
Context {platform : Platform}.

Lemma cell_like_percents t v :
  Forall (eq 37%N) t ->
  cell_like (37%N :: t ++ [37%N]) v = text_of_length 0 v.
Proof.
  intros F. unfold cell_like, text_of_length, sql_like. cbn [as_text].
  destruct (as_text v) as [s|]; [|reflexivity]. rewrite holds_some.
  apply like_percents; [discriminate|].
  constructor; [reflexivity|]. apply Forall_app. split; [exact F|].
  now constructor.
Qed.

Lemma cell_like_underscores n v :
  cell_like (37%N :: repeat 95%N n ++ [37%N]) v = text_of_length n v.
Proof.
  unfold cell_like, text_of_length, sql_like. cbn [as_text].
  destruct (as_text v) as [s|]; [|reflexivity]. rewrite holds_some.
  apply like_underscores.
Qed.

(** X15.  GET /api/search with a query of wildcard characters.  The trimmed
    query goes into the LIKE pattern as it is.  A query of percent signs
    alone selects every row with a text in one of the three columns; a
    query of [n] underscores selects every row with a text of at least
    [n] characters in one of them.  The optional filters, the order and
    the cap of 50 apply as usual. *)
Theorem get_search_wildcards (sq : search_query) (now : Z) (st : store)
  (s : jsstring) :
  sq_q sq = VStr s -> (2 <= List.length (trim s))%nat ->
  (Forall (eq 37%N) (trim s) ->
   let found :=
     sort_desc
       (filter (fun r =>
                  (text_of_length 0 (row_detailed_feedback r)
                   || text_of_length 0 (row_subject_course r)
                   || text_of_length 0 (row_name r))
                  && type_filter (sq_type sq) r
                  && rating_filter (sq_rating sq) r) (rows st)) in
   get_search sq now st
   = (json 200 (BResults (firstn 50 found) (List.length (firstn 50 found))),
      st))
  /\
  (forall n, trim s = repeat 95%N n ->
   let found :=
     sort_desc
       (filter (fun r =>
                  (text_of_length n (row_detailed_feedback r)
                   || text_of_length n (row_subject_course r)
                   || text_of_length n (row_name r))
                  && type_filter (sq_type sq) r
                  && rating_filter (sq_rating sq) r) (rows st)) in
   get_search sq now st
   = (json 200 (BResults (firstn 50 found) (List.length (firstn 50 found))),
      st)).
Proof.
  intros E L. split.
  - intros F found. rewrite (get_search_long sq now st s E L).
    unfold found.
    rewrite (filter_ext
               (search_selects (trim s) (sq_type sq) (sq_rating sq))
               (fun r =>
                  (text_of_length 0 (row_detailed_feedback r)
                   || text_of_length 0 (row_subject_course r)
                   || text_of_length 0 (row_name r))
                  && type_filter (sq_type sq) r
                  && rating_filter (sq_rating sq) r)); [reflexivity|].
    intros r. unfold search_selects. now rewrite !cell_like_percents.
  - intros n U found. rewrite (get_search_long sq now st s E L).
    unfold found.
    rewrite (filter_ext
               (search_selects (trim s) (sq_type sq) (sq_rating sq))
               (fun r =>
                  (text_of_length n (row_detailed_feedback r)
                   || text_of_length n (row_subject_course r)
                   || text_of_length n (row_name r))
                  && type_filter (sq_type sq) r
                  && rating_filter (sq_rating sq) r)); [reflexivity|].
    intros r. unfold search_selects. rewrite U.
    now rewrite !cell_like_underscores.
Qed.

End Patterns.

Lemma get_search_wildcards_witness :
  @get_search sample_platform percent_query 300 two_rows
  = (json 200 (BResults [bob_row; alice_row] 2), two_rows)
  /\ @get_search sample_platform underscore_query 300 alice_store
     = (json 200 (BResults [alice_row] 1), alice_store).
Proof.
  split.
  - apply (proj1 (@get_search_wildcards sample_platform percent_query 300
                    two_rows (js "%%") eq_refl ltac:(simpl; lia))).
    repeat constructor.
  - apply (proj2 (@get_search_wildcards sample_platform underscore_query 300
                    alice_store (js " _____ ") eq_refl ltac:(simpl; lia))
             5%nat).
    reflexivity.
Defined.

(** ** GET /api/search: white space around the query *)

Lemma trim_start_snoc l c :
  is_white_space c = false -> trim_start (l ++ [c]) = trim_start l ++ [c].
Proof.
  intros H. induction l as [|x l IH]; simpl; [now rewrite H|].
  now destruct (is_white_space x).
Qed.

Lemma trim_start_idem s : trim_start (trim_start s) = trim_start s.
Proof.
  induction s as [|c s IH]; [reflexivity|]. simpl.
  destruct (is_white_space c) eqn:W; [exact IH|]. simpl. now rewrite W.
Qed.

Lemma trim_start_head s :
  trim_start s = []
  \/ exists c t, trim_start s = c :: t /\ is_white_space c = false.
Proof.
  induction s as [|c s IH]; [now left|]. simpl.
  destruct (is_white_space c) eqn:W; [exact IH|]. right. now exists c, s.
Qed.

Lemma trim_end_cons c t :
  is_white_space c = false -> trim_end (c :: t) = c :: trim_end t.
Proof.
  intros H. unfold trim_end. simpl. rewrite trim_start_snoc by exact H.
  now rewrite rev_app_distr.
Qed.

Lemma trim_end_idem s : trim_end (trim_end s) = trim_end s.
Proof. unfold trim_end. now rewrite rev_involutive, trim_start_idem. Qed.

Lemma trim_idem s : trim (trim s) = trim s.
Proof.
  unfold trim. destruct (trim_start_head s) as [->|(c & t & -> & W)].
  - reflexivity.
  - rewrite trim_end_cons by exact W. simpl. rewrite W.
    rewrite trim_end_cons by exact W. now rewrite trim_end_idem.
Qed.

Section Trimmed.
Context {platform : Platform}.

(** X16.  GET /api/search does not see white space around the query: [q] and
    [q.trim()] are answered alike, whatever the table and the filters. *)
Theorem get_search_trimmed (sq : search_query) (s : jsstring) (now : Z)
  (st : store) :
  get_search (with_q (VStr s) sq) now st
  = get_search (with_q (VStr (trim s)) sq) now st.
Proof.
  destruct (Nat.ltb_spec (List.length (trim s)) 2) as [L|L].
  - rewrite (get_search_short (with_q (VStr s) sq) now st s eq_refl L).
    symmetry.
    apply (get_search_short (with_q (VStr (trim s)) sq) now st (trim s)
             eq_refl).
    now rewrite trim_idem.
  - rewrite (get_search_long (with_q (VStr s) sq) now st s eq_refl L).
    rewrite (get_search_long (with_q (VStr (trim s)) sq) now st (trim s)
               eq_refl) by now rewrite trim_idem.
    cbn [with_q sq_type sq_rating]. now rewrite trim_idem.
Qed.

End Trimmed.

(** ** GET /api/analytics: the report *)

Section Report.
Context {platform : Platform}.

(** X19.  GET /api/analytics answered 200 on a table whose ratings are
    numbers from 1 to 5: [average_rating] is a numeral from 1.0 to
    5.0. *)
Theorem analytics_average_in_range (now : Z) (st : store) (qs : list Q) :
  ratings st qs -> qs <> [] -> Forall (fun q => 1 <= q <= 5)%Q qs ->
  report_answered now st ->
  exists total n by_type monthly by_rating recent,
    get_analytics now st
    = (json 200
         (BReport total (tenths false n) by_type monthly by_rating recent),
       st)
    /\ 10 <= n <= 50.
Proof.
  intros R N F A.
  destruct (get_analytics_answered now st A) as (t & m & d & E).
  destruct (average_rating_tenths st qs R N F) as (x & D & B & T).
  destruct (mean_decimal qs N F) as ((K1 & K2) & _ & _).
  set (k := Qfloor (mean qs * 10000 + (1 # 2))) in *.
  rewrite T in E. eexists _, (Qfloor (x * 10 + (1 # 2))), t, m, d, _.
  split; [exact E|].
  assert (Q1 : (1 <= inject_Z k / 10000)%Q).
  { rewrite Zle_Qle in K1. change (inject_Z 10000) with 10000%Q in K1.
    apply Qle_shift_div_l; [reflexivity|]. lra. }
  assert (Q2 : (inject_Z k / 10000 <= 5)%Q).
  { rewrite Zle_Qle in K2. change (inject_Z 50000) with 50000%Q in K2.
    apply Qle_shift_div_r; [reflexivity|]. lra. }
  rewrite pow2_m53 in B. apply Qabs_Qle_condition in B as [B1 B2].
  split.
  - assert (L : (inject_Z 10 <= x * 10 + (1 # 2))%Q).
    { change (inject_Z 10) with 10%Q. lra. }
    apply Qfloor_resp_le in L. now rewrite Qfloor_Z in L.
  - assert (L : (inject_Z (Qfloor (x * 10 + (1 # 2))) < inject_Z 51)%Q).
    { eapply Qle_lt_trans; [apply Qfloor_le|].
      change (inject_Z 51) with 51%Q. lra. }
    rewrite <- Zlt_Qlt in L. lia.
Qed.

(** X20.  When ten times the exact mean of the ratings is a whole
    number, a report answered 200 displays the mean exactly; so a table
    whose ratings all equal [r] reports [r.0]. *)
Theorem analytics_average_exact (now : Z) (st : store) (qs : list Q)
  (m : Z) :
  ratings st qs -> qs <> [] -> Forall (fun q => 1 <= q <= 5)%Q qs ->
  (mean qs * 10 == inject_Z m)%Q ->
  report_answered now st ->
  exists total by_type monthly by_rating recent,
    get_analytics now st
    = (json 200
         (BReport total (tenths false m) by_type monthly by_rating recent),
       st).
Proof.
  intros R N F M A.
  destruct (get_analytics_answered now st A) as (t & mo & d & E).
  destruct (average_rating_tenths st qs R N F) as (x & D & B & T).
  destruct (mean_bounds 1 5 qs N F) as [Lo Hi].
  assert (K : Qfloor (mean qs * 10000 + (1 # 2)) = 1000 * m).
  { apply Qfloor_unique; rewrite inject_Z_mult;
      change (inject_Z 1000) with 1000%Q; lra. }
  rewrite K in B.
  assert (Qm : (inject_Z (1000 * m) / 10000 == mean qs)%Q).
  { rewrite inject_Z_mult. change (inject_Z 1000) with 1000%Q.
    rewrite <- M. field. }
  rewrite Qm, pow2_m53 in B. apply Qabs_Qle_condition in B as [B1 B2].
  rewrite T in E. eexists _, t, mo, d, _.
  replace m with (Qfloor (x * 10 + (1 # 2))); [exact E|].
  apply Qfloor_unique; lra.
Qed.

(** X21.  GET /api/analytics is answered 200 when the store answers the
    three grouped statements, and 500 otherwise.  In a 200 answer
    [total_feedback] is the number of rows of the table, and
    [recent_feedback] the number of those submitted no more than seven
    days, 604800 seconds, before the report; so [recent_feedback] never
    exceeds [total_feedback]. *)
Theorem get_analytics_counts (now : Z) (st : store) :
  let recent :=
    filter (fun r => now - 604800 <=? row_submission_date r) (rows st) in
  (report_answered now st ->
   exists avg by_type monthly by_rating,
     get_analytics now st
     = (json 200
          (BReport (VNum (num_of_Z (Z.of_nat (List.length (rows st)))))
             avg by_type monthly by_rating
             (VNum (num_of_Z (Z.of_nat (List.length recent))))),
        st))
  /\ (~ report_answered now st ->
      get_analytics now st = (json 500 (BError "Internal server error"), st))
  /\ (List.length recent <= List.length (rows st))%nat.
Proof.
  intros recent. split; [|split].
  - intros A. destruct (get_analytics_answered now st A) as (t & m & d & E).
    eexists _, t, m, d. exact E.
  - apply get_analytics_refused.
  - apply filter_length_le.
Qed.

End Report.

Lemma analytics_average_in_range_witness :
  exists total n by_type monthly by_rating recent,
    @get_analytics sample_platform 300 two_rows
    = (json 200
         (BReport total (tenths false n) by_type monthly by_rating recent),
       two_rows)
    /\ 10 <= n <= 50.
Proof.
  apply (@analytics_average_in_range sample_platform 300 two_rows
           [3%Q; 5%Q]).
  - reflexivity.
  - discriminate.
  - repeat constructor; discriminate.
  - apply sample_answered.
Defined.

Lemma analytics_average_exact_witness :
  exists total by_type monthly by_rating recent,
    @get_analytics sample_platform 300 two_rows
    = (json 200 (BReport total (js "4.0") by_type monthly by_rating recent),
       two_rows).
Proof.
  apply (@analytics_average_exact sample_platform 300 two_rows
           [3%Q; 5%Q] 40).
  - reflexivity.
  - discriminate.
  - repeat constructor; discriminate.
  - reflexivity.
  - apply sample_answered.
Defined.

Lemma get_analytics_counts_witness :
  exists avg by_type monthly by_rating,
    @get_analytics sample_platform 300 two_rows
    = (json 200
         (BReport (VNum (num_of_Z 2)) avg by_type monthly by_rating
            (VNum (num_of_Z 2))),
       two_rows).
Proof.
  apply (proj1 (@get_analytics_counts sample_platform 300 two_rows)).
  apply sample_answered.
Defined.

(** ** GET /api/search: any query *)

Section AnyQuery.
Context {platform : Platform}.

(** X17.  The outcomes of GET /api/search by what [q] is.  Left out, it is
    answered 400.  An array or an object, as a repeated or bracketed
    parameter gives one, has no [trim]: the answer is 500.  A string is
    answered 400 or 200, never 500.  In a 200 answer [count] is the
    number of results and at most 50, the results are newest first, and
    each result is a row of the table that the LIKE pattern made of the
    trimmed query selects together with the filters.  The table is left
    as it was in every case. *)
Theorem get_search_outcomes (sq : search_query) (now : Z) (st : store) :
  (sq_q sq = VUndefined ->
   get_search sq now st
   = (json 400 (BError "Search query must be at least 2 characters"), st))
  /\
  ((exists items, sq_q sq = VArr items) \/ (exists props, sq_q sq = VObj props)
   -> get_search sq now st = (json 500 (BError "Internal server error"), st))
  /\
  (forall s, sq_q sq = VStr s ->
     ((List.length (trim s) < 2)%nat
      /\ get_search sq now st
         = (json 400 (BError "Search query must be at least 2 characters"),
            st))
     \/
     ((2 <= List.length (trim s))%nat
      /\ exists results,
           get_search sq now st
           = (json 200 (BResults results (List.length results)), st)
           /\ (List.length results <= 50)%nat
           /\ newest_first results
           /\ (forall r, In r results ->
                 In r (rows st)
                 /\ search_selects (trim s) (sq_type sq) (sq_rating sq) r
                    = true))).
Proof.
  split; [|split].
  - intros E. apply get_search_falsy. now rewrite E.
  - intros [[items E]|[props E]]; apply get_search_not_string;
      now rewrite E.
  - intros s E. destruct (Nat.ltb_spec (List.length (trim s)) 2) as [L|L].
    + left. split; [exact L|]. now apply (get_search_short sq now st s).
    + right. split; [exact L|]. eexists. split; [|split; [|split]].
      * now apply (get_search_long sq now st s).
      * apply firstn_le_length.
      * apply newest_first_firstn, sort_desc_sorted.
      * intros r I. apply In_firstn in I.
        apply (proj1 (perm_in_iff r _ _ (sort_desc_perm _))) in I.
        now apply filter_In in I.
Qed.

(** X18.  POST then search.  On a table of fewer than 50 rows, a submission
    that is accepted is found by a search for its name, when the name is
    a string of at least two characters with no white space around it and
    none of the characters LIKE reads as more than themselves. *)
Theorem submit_then_search (b : feedback_body) (name : jsstring)
  (now now' : Z) (st : store) :
  ~ invalid b -> b_name b = VStr name ->
  (2 <= List.length name)%nat -> trim name = name -> plain name ->
  (List.length (rows st) < 50)%nat ->
  exists results,
    fst (get_search (search_for name) now' (snd (post_feedback b now st)))
    = json 200 (BResults results (List.length results))
    /\ In (new_row b (next_id st) now) results.
Proof.
  intros V E L T P C.
  rewrite (post_feedback_accepted b now st (valid_accepts b V)). cbn [snd].
  rewrite (get_search_long (search_for name) now' _ name eq_refl)
    by now rewrite T.
  cbn [fst rows sq_type sq_rating search_for]. rewrite T.
  set (found := sort_desc _).
  assert (I : In (new_row b (next_id st) now) found).
  { apply (perm_in_iff _ _ _ (sort_desc_perm _)). apply filter_In. split.
    - apply in_or_app. right. now left.
    - unfold search_selects. cbn [type_filter rating_filter truthy andb].
      rewrite !andb_true_r. apply orb_true_iff. right.
      apply cell_like_wrapped; [exact P|].
      cbn [new_row row_name]. rewrite E. exists name. split; [reflexivity|].
      exists [], name, []. now rewrite app_nil_r. }
  assert (K : (List.length found <= 50)%nat).
  { unfold found.
    rewrite (Permutation_length (sort_desc_perm _)).
    eapply Nat.le_trans; [apply filter_length_le|].
    rewrite length_app. simpl. lia. }
  rewrite (firstn_all2 _ K). now exists found.
Qed.

End AnyQuery.

Lemma get_search_outcomes_witness :
  exists results,
    @get_search sample_platform percent_query 300 two_rows
    = (json 200 (BResults results (List.length results)), two_rows)
    /\ (List.length results <= 50)%nat.
Proof.
  destruct (proj2 (proj2 (@get_search_outcomes sample_platform percent_query
                            300 two_rows))
              (js "%%") eq_refl) as [[L _]|[_ (results & E & C & _)]].
  - simpl in L. lia.
  - now exists results.
Defined.

Lemma submit_then_search_witness :
  exists results,
    fst (@get_search sample_platform (search_for (js "Bob")) 300
           (snd (@post_feedback sample_platform bob 160 alice_store)))
    = json 200 (BResults results (List.length results))
    /\ In bob_row results.
Proof.
  apply (@submit_then_search sample_platform bob (js "Bob") 160 300
           alice_store).
  - apply accepts_valid. reflexivity.
  - reflexivity.
  - simpl. lia.
  - reflexivity.
  - apply plainb_plain. reflexivity.
  - simpl. lia.
Defined.

(** ** POST then GET /api/feedback *)

Section SubmitThenList.
Context {platform : Platform}.

(** X22.  POST then list.  After a submission that is accepted, the [total] of
    a listing is the one it had before, plus one when the new row
    satisfies the filters that were asked for. *)
Theorem submit_then_list (b : feedback_body) (q : list_query)
  (now now' : Z) (st : store) (k o : nat) :
  ~ invalid b ->
  as_count (SNum (asked_limit q)) = Some k ->
  as_count (SNum (asked_offset q)) = Some o ->
  let before := List.length (filter (list_matches q) (rows st)) in
  let new := new_row b (next_id st) now in
  total_of (fst (get_feedback q now' st))
  = VNum (num_of_Z (Z.of_nat before))
  /\ total_of (fst (get_feedback q now' (snd (post_feedback b now st))))
     = VNum (num_of_Z
               (Z.of_nat (before + if list_matches q new then 1 else 0))).
Proof.
  intros V K O before new.
  rewrite (post_feedback_accepted b now st (valid_accepts b V)).
  rewrite !(get_feedback_ok q now' _ k o K O).
  cbn [fst snd total_of payload json rows]. split; [reflexivity|].
  rewrite filter_app, length_app. cbn [filter]. fold new.
  now destruct (list_matches q new).
Qed.

End SubmitThenList.

Lemma submit_then_list_witness :
  total_of (fst (@get_feedback sample_platform course_query 300
                   (snd (@post_feedback sample_platform bob 160
                           alice_store))))
  = VNum (num_of_Z 2).
Proof.
  apply (@submit_then_list sample_platform bob course_query 160 300
           alice_store 1 0).
  - apply accepts_valid. reflexivity.
  - reflexivity.
  - reflexivity.
Defined.

(** ** GET /api/categories *)

Lemma text_leb_total s : forall t, text_leb s t = true \/ text_leb t s = true.
Proof.
  induction s as [|a s IH]; intros [|b t]; simpl; auto.
  destruct (N.compare_spec (fold_case a) (fold_case b)) as [E|L|G].
  - rewrite E, N.eqb_refl, N.ltb_irrefl. simpl. apply IH.
  - left. apply N.ltb_lt in L. now rewrite L.
  - right. apply N.ltb_lt in G. now rewrite G.
Qed.

Lemma text_leb_trans s : forall t u,
  text_leb s t = true -> text_leb t u = true -> text_leb s u = true.
Proof.
  induction s as [|a s IH]; intros [|b t] [|c u]; simpl; auto;
    try discriminate.
  intros H1 H2.
  apply orb_true_iff in H1 as [H1|H1]; apply orb_true_iff in H2 as [H2|H2].
  - apply N.ltb_lt in H1, H2. apply orb_true_iff. left. apply N.ltb_lt. lia.
  - apply andb_true_iff in H2 as [E _]. apply N.eqb_eq in E.
    rewrite <- E, H1. reflexivity.
  - apply andb_true_iff in H1 as [E _]. apply N.eqb_eq in E.
    rewrite E, H2. reflexivity.
  - apply andb_true_iff in H1 as [E1 H1]. apply andb_true_iff in H2 as [E2 H2].
    apply N.eqb_eq in E1, E2. rewrite E1, E2, N.eqb_refl, (IH t u H1 H2).
    apply orb_true_r.
Qed.

Lemma insert_by_name_perm c l : Permutation (insert_by_name c l) (c :: l).
Proof.
  induction l as [|x l IH]; simpl; [reflexivity|].
  destruct (text_leb _ _); [reflexivity|].
  rewrite IH. apply perm_swap.
Qed.

Lemma sort_by_name_perm l : Permutation (sort_by_name l) l.
Proof.
  induction l as [|x l IH]; simpl; [reflexivity|].
  rewrite insert_by_name_perm. now constructor.
Qed.

Lemma insert_by_name_sorted c l : by_name l -> by_name (insert_by_name c l).
Proof.
  unfold by_name. induction 1 as [|x l S IH F]; simpl.
  - repeat constructor.
  - destruct (text_leb (category_name c) (category_name x)) eqn:L.
    + constructor; [now constructor|]. constructor; [exact L|].
      eapply Forall_impl; [|exact F]. simpl. intros y.
      now apply text_leb_trans.
    + constructor; [exact IH|].
      apply (Permutation_Forall (Permutation_sym (insert_by_name_perm c l))).
      constructor; [|exact F].
      destruct (text_leb_total (category_name c) (category_name x));
        congruence.
Qed.

Lemma sort_by_name_sorted l : by_name (sort_by_name l).
Proof.
  induction l as [|x l IH]; simpl; [constructor|].
  now apply insert_by_name_sorted.
Qed.

(** X23.  GET /api/categories is answered 200 with every row of the
    categories table, each as often as the table holds it, in the order
    of their names, letter case aside. *)
Theorem get_categories_listing (categories : list category) :
  exists listing,
    get_categories categories = (200, listing)
    /\ Permutation listing categories
    /\ by_name listing
    /\ List.length listing = List.length categories.
Proof.
  exists (sort_by_name categories). split; [reflexivity|].
  split; [apply sort_by_name_perm|]. split; [apply sort_by_name_sorted|].
  apply Permutation_length, sort_by_name_perm.
Qed.


(** ** GET /api/feedback: the rating filter *)

Section RatingFilter.
Context {platform : Platform}.

Lemma sql_eq_number a y :
  holds (sql_eq a (SNum y))
  = match as_num a with
    | Some x => num_eqb x y
    | None => false
    end.
Proof.
  destruct a as [|x|s]; cbn [sql_eq as_num]; [reflexivity| |];
    now rewrite holds_some.
Qed.

Lemma rating_filter_decimal n r :
  0 <= n < 2 ^ 53 ->
  rating_filter (VStr (decimal_Z n)) r
  = match as_num (row_overall_rating r) with
    | Some x => num_eqb x (num_of_Z n)
    | None => false
    end.
Proof.
  intros B. unfold rating_filter.
  replace (truthy (VStr (decimal_Z n))) with true.
  - rewrite parseInt_decimal by lia. apply sql_eq_number.
  - rewrite decimal_Z_N by lia. pose proof (decimal_N_not_nil (Z.to_N n)).
    simpl. now destruct (decimal_N (Z.to_N n)).
Qed.

Lemma filter_rated n : forall (rs : list row) qs,
  map (fun r => as_num (row_overall_rating r)) rs
  = map (fun q => Some (Fin q)) qs ->
  List.length
    (filter (fun r => match as_num (row_overall_rating r) with
                      | Some x => num_eqb x (num_of_Z n)
                      | None => false
                      end) rs)
  = rated n qs.
Proof.
  unfold rated.
  induction rs as [|r rs IH]; intros [|q qs] E; try discriminate;
    [reflexivity|].
  cbn [map] in E. injection E as E1 E. cbn [filter]. rewrite E1.
  cbn [num_eqb num_of_Z]. destruct (Qeq_bool q (inject_Z n)); cbn [List.length];
    now rewrite (IH qs E).
Qed.

(** X24.  GET /api/feedback?rating=n with no type filter, for a decimal
    numeral [n], on a table whose ratings are numbers: [total] is the
    number of rows rated [n], and every row of the page is rated [n]. *)
Theorem get_feedback_by_rating (q : list_query) (now : Z) (st : store)
  (qs : list Q) (n : Z) (k o : nat) :
  ratings st qs -> 0 <= n < 2 ^ 53 ->
  truthy (lq_type q) = false -> lq_rating q = VStr (decimal_Z n) ->
  as_count (SNum (asked_limit q)) = Some k ->
  as_count (SNum (asked_offset q)) = Some o ->
  exists page,
    get_feedback q now st
    = (json 200
         (BPage page (VNum (num_of_Z (Z.of_nat (rated n qs))))
            (asked_limit q) (asked_offset q)),
       st)
    /\ (forall r, In r page ->
          exists x,
            as_num (row_overall_rating r) = Some x
            /\ num_eqb x (num_of_Z n) = true).
Proof.
  intros R B T E K O. rewrite (get_feedback_ok q now st k o K O).
  assert (M : forall r,
             list_matches q r
             = match as_num (row_overall_rating r) with
               | Some x => num_eqb x (num_of_Z n)
               | None => false
               end).
  { intros r. unfold list_matches, type_filter. rewrite T, E.
    now apply rating_filter_decimal. }
  rewrite (filter_ext _ _ M), (filter_rated n _ qs R).
  eexists. split; [reflexivity|].
  intros r I. apply In_firstn, In_skipn in I.
  apply (proj1 (perm_in_iff r _ _ (sort_desc_perm _))) in I.
  apply filter_In in I as [_ I].
  destruct (as_num (row_overall_rating r)) as [x|]; [|discriminate].
  now exists x.
Qed.

End RatingFilter.

Lemma get_feedback_by_rating_witness :
  exists page,
    @get_feedback sample_platform five_query 300 two_rows
    = (json 200 (BPage page (VNum (Fin 1)) (Fin 50) (Fin 0)), two_rows).
Proof.
  destruct (@get_feedback_by_rating sample_platform five_query 300 two_rows
              [3%Q; 5%Q] 5 50 0) as (page & E & _);
    try reflexivity; try lia.
  now exists page.
Defined.
